(** * Live-session recorder: a model of [storage/session_store.py]

    The development embeds the three classes of the module,
    [GiftEvent], [SessionStats] and [SessionStore], and proves the
    properties of the aggregate, of the ranking views and of the
    session life cycle against that embedding.  The model comes first,
    then the vocabulary of the statements, then the proofs.

    Conventions of the model.
    - Python [int] is [Z]; [str] is [string]; [float] (and SQLite
      [REAL]) is a type [F] with the operations of the class [PyFloat].
      Nothing is assumed of those operations unless a statement says so;
      [binary64] instantiates them with IEEE doubles.  An [int] beyond
      the double range does not convert: the product
      [gift_value * gift_count] raises [OverflowError] then.
    - The order in which a [set] of strings is listed depends on the
      hash seed of the process; it is the operation of the class
      [PyHash], of which nothing but the elements is known.
    - [time.time()] is an input: every operation that reads the clock
      takes the reading as its argument [now].  A reading is a number,
      never NaN; it may be smaller than an earlier reading, as the
      system clock can be set back.
    - The SQLite database is the content of its two tables: [db] as
      seen through the store's single connection, [committed] as it is
      in the file.  A [connect], a statement or a commit that fails
      raises [sqlite3.Error] and leaves the tables as they were; which
      calls fail is decided by the list [io_faults] of the state, one
      flag per call.  What a failed operation leaves uncommitted stays
      visible to the connection, and is committed with the next commit
      that succeeds; it is lost when the connection is closed or a new
      store is made.
    - SQLite integers have 64 bits: binding an [int] outside that range
      raises [OverflowError] before the statement runs.  A NaN is bound
      as [NULL].
    - Calls run one at a time, as the lock of the store serialises them.
    - The logger is an output trace.
    - The [SessionStats] object a caller receives is the one in the
      registry; callers are taken not to write to it. *)

From stdpp Require Import base gmap sets list strings sorting.
From Stdlib Require Import ZArith Lia.
From Stdlib Require Floats.PrimFloat Floats.SpecFloat Floats.FloatOps.
From Stdlib Require Floats.FloatAxioms.

Open Scope Z_scope.

Set Warnings "-register-all".

(** ** Python floats *)

(** The arithmetic the module uses on floats: conversion from [int]
    (as in [0 + x] and [x * n]), [+], [-], [*] and [<], and the test
    for NaN that SQLite makes when it binds a value.  CPython raises
    [OverflowError] when an [int] beyond the double range is converted:
    [f_int_ok n] tells whether [n] converts, and [f_of_int n] is the
    float it converts to when it does. *)
Class PyFloat (F : Type) := {
  f_of_int : Z → F;
  f_int_ok : Z → bool;
  f_add : F → F → F;
  f_sub : F → F → F;
  f_mul : F → F → F;
  f_ltb : F → F → bool;
  f_is_nan : F → bool;
}.

(** [int] to double, rounding to nearest even as CPython does.  An
    [int] that rounds beyond the largest double gives an infinity here;
    CPython raises [OverflowError] for it ([float_fits]). *)
Definition float_of_Z (n : Z) : PrimFloat.float :=
  FloatOps.SF2Prim (SpecFloat.binary_normalize FloatOps.prec FloatOps.emax n 0 false).

(** The [int]s CPython converts: those that round to a finite double. *)
Definition float_fits (n : Z) : bool :=
  negb (PrimFloat.is_infinity (float_of_Z n)).

(** IEEE 754 binary64, the floats of CPython and of SQLite. *)
#[export] Instance binary64 : PyFloat PrimFloat.float := {|
  f_of_int := float_of_Z;
  f_int_ok := float_fits;
  f_add := PrimFloat.add;
  f_sub := PrimFloat.sub;
  f_mul := PrimFloat.mul;
  f_ltb := PrimFloat.ltb;
  f_is_nan := PrimFloat.is_nan;
|}.

(** ** Python sets *)

(** [list(s)] for the set [s] of the strings of [l]: every string of
    [l] once, in an order that depends on the hash seed of the process
    and on how the set was filled. *)
Class PyHash := {
  list_of_set : list string → list string;
  list_of_set_NoDup : ∀ l, NoDup (list_of_set l);
  list_of_set_elem : ∀ l x, x ∈ list_of_set l ↔ x ∈ l;
}.

(** One such order, for the runs on concrete values. *)
Definition elements_order : PyHash := {|
  list_of_set l := elements (list_to_set l : gset string);
  list_of_set_NoDup l := NoDup_elements (list_to_set l);
  list_of_set_elem l x :=
    iff_trans (elem_of_elements (list_to_set l : gset string) x)
              (elem_of_list_to_set x l);
|}.

(** ** Exceptions *)

(** The exceptions the module lets through: [sqlite3.Error] from a call
    into SQLite, [OverflowError] from a conversion. *)
Inductive exn : Type := sqlite3_Error | OverflowError.

Inductive outcome (A : Type) : Type :=
| Returned (a : A)
| Raised (e : exn).
Arguments Returned {A} a.
Arguments Raised {A} e.

(** ** Python built-ins *)

Section Sorted.
Context {A K : Type} (lt : K → K → bool) (key : A → K).

(** Insertion into a list sorted from the largest key down; [x] goes in
    front of the first element that is not above it. *)
Fixpoint insert_desc (x : A) (l : list A) : list A :=
  match l with
  | [] => [x]
  | y :: l' => if lt (key x) (key y) then y :: insert_desc x l' else x :: l
  end.

(** [sorted(l, key=key, reverse=True)]: a stable sort that compares keys
    with [<] only; elements with tied keys keep the order of [l].  Where
    [<] orders the keys, every stable sort returns the same list
    ([ranking_unique]). *)
Definition sorted_desc (l : list A) : list A := foldr insert_desc [] l.

End Sorted.

(** [l[:limit]]; a negative [limit] counts from the end. *)
Definition slice_to {A : Type} (limit : Z) (l : list A) : list A :=
  if 0 <=? limit then take (Z.to_nat limit) l
  else take (Z.to_nat (Z.of_nat (length l) + limit)) l.

Section Dict.
Context {K V : Type} `{EqDecision K}.

(** A [dict] keeps its keys in the order of first insertion. *)
Definition dict : Type := list (K * V).

(** [d.get(k, default)] *)
Fixpoint dict_get (d : dict) (k : K) (default : V) : V :=
  match d with
  | [] => default
  | (k', v) :: d' => if decide (k' = k) then v else dict_get d' k default
  end.

(** [d[k] = v]: an existing key keeps its place, a new one goes last. *)
Fixpoint dict_set (d : dict) (k : K) (v : V) : dict :=
  match d with
  | [] => [(k, v)]
  | (k', v') :: d' =>
      if decide (k' = k) then (k', v) :: d' else (k', v') :: dict_set d' k v
  end.

End Dict.

(** ** [GiftEvent] and [SessionStats] *)

Section Records.
Context {F : Type}.

Record GiftEvent : Type := {
  timestamp : F;
  user_name : string;
  user_id : string;
  gift_id : string;
  gift_name : string;
  gift_count : Z;
  gift_value : F;
}.

Record SessionStats : Type := {
  session_id : option Z;
  room_id : Z;
  start_time : F;
  gifts : list GiftEvent;
  total_gift_count : Z;
  total_gift_value : F;
  gift_user_count : Z;
}.

End Records.

Arguments GiftEvent : clear implicits.
Arguments SessionStats : clear implicits.

Module SessionStats.
Section Methods.
Context {F : Type} `{PyFloat F}.

(** [SessionStats(session_id=.., room_id=.., start_time=..)]: the other
    fields take the defaults of the dataclass. *)
Definition new (session_id : option Z) (room_id : Z) (start_time : F)
  : SessionStats F :=
  {| session_id := session_id; room_id := room_id; start_time := start_time;
     gifts := []; total_gift_count := 0; total_gift_value := f_of_int 0;
     gift_user_count := 0 |}.

(** The value one event contributes: [gift_value * gift_count]. *)
Definition event_value (g : GiftEvent F) : F :=
  f_mul (gift_value g) (f_of_int (gift_count g)).

(** [self.gifts.append(event); self.total_gift_count += event.gift_count] *)
Definition count_gift (event : GiftEvent F) (self : SessionStats F)
  : SessionStats F :=
  {| session_id := session_id self; room_id := room_id self;
     start_time := start_time self;
     gifts := gifts self ++ [event];
     total_gift_count := total_gift_count self + gift_count event;
     total_gift_value := total_gift_value self;
     gift_user_count := gift_user_count self |}.

(** [self.total_gift_value += event.gift_value * event.gift_count] *)
Definition value_gift (event : GiftEvent F) (self : SessionStats F)
  : SessionStats F :=
  {| session_id := session_id self; room_id := room_id self;
     start_time := start_time self;
     gifts := gifts self;
     total_gift_count := total_gift_count self;
     total_gift_value := f_add (total_gift_value self) (event_value event);
     gift_user_count := gift_user_count self |}.

(** [add_gift] changes the object it is called on: the result is how
    the call ends together with the object as the call leaves it.  The
    product raises when the count does not convert, after the event is
    appended and the count added. *)
Definition add_gift (event : GiftEvent F) (self : SessionStats F)
  : outcome unit * SessionStats F :=
  let self := count_gift event self in
  if f_int_ok (gift_count event)
  then (Returned tt, value_gift event self)
  else (Raised OverflowError, self).

(** Every count of the log converts to float. *)
Definition convertible (self : SessionStats F) : bool :=
  forallb (λ g, f_int_ok (gift_count g)) (gifts self).

(** The loop of [get_top_gifts] and [get_top_users]:
    [for g in gifts: d[key(g)] = d.get(key(g), zero) + val(g)]. *)
Definition aggregate {K V : Type} `{EqDecision K}
    (key : GiftEvent F → K) (add : V → GiftEvent F → V) (zero : V)
    (gifts : list (GiftEvent F)) : list (K * V) :=
  foldl (λ d g, dict_set d (key g) (add (dict_get d (key g) zero) g)) [] gifts.

Definition get_top_gifts (limit : Z) (self : SessionStats F)
  : list (string * string * Z) :=
  let aggregated :=
    aggregate (λ g, (user_name g, gift_name g))
              (λ n g, n + gift_count g) 0 (gifts self) in
  let sorted_items := sorted_desc Z.ltb snd aggregated in
  (λ kv, (fst (fst kv), snd (fst kv), snd kv)) <$> slice_to limit sorted_items.

(** The list [get_top_users] returns.  Its loop forms the product
    [g.gift_value * g.gift_count] of every event: on a log that is not
    [convertible] the call raises [OverflowError] instead, and
    [SessionStore.top_users] is the call with that outcome. *)
Definition get_top_users (limit : Z) (self : SessionStats F)
  : list (string * F) :=
  let user_values :=
    aggregate user_name (λ x g, f_add x (event_value g)) (f_of_int 0)
              (gifts self) in
  let sorted_users := sorted_desc f_ltb snd user_values in
  slice_to limit sorted_users.

Definition get_unique_users (self : SessionStats F) : gset string :=
  list_to_set (user_name <$> gifts self).

End Methods.
End SessionStats.

(** ** JSON *)

(** The Python values a summary is built from, and the documents they
    are written as.  [json.dumps] and [json.loads] are modelled on the
    document that the text denotes; the text itself is not modelled. *)
Section Json.
Context {F : Type}.

Inductive pyval : Type :=
| PyNone
| PyInt (n : Z)
| PyFloatV (x : F)
| PyStr (s : string)
| PyTuple (items : list pyval)
| PyList (items : list pyval)
| PyDict (items : list (string * pyval)).

Inductive json : Type :=
| JNull
| JInt (n : Z)
| JReal (x : F)
| JString (s : string)
| JArray (items : list json)
| JObject (members : list (string * json)).

(** [json.dumps]: tuples and lists both become arrays. *)
Fixpoint json_dumps (v : pyval) : json :=
  match v with
  | PyNone => JNull
  | PyInt n => JInt n
  | PyFloatV x => JReal x
  | PyStr s => JString s
  | PyTuple items => JArray (json_dumps <$> items)
  | PyList items => JArray (json_dumps <$> items)
  | PyDict items => JObject ((λ kv, (fst kv, json_dumps (snd kv))) <$> items)
  end.

(** [json.loads]: every array becomes a list. *)
Fixpoint json_loads (j : json) : pyval :=
  match j with
  | JNull => PyNone
  | JInt n => PyInt n
  | JReal x => PyFloatV x
  | JString s => PyStr s
  | JArray items => PyList (json_loads <$> items)
  | JObject members => PyDict ((λ kv, (fst kv, json_loads (snd kv))) <$> members)
  end.

(** The value with every tuple replaced by the list of its items. *)
Fixpoint tuples_to_lists (v : pyval) : pyval :=
  match v with
  | PyTuple items => PyList (tuples_to_lists <$> items)
  | PyList items => PyList (tuples_to_lists <$> items)
  | PyDict items => PyDict ((λ kv, (fst kv, tuples_to_lists (snd kv))) <$> items)
  | _ => v
  end.

End Json.

Arguments pyval : clear implicits.
Arguments json : clear implicits.

(** ** [GiftEvent] as a dictionary *)

(** A [GiftEvent] object as Python holds it.  The dataclass does not
    check the values its fields are given, so a field is any value. *)
Module raw.
Record GiftEvent {F : Type} : Type := {
  timestamp : pyval F;
  user_name : pyval F;
  user_id : pyval F;
  gift_id : pyval F;
  gift_name : pyval F;
  gift_count : pyval F;
  gift_value : pyval F;
}.
Arguments GiftEvent : clear implicits.
End raw.

Module GiftEvent.
Section Methods.
Context {F : Type} `{PyFloat F}.

(** The object of an event whose fields follow the annotations. *)
Definition object (e : GiftEvent F) : raw.GiftEvent F :=
  {| raw.timestamp := PyFloatV (timestamp e);
     raw.user_name := PyStr (user_name e);
     raw.user_id := PyStr (user_id e);
     raw.gift_id := PyStr (gift_id e);
     raw.gift_name := PyStr (gift_name e);
     raw.gift_count := PyInt (gift_count e);
     raw.gift_value := PyFloatV (gift_value e) |}.

Definition to_dict (self : raw.GiftEvent F) : list (string * pyval F) :=
  [("timestamp", raw.timestamp self);
   ("user_name", raw.user_name self);
   ("user_id", raw.user_id self);
   ("gift_id", raw.gift_id self);
   ("gift_name", raw.gift_name self);
   ("gift_count", raw.gift_count self);
   ("gift_value", raw.gift_value self)].

(** [cls(timestamp=data.get("timestamp", 0.0), ...)] *)
Definition from_dict (data : list (string * pyval F)) : raw.GiftEvent F :=
  {| raw.timestamp := dict_get data "timestamp" (PyFloatV (f_of_int 0));
     raw.user_name := dict_get data "user_name" (PyStr "");
     raw.user_id := dict_get data "user_id" (PyStr "");
     raw.gift_id := dict_get data "gift_id" (PyStr "");
     raw.gift_name := dict_get data "gift_name" (PyStr "");
     raw.gift_count := dict_get data "gift_count" (PyInt 0);
     raw.gift_value := dict_get data "gift_value" (PyFloatV (f_of_int 0)) |}.

(** The names of the fields, in the order of the class. *)
Definition field_names : list string :=
  ["timestamp"; "user_name"; "user_id"; "gift_id"; "gift_name"; "gift_count";
   "gift_value"].

End Methods.
End GiftEvent.

(** ** The database *)

(** A row of the table [sessions].  The column [created_at] is filled by
    the database and never read; it is left out.  [None] is [NULL]: an
    open session has no [end_time], a session that was not ended by
    [end_session] has no summary, and a total that was NaN when it was
    written is stored as [NULL].  The times and the duration come from
    the clock, which gives no NaN. *)
Module sessions.
Record row {F : Type} : Type := {
  id : Z;
  room_id : Z;
  start_time : F;
  end_time : option F;
  duration : F;
  total_gift_count : Z;
  total_gift_value : option F;
  gift_user_count : Z;
  summary_json : option (json F);
}.
Arguments row : clear implicits.
End sessions.

(** A row of the table [gifts], with the values the [INSERT] binds.  No
    method of the module reads this table. *)
Module gifts_table.
Record row {F : Type} : Type := {
  id : Z;
  session_id : Z;
  timestamp : F;
  user_name : string;
  user_id : string;
  gift_id : string;
  gift_name : string;
  gift_count : Z;
  gift_value : F;
}.
Arguments row : clear implicits.
End gifts_table.

(** An entry of the list [get_session_history] returns. *)
Module history.
Record entry {F : Type} : Type := {
  id : Z;
  room_id : Z;
  start_time : F;
  end_time : option F;
  duration : F;
  total_gift_count : Z;
  total_gift_value : option F;
  gift_user_count : Z;
  summary : option (pyval F);
}.
Arguments entry : clear implicits.
End history.

Section State.
Context {F : Type} `{PyFloat F}.

(** The two tables in rowid order, with the last id [AUTOINCREMENT]
    handed out for each. *)
Record Database : Type := {
  sessions_rows : list (sessions.row F);
  gifts_rows : list (gifts_table.row F);
  sessions_seq : Z;
  gifts_seq : Z;
}.

Definition empty_db : Database :=
  {| sessions_rows := []; gifts_rows := []; sessions_seq := 0; gifts_seq := 0 |}.

Inductive level : Type := DEBUG | WARNING.

(** The messages of the module, by the place that logs them. *)
Inductive message : Type :=
| db_initialised
| stale_session_closed (room_id : Z)
| session_started (room_id session_id : Z)
| gift_without_session (room_id : Z)
| no_active_session (room_id : Z)
| session_ended (room_id session_id : Z) (duration : F) (total_gift_count : Z).

(** The tables as the connection sees them and as they are committed,
    the fields of the [SessionStore] object, the log written so far and
    the failures still to come. *)
Record State : Type := {
  db : Database;
  committed : Database;
  connected : bool;
  active_sessions : gmap Z (SessionStats F);
  log : list (level * message);
  io_faults : list bool;
}.

Definition with_db (d : Database) (st : State) : State :=
  {| db := d; committed := committed st; connected := connected st;
     active_sessions := active_sessions st; log := log st;
     io_faults := io_faults st |}.

Definition with_committed (d : Database) (st : State) : State :=
  {| db := db st; committed := d; connected := connected st;
     active_sessions := active_sessions st; log := log st;
     io_faults := io_faults st |}.

Definition with_connected (c : bool) (st : State) : State :=
  {| db := db st; committed := committed st; connected := c;
     active_sessions := active_sessions st; log := log st;
     io_faults := io_faults st |}.

Definition with_active_sessions (a : gmap Z (SessionStats F)) (st : State) : State :=
  {| db := db st; committed := committed st; connected := connected st;
     active_sessions := a; log := log st; io_faults := io_faults st |}.

Definition with_log (l : list (level * message)) (st : State) : State :=
  {| db := db st; committed := committed st; connected := connected st;
     active_sessions := active_sessions st; log := l;
     io_faults := io_faults st |}.

Definition with_io_faults (f : list bool) (st : State) : State :=
  {| db := db st; committed := committed st; connected := connected st;
     active_sessions := active_sessions st; log := log st; io_faults := f |}.

(** *** Computations that return or raise *)

Definition M (A : Type) : Type := State → outcome A * State.

#[export] Instance M_ret : MRet M := λ A a st, (Returned a, st).

#[export] Instance M_bind : MBind M := λ A B k m st,
  match m st with
  | (Returned a, st') => k a st'
  | (Raised e, st') => (Raised e, st')
  end.

Definition get_state : M State := λ st, (Returned st, st).

Definition modify (f : State → State) : M unit := λ st, (Returned tt, f st).

Definition raise {A : Type} (e : exn) : M A := λ st, (Raised e, st).

(** The end of a call that left the state as it is. *)
Definition ended_as {A : Type} (o : outcome A) : M A := λ st, (o, st).

(** [logger.debug] and [logger.warning] *)
Definition logger (lv : level) (msg : message) : M unit :=
  modify (λ st, with_log (log st ++ [(lv, msg)]) st).

(** One call into SQLite: [connect], [execute] or [commit].  It raises
    when the next fault flag is set. *)
Definition sqlite_call : M unit := λ st,
  match io_faults st with
  | [] => (Returned tt, st)
  | false :: rest => (Returned tt, with_io_faults rest st)
  | true :: rest => (Raised sqlite3_Error, with_io_faults rest st)
  end.

(** The range of an SQLite [INTEGER]. *)
Definition sql_int_ok (n : Z) : bool := (- 2 ^ 63 <=? n) && (n <? 2 ^ 63).

(** Binding the [int] parameters of a statement. *)
Definition bind_ints (ns : list Z) : M unit :=
  if forallb sql_int_ok ns then mret tt else raise OverflowError.

(** The value a [REAL] column holds for a float that is bound to it. *)
Definition sql_real (x : F) : option F := if f_is_nan x then None else Some x.

End State.

Arguments Database : clear implicits.
Arguments State : clear implicits.
Arguments message : clear implicits.
Arguments M : clear implicits.

(** ** [SessionStore] *)

Module SessionStore.
Section Methods.
Context {F : Type} `{PyFloat F} `{PyHash}.

(** *** The SQL statements *)

(** [WHERE room_id = ? AND end_time IS NULL] *)
Definition open_for (room_id : Z) (r : sessions.row F) : bool :=
  bool_decide (sessions.room_id r = room_id)
  && match sessions.end_time r with None => true | Some _ => false end.

(** [WHERE room_id = ? AND end_time IS NOT NULL] *)
Definition closed_for (room_id : Z) (r : sessions.row F) : bool :=
  bool_decide (sessions.room_id r = room_id)
  && match sessions.end_time r with None => false | Some _ => true end.

(** [SELECT id FROM sessions WHERE room_id = ? AND end_time IS NULL]
    and [fetchone()]. *)
Definition select_open (room_id : Z) (d : Database F) : option (sessions.row F) :=
  head (filter (λ r, open_for room_id r) (sessions_rows d)).

(** [SET end_time = ?, duration = ? - start_time] on one row. *)
Definition force_close_row (now : F) (r : sessions.row F) : sessions.row F :=
  {| sessions.id := sessions.id r;
     sessions.room_id := sessions.room_id r;
     sessions.start_time := sessions.start_time r;
     sessions.end_time := Some now;
     sessions.duration := f_sub now (sessions.start_time r);
     sessions.total_gift_count := sessions.total_gift_count r;
     sessions.total_gift_value := sessions.total_gift_value r;
     sessions.gift_user_count := sessions.gift_user_count r;
     sessions.summary_json := sessions.summary_json r |}.

(** [UPDATE sessions SET end_time = ?, duration = ? - start_time
    WHERE id = ?] *)
Definition update_force_close (now : F) (id : Z) (d : Database F) : Database F :=
  {| sessions_rows :=
       (λ r, if decide (sessions.id r = id) then force_close_row now r else r)
       <$> sessions_rows d;
     gifts_rows := gifts_rows d;
     sessions_seq := sessions_seq d;
     gifts_seq := gifts_seq d |}.

(** The row [INSERT INTO sessions (room_id, start_time)] creates: the
    other columns take the defaults of the schema. *)
Definition new_session_row (id room_id : Z) (start_time : F) : sessions.row F :=
  {| sessions.id := id;
     sessions.room_id := room_id;
     sessions.start_time := start_time;
     sessions.end_time := None;
     sessions.duration := f_of_int 0;
     sessions.total_gift_count := 0;
     sessions.total_gift_value := Some (f_of_int 0);
     sessions.gift_user_count := 0;
     sessions.summary_json := None |}.

(** [INSERT INTO sessions (room_id, start_time) VALUES (?, ?)]; the new
    id is one more than the last one handed out. *)
Definition insert_session (room_id : Z) (start_time : F) (d : Database F)
  : Database F :=
  {| sessions_rows :=
       sessions_rows d ++ [new_session_row (sessions_seq d + 1) room_id start_time];
     gifts_rows := gifts_rows d;
     sessions_seq := sessions_seq d + 1;
     gifts_seq := gifts_seq d |}.

(** [INSERT INTO gifts (session_id, timestamp, user_name, user_id,
    gift_id, gift_name, gift_count, gift_value) VALUES (...)] *)
Definition insert_gift (session_id : Z) (g : GiftEvent F) (d : Database F)
  : Database F :=
  {| sessions_rows := sessions_rows d;
     gifts_rows :=
       gifts_rows d ++
       [{| gifts_table.id := gifts_seq d + 1;
           gifts_table.session_id := session_id;
           gifts_table.timestamp := timestamp g;
           gifts_table.user_name := user_name g;
           gifts_table.user_id := user_id g;
           gifts_table.gift_id := gift_id g;
           gifts_table.gift_name := gift_name g;
           gifts_table.gift_count := gift_count g;
           gifts_table.gift_value := gift_value g |}];
     sessions_seq := sessions_seq d;
     gifts_seq := gifts_seq d + 1 |}.

(** [SET end_time = ?, duration = ?, total_gift_count = ?,
    total_gift_value = ?, gift_user_count = ?, summary_json = ?] on one
    row. *)
Definition finalize_row (now duration : F) (stats : SessionStats F)
    (summary : json F) (r : sessions.row F) : sessions.row F :=
  {| sessions.id := sessions.id r;
     sessions.room_id := sessions.room_id r;
     sessions.start_time := sessions.start_time r;
     sessions.end_time := Some now;
     sessions.duration := duration;
     sessions.total_gift_count := total_gift_count stats;
     sessions.total_gift_value := sql_real (total_gift_value stats);
     sessions.gift_user_count := gift_user_count stats;
     sessions.summary_json := Some summary |}.

(** [UPDATE sessions SET ... WHERE id = ?] of [end_session]. *)
Definition update_finalize (now duration : F) (stats : SessionStats F)
    (summary : json F) (id : Z) (d : Database F) : Database F :=
  {| sessions_rows :=
       (λ r, if decide (sessions.id r = id)
             then finalize_row now duration stats summary r else r)
       <$> sessions_rows d;
     gifts_rows := gifts_rows d;
     sessions_seq := sessions_seq d;
     gifts_seq := gifts_seq d |}.

(** [LIMIT ?]: SQLite puts no bound on the rows when the limit is
    negative. *)
Definition sql_limit {A : Type} (limit : Z) (rows : list A) : list A :=
  if limit <? 0 then rows else take (Z.to_nat limit) rows.

(** [SELECT ... FROM sessions WHERE room_id = ? AND end_time IS NOT NULL
    ORDER BY start_time DESC LIMIT ?].  SQL leaves the order of rows with
    equal [start_time] open; the model keeps them in rowid order. *)
Definition select_history (room_id limit : Z) (d : Database F)
  : list (sessions.row F) :=
  sql_limit limit
    (sorted_desc f_ltb sessions.start_time
       (filter (λ r, closed_for room_id r) (sessions_rows d))).

(** *** The methods *)

Definition execute (f : Database F → Database F) : M F unit :=
  sqlite_call;; modify (λ st, with_db (f (db st)) st).

Definition query {A : Type} (q : Database F → A) : M F A :=
  sqlite_call;; st ← get_state; mret (q (db st)).

(** [conn.commit()]: what the connection sees is what the file holds. *)
Definition commit : M F unit :=
  sqlite_call;; modify (λ st, with_committed (db st) st).

(** [cursor.lastrowid] after the [INSERT] into [sessions]. *)
Definition lastrowid : M F Z := st ← get_state; mret (sessions_seq (db st)).

(** [_get_conn]: connect on first use. *)
Definition _get_conn : M F unit :=
  st ← get_state;
  if connected st then mret tt
  else sqlite_call;; modify (with_connected true).

(** [_init_db]: the [CREATE ... IF NOT EXISTS] statements change no
    row. *)
Definition _init_db : M F unit :=
  _get_conn;;
  execute id;; execute id;; execute id;; execute id;;
  commit;;
  logger DEBUG db_initialised.

(** [__init__]: a new store object on the database file.  It has no
    connection yet and will see the file as it is committed. *)
Definition __init__ : M F unit :=
  modify (λ st, with_db (committed st) st);;
  modify (with_connected false);;
  modify (with_active_sessions ∅);;
  _init_db.

Definition start_session (now : F) (room_id : Z) : M F (SessionStats F) :=
  _get_conn;;
  bind_ints [room_id];;
  row ← query (select_open room_id);
  match row with
  | Some r =>
      execute (update_force_close now (sessions.id r));;
      logger WARNING (stale_session_closed room_id)
  | None => mret tt
  end;;
  execute (insert_session room_id now);;
  session_id ← lastrowid;
  commit;;
  let stats := SessionStats.new (Some session_id) room_id now in
  modify (λ st, with_active_sessions (<[room_id := stats]> (active_sessions st)) st);;
  logger DEBUG (session_started room_id session_id);;
  mret stats.

Definition add_gift (now : F) (room_id : Z)
    (user_name user_id gift_id gift_name : string)
    (gift_count : Z) (gift_value : F) : M F bool :=
  st ← get_state;
  match active_sessions st !! room_id with
  | None => logger WARNING (gift_without_session room_id);; mret false
  | Some stats =>
      match session_id stats with
      | None => logger WARNING (gift_without_session room_id);; mret false
      | Some sid =>
          let event :=
            {| timestamp := now; user_name := user_name; user_id := user_id;
               gift_id := gift_id; gift_name := gift_name;
               gift_count := gift_count; gift_value := gift_value |} in
          let added := SessionStats.add_gift event stats in
          modify (λ st, with_active_sessions
                          (<[room_id := snd added]> (active_sessions st)) st);;
          ended_as (fst added);;
          _get_conn;;
          bind_ints [gift_count];;
          execute (insert_gift sid event);;
          commit;;
          mret true
      end
  end.

(** [stats.get_top_users(limit)] as a call. *)
Definition top_users (limit : Z) (stats : SessionStats F) : M F (list (string * F)) :=
  if SessionStats.convertible stats
  then mret (SessionStats.get_top_users limit stats)
  else raise OverflowError.

(** The summary [end_session] builds, when [get_top_users] returns. *)
Definition summary_of (stats : SessionStats F) : pyval F :=
  PyDict
    [("top_gifts",
      PyList ((λ e, PyTuple [PyStr (fst (fst e)); PyStr (snd (fst e)); PyInt (snd e)])
              <$> SessionStats.get_top_gifts 5 stats));
     ("top_users",
      PyList ((λ e, PyTuple [PyStr (fst e); PyFloatV (snd e)])
              <$> SessionStats.get_top_users 5 stats));
     ("unique_users",
      PyList (PyStr <$> list_of_set (user_name <$> gifts stats)))].

(** The aggregate [end_session] returns: [gift_user_count] is set. *)
Definition finished (stats : SessionStats F) : SessionStats F :=
  {| session_id := session_id stats; room_id := room_id stats;
     start_time := start_time stats; gifts := gifts stats;
     total_gift_count := total_gift_count stats;
     total_gift_value := total_gift_value stats;
     gift_user_count := Z.of_nat (size (SessionStats.get_unique_users stats)) |}.

Definition end_session (now : F) (room_id : Z) : M F (option (SessionStats F)) :=
  st ← get_state;
  let popped := active_sessions st !! room_id in
  modify (λ st, with_active_sessions (delete room_id (active_sessions st)) st);;
  match popped with
  | None => logger WARNING (no_active_session room_id);; mret None
  | Some stats =>
      match session_id stats with
      | None => logger WARNING (no_active_session room_id);; mret None
      | Some sid =>
          let duration := f_sub now (start_time stats) in
          let stats := finished stats in
          top_users 5 stats;;
          let summary := summary_of stats in
          _get_conn;;
          bind_ints [total_gift_count stats];;
          execute (update_finalize now duration stats (json_dumps summary) sid);;
          commit;;
          logger DEBUG (session_ended room_id sid duration (total_gift_count stats));;
          mret (Some stats)
      end
  end.

Definition get_active_session (room_id : Z) : M F (option (SessionStats F)) :=
  st ← get_state; mret (active_sessions st !! room_id).

(** The dictionary built from one row; a [NULL] summary and a [NULL]
    total read as [None]. *)
Definition entry_of_row (r : sessions.row F) : history.entry F :=
  {| history.id := sessions.id r;
     history.room_id := sessions.room_id r;
     history.start_time := sessions.start_time r;
     history.end_time := sessions.end_time r;
     history.duration := sessions.duration r;
     history.total_gift_count := sessions.total_gift_count r;
     history.total_gift_value := sessions.total_gift_value r;
     history.gift_user_count := sessions.gift_user_count r;
     history.summary := json_loads <$> sessions.summary_json r |}.

Definition get_session_history (room_id limit : Z) : M F (list (history.entry F)) :=
  _get_conn;;
  bind_ints [room_id; limit];;
  rows ← query (select_history room_id limit);
  mret (entry_of_row <$> rows).

(** [close]: closing the connection drops what it had not committed. *)
Definition close : M F unit :=
  st ← get_state;
  if connected st
  then modify (λ st, with_connected false (with_db (committed st) st))
  else mret tt.

End Methods.
End SessionStore.

(** ** The calls a collaborator can make, and the states they reach *)

Section Calls.
Context {F : Type} `{PyFloat F} `{PyHash}.

(** The event [add_gift] builds from its arguments. *)
Definition event_of (now : F) (user_name user_id gift_id gift_name : string)
    (gift_count : Z) (gift_value : F) : GiftEvent F :=
  {| timestamp := now; user_name := user_name; user_id := user_id;
     gift_id := gift_id; gift_name := gift_name;
     gift_count := gift_count; gift_value := gift_value |}.

(** The aggregate after a run of [add_gift] calls, each of which
    returned or raised. *)
Definition add_gifts (events : list (GiftEvent F)) (self : SessionStats F)
  : SessionStats F :=
  foldl (λ s e, snd (SessionStats.add_gift e s)) self events.

Inductive call : Type :=
| Init
| StartSession (now : F) (room_id : Z)
| AddGift (now : F) (room_id : Z) (user_name user_id gift_id gift_name : string)
    (gift_count : Z) (gift_value : F)
| EndSession (now : F) (room_id : Z)
| GetActiveSession (room_id : Z)
| GetSessionHistory (room_id limit : Z)
| Close.

(** The state a call leaves, whether it returns or raises. *)
Definition after (c : call) (st : State F) : State F :=
  match c with
  | Init => snd (SessionStore.__init__ st)
  | StartSession now room_id => snd (SessionStore.start_session now room_id st)
  | AddGift now room_id user_name user_id gift_id gift_name gift_count gift_value =>
      snd (SessionStore.add_gift now room_id user_name user_id gift_id gift_name
             gift_count gift_value st)
  | EndSession now room_id => snd (SessionStore.end_session now room_id st)
  | GetActiveSession room_id => snd (SessionStore.get_active_session room_id st)
  | GetSessionHistory room_id limit =>
      snd (SessionStore.get_session_history room_id limit st)
  | Close => snd (SessionStore.close st)
  end.

(** Before the first store is made: an empty database, nothing in
    memory, and the failures the run will meet. *)
Definition blank (faults : list bool) : State F :=
  {| db := empty_db; committed := empty_db; connected := false;
     active_sessions := ∅; log := []; io_faults := faults |}.

(** [Init] makes a store on the database as it stands: the first store,
    or a new one after the process restarts. *)
Inductive reachable : State F → Prop :=
| reachable_blank (faults : list bool) : reachable (blank faults)
| reachable_after (c : call) (st : State F) :
    reachable st → reachable (after c st).

(** The state after a run of calls. *)
Definition after_all (calls : list call) (st : State F) : State F :=
  foldl (λ s c, after c s) st calls.

(** The call of [add_gift] that records the event [e] in a room, at the
    clock reading [timestamp e]. *)
Definition gift_call (room_id : Z) (e : GiftEvent F) : call :=
  AddGift (timestamp e) room_id (user_name e) (user_id e) (gift_id e)
    (gift_name e) (gift_count e) (gift_value e).

End Calls.

(** What a call is about and how it ends. *)
Section Outcomes.
Context {F : Type} `{PyFloat F} `{PyHash}.


Definition is_raised {A : Type} (o : outcome A) : bool :=
  match o with Raised _ => true | Returned _ => false end.

(** Whether a call raises. *)
Definition raises (c : call) (st : State F) : bool :=
  match c with
  | Init => is_raised (fst (SessionStore.__init__ st))
  | StartSession now room_id =>
      is_raised (fst (SessionStore.start_session now room_id st))
  | AddGift now room_id user_name user_id gift_id gift_name gift_count gift_value =>
      is_raised (fst (SessionStore.add_gift now room_id user_name user_id gift_id
                        gift_name gift_count gift_value st))
  | EndSession now room_id => is_raised (fst (SessionStore.end_session now room_id st))
  | GetActiveSession room_id =>
      is_raised (fst (SessionStore.get_active_session room_id st))
  | GetSessionHistory room_id limit =>
      is_raised (fst (SessionStore.get_session_history room_id limit st))
  | Close => is_raised (fst (SessionStore.close st))
  end.

End Outcomes.

(** ** The vocabulary of the statements *)

(** [lt] orders the values of [ks] as a strict weak order: it is
    asymmetric and incomparability is transitive.  On doubles this holds
    of every list without NaN ([binary64_weak_order]). *)
Definition weak_order_on {K : Type} (lt : K → K → bool) (ks : list K) : Prop :=
  ∀ a b c, a ∈ ks → b ∈ ks → c ∈ ks →
    (lt a b = true → lt b a = false) ∧
    (lt a b = false → lt b c = false → lt a c = false).

(** Neither value is below the other. *)
Definition tie {K : Type} (lt : K → K → bool) (a b : K) : bool :=
  negb (lt a b) && negb (lt b a).

(** [a] may stand before [b] in a descending list: [a] is not below [b]. *)
Definition not_below {A K : Type} (lt : K → K → bool) (key : A → K)
    (a b : A) : Prop :=
  lt (key a) (key b) = false.

(** [ranked] lists the entries of [groups] from the largest key down,
    entries with tied keys in the order they have in [groups]. *)
Definition ranking {A K : Type} (lt : K → K → bool) (key : A → K)
    (groups ranked : list A) : Prop :=
  ranked ≡ₚ groups ∧
  StronglySorted (not_below lt key) ranked ∧
  ∀ e, e ∈ groups →
    filter (λ y, tie lt (key y) (key e)) ranked
    = filter (λ y, tie lt (key y) (key e)) groups.

(** A checker for [weak_order_on], to settle it on concrete keys. *)
Definition weak_order_onb {K : Type} (lt : K → K → bool) (ks : list K) : bool :=
  forallb (λ a, forallb (λ b, forallb (λ c,
    implb (lt a b) (negb (lt b a)) && (lt a b || lt b c || negb (lt a c)))
    ks) ks) ks.

(** ** Grouping, as the specification words it *)

(** The distinct keys of [ks], each at the place of its first occurrence. *)
Fixpoint first_seen {K : Type} `{EqDecision K} (ks : list K) : list K :=
  match ks with
  | [] => []
  | k :: ks' => k :: filter (λ k', k' ≠ k) (first_seen ks')
  end.

Section GroupBy.
Context {E K V : Type} `{EqDecision K}.
Context (key : E → K) (add : V → E → V) (zero : V).

(** The total of group [k]: the events of [log] with key [k], added up
    in the order of the log. *)
Definition group_total (k : K) (log : list E) : V :=
  foldl add zero (filter (λ g, key g = k) log).

(** One entry per group, in first-seen order, with the group's total. *)
Definition group_by (log : list E) : list (K * V) :=
  (λ k, (k, group_total k log)) <$> first_seen (key <$> log).

End GroupBy.

(** The sums of the specification. *)
Definition sum_Z (l : list Z) : Z := foldr Z.add 0 l.

Definition sum_F {F : Type} `{PyFloat F} (l : list F) : F :=
  foldl f_add (f_of_int 0) l.

Section Totals.
Context {F : Type} `{PyFloat F} `{PyHash}.

(** Every pair [(user_name, gift_name)] of the log, in first-seen order,
    with the sum of [gift_count] over its events. *)
Definition gift_totals (log : list (GiftEvent F)) : list (string * string * Z) :=
  (λ k, (fst k, snd k,
         sum_Z (gift_count <$> filter (λ g, (user_name g, gift_name g) = k) log)))
  <$> first_seen ((λ g, (user_name g, gift_name g)) <$> log).

(** Every [user_name] of the log, in first-seen order, with the sum of
    [gift_value * gift_count] over the user's events. *)
Definition user_totals (log : list (GiftEvent F)) : list (string * F) :=
  (λ u, (u, sum_F ((λ g, f_mul (gift_value g) (f_of_int (gift_count g)))
                   <$> filter (λ g, user_name g = u) log)))
  <$> first_seen (user_name <$> log).

End Totals.

(** The groups of the two views, and the cut of a slice. *)
Section Groups.
Context {F : Type}.

(** The pairs [(user_name, gift_name)] that occur in a log. *)
Definition gift_groups (log : list (GiftEvent F)) : gset (string * string) :=
  list_to_set ((λ g, (user_name g, gift_name g)) <$> log).


End Groups.

(** ** Invariants of the database and of the registry *)

Section Invariants.
Context {F : Type} `{PyFloat F} `{PyHash}.

(** The database a [start_session] works on once the stale session, if
    any, is closed. *)
Definition stale_closed (now : F) (room_id : Z) (d : Database F) : Database F :=
  match SessionStore.select_open room_id d with
  | Some r => SessionStore.update_force_close now (sessions.id r) d
  | None => d
  end.

(** The session id of the aggregate registered for a room, if any. *)
Definition active_id (room_id : Z) (st : State F) : option (Z * SessionStats F) :=
  match active_sessions st !! room_id with
  | Some stats =>
      match session_id stats with
      | Some sid => Some (sid, stats)
      | None => None
      end
  | None => None
  end.

(** The open sessions of a room. *)
Definition open_rows (room_id : Z) (d : Database F) : list (sessions.row F) :=
  filter (λ r, SessionStore.open_for room_id r) (sessions_rows d).

Definition one_open (d : Database F) : Prop :=
  ∀ room_id, (length (open_rows room_id d) ≤ 1)%nat.

(** Ids are unique and none is beyond the last one handed out. *)
Definition ids_ok (d : Database F) : Prop :=
  NoDup (sessions.id <$> sessions_rows d) ∧
  ∀ r, r ∈ sessions_rows d → sessions.id r ≤ sessions_seq d.

(** An open session still has the columns it was inserted with. *)
Definition open_defaults (d : Database F) : Prop :=
  ∀ r, r ∈ sessions_rows d → sessions.end_time r = None →
    r = SessionStore.new_session_row
          (sessions.id r) (sessions.room_id r) (sessions.start_time r).

(** A registered aggregate carries the id of a session of its room. *)
Definition active_ok (d : Database F) (a : gmap Z (SessionStats F)) : Prop :=
  ∀ room_id s, a !! room_id = Some s →
    ∃ r, r ∈ sessions_rows d ∧ session_id s = Some (sessions.id r) ∧
         sessions.room_id r = room_id.

Definition inv (d : Database F) (a : gmap Z (SessionStats F)) : Prop :=
  one_open d ∧ ids_ok d ∧ open_defaults d ∧ active_ok d a.

(** The invariant holds of the tables the connection sees and of the
    tables as committed. *)
Definition invariant (st : State F) : Prop :=
  inv (db st) (active_sessions st) ∧ inv (committed st) (active_sessions st).

(** Every aggregate of [a'] is one of [a], as it was or after one more
    [add_gift]: what a call does to the registry unless it registers a
    new session. *)
Definition registry_step (a a' : gmap Z (SessionStats F)) : Prop :=
  ∀ room s', a' !! room = Some s' →
    ∃ s, a !! room = Some s ∧
      (s' = s ∨ ∃ e, s' = snd (SessionStats.add_gift e s)).

(** An [UPDATE ... WHERE id = ?] that sets [end_time]. *)
Definition closes (c : sessions.row F → sessions.row F) : Prop :=
  ∀ r, sessions.id (c r) = sessions.id r ∧
       sessions.room_id (c r) = sessions.room_id r ∧
       sessions.end_time (c r) ≠ None.

Definition update_where_id (c : sessions.row F → sessions.row F) (id : Z)
    (d : Database F) : Database F :=
  {| sessions_rows :=
       (λ r, if decide (sessions.id r = id) then c r else r) <$> sessions_rows d;
     gifts_rows := gifts_rows d;
     sessions_seq := sessions_seq d;
     gifts_seq := gifts_seq d |}.

(** A committed row with a closed session, to which no registered
    aggregate points. *)
Definition settled (r0 : sessions.row F) (st : State F) : Prop :=
  r0 ∈ sessions_rows (db st) ∧ r0 ∈ sessions_rows (committed st) ∧
  sessions.end_time r0 ≠ None ∧
  ∀ room s, active_sessions st !! room = Some s →
    session_id s ≠ Some (sessions.id r0).

End Invariants.

(** ** The ledger: aggregates, gift rows and sessions *)

Section Ledger.
Context {F : Type} `{PyFloat F} `{PyHash}.

(** The event a row of [gifts] records. *)
Definition event_of_row (g : gifts_table.row F) : GiftEvent F :=
  {| timestamp := gifts_table.timestamp g;
     user_name := gifts_table.user_name g;
     user_id := gifts_table.user_id g;
     gift_id := gifts_table.gift_id g;
     gift_name := gifts_table.gift_name g;
     gift_count := gifts_table.gift_count g;
     gift_value := gifts_table.gift_value g |}.

(** The events the table [gifts] holds for a session, in rowid order. *)
Definition recorded (sid : Z) (d : Database F) : list (GiftEvent F) :=
  event_of_row <$> filter (λ g, gifts_table.session_id g = sid) (gifts_rows d).

(** [r'] is the row [r] at a later time: the same session of the same
    room with the same start, and closed if [r] was. *)
Definition same_session (r r' : sessions.row F) : Prop :=
  sessions.id r' = sessions.id r ∧
  sessions.room_id r' = sessions.room_id r ∧
  sessions.start_time r' = sessions.start_time r ∧
  (sessions.end_time r ≠ None → sessions.end_time r' ≠ None).

(** [d'] holds the rows of [d], each session in its place and each gift
    as it was, and possibly more after them. *)
Definition grows (d d' : Database F) : Prop :=
  (∀ i r, sessions_rows d !! i = Some r →
     ∃ r', sessions_rows d' !! i = Some r' ∧ same_session r r') ∧
  gifts_rows d `prefix_of` gifts_rows d' ∧
  sessions_seq d ≤ sessions_seq d' ∧ gifts_seq d ≤ gifts_seq d'.

(** The aggregate [s] registered for [room] is the aggregate of a new
    session of a row of the room with the events of its log added, and
    the events recorded for the session are among those of the log, in
    the order of the log. *)
Definition aggregate_ok (d : Database F) (room : Z) (s : SessionStats F) : Prop :=
  ∃ r, r ∈ sessions_rows d ∧ sessions.room_id r = room ∧
    s = add_gifts (gifts s)
          (SessionStats.new (Some (sessions.id r)) room (sessions.start_time r)) ∧
    recorded (sessions.id r) d `sublist_of` gifts s.

Definition ledger (d : Database F) (a : gmap Z (SessionStats F)) : Prop :=
  ∀ room s, a !! room = Some s → aggregate_ok d room s.

(** The ids of the gift rows are unique and none is beyond the last one
    handed out; every gift row names a session of the table [sessions]. *)
Definition gifts_ok (d : Database F) : Prop :=
  NoDup (gifts_table.id <$> gifts_rows d) ∧
  (∀ g, g ∈ gifts_rows d → gifts_table.id g ≤ gifts_seq d) ∧
  ∀ g, g ∈ gifts_rows d →
    ∃ r, r ∈ sessions_rows d ∧ sessions.id r = gifts_table.session_id g.

(** A session without a summary has the totals it was inserted with. *)
Definition unsummarised_zero (d : Database F) : Prop :=
  ∀ r, r ∈ sessions_rows d → sessions.summary_json r = None →
    sessions.total_gift_count r = 0 ∧
    sessions.total_gift_value r = Some (f_of_int 0) ∧
    sessions.gift_user_count r = 0.

(** The three together. *)
Definition books_of (d : Database F) (a : gmap Z (SessionStats F)) : Prop :=
  ledger d a ∧ gifts_ok d ∧ unsummarised_zero d.

(** They hold of the tables the connection sees and of the tables as
    committed, and the former extend the latter. *)
Definition books (st : State F) : Prop :=
  books_of (db st) (active_sessions st) ∧
  books_of (committed st) (active_sessions st) ∧
  grows (committed st) (db st).

(** A closed session lasted from its start to its end. *)
Definition durations_ok (d : Database F) : Prop :=
  ∀ r t, r ∈ sessions_rows d → sessions.end_time r = Some t →
    sessions.duration r = f_sub t (sessions.start_time r).

(** The events of a log whose count converts to float: those whose
    [add_gift] returned. *)
Definition valued (log : list (GiftEvent F)) : list (GiftEvent F) :=
  filter (λ g, f_int_ok (gift_count g) = true) log.



(** No failure is to come and nothing is left uncommitted. *)
Definition steady (st : State F) : Prop :=
  io_faults st = [] ∧ committed st = db st.


(** The store is steady and every registered aggregate is the aggregate
    of an open session of its room. *)
Definition live_open (st : State F) : Prop :=
  steady st ∧
  ∀ room s, active_sessions st !! room = Some s →
    ∃ r, r ∈ sessions_rows (db st) ∧ session_id s = Some (sessions.id r) ∧
         sessions.room_id r = room ∧ sessions.end_time r = None.

End Ledger.

(** ** A run on IEEE doubles *)

Section Room42.
Import PrimFloat.
#[local] Existing Instance elements_order.

Definition alice_rose : GiftEvent PrimFloat.float :=
  event_of 1001%float "Alice" "u1" "g1" "Rose" 3 1.0%float.

Definition bob_rocket : GiftEvent PrimFloat.float :=
  event_of 1002%float "Bob" "u2" "g2" "Rocket" 1 50.0%float.

(** The aggregate of session 1 with the two gifts. *)
Definition two_gifts : SessionStats PrimFloat.float :=
  add_gifts [alice_rose; bob_rocket] (SessionStats.new (Some 1) 42 1000%float).

(** The store after each call of the run, with no failure on the way. *)
Definition booted : State PrimFloat.float := after Init (blank []).

Definition live : State PrimFloat.float := after (StartSession 1000%float 42) booted.

Definition gifted : State PrimFloat.float :=
  after (AddGift 1002%float 42 "Bob" "u2" "g2" "Rocket" 1 50.0%float)
    (after (AddGift 1001%float 42 "Alice" "u1" "g1" "Rose" 3 1.0%float) live).

Definition ended : State PrimFloat.float := after (EndSession 2000%float 42) gifted.


(** The second [start_session] of room 42, over the session with the two
    gifts. *)
Definition restarted : State PrimFloat.float :=
  after (StartSession 3000%float 42) gifted.

(** The history of room 42 after the run, and the entry of session 1. *)
Definition history_42 : list (history.entry PrimFloat.float) :=
  SessionStore.entry_of_row <$> SessionStore.select_history 42 10 (db ended).

(** A gift whose count is beyond the double range. *)
Definition huge_gift : GiftEvent PrimFloat.float :=
  event_of 1003%float "Carol" "u3" "g3" "Star" (2 ^ 1024) 1.0%float.

(** The run with the two gifts on a store whose sixteenth call into
    SQLite fails: the [INSERT] of a second [start_session]. *)
Definition gifted_then_failing : State PrimFloat.float :=
  after (AddGift 1002%float 42 "Bob" "u2" "g2" "Rocket" 1 50.0%float)
    (after (AddGift 1001%float 42 "Alice" "u1" "g1" "Rose" 3 1.0%float)
       (after (StartSession 1000%float 42)
          (after Init (blank (replicate 15 false ++ [true]))))).

End Room42.

Section Room42Run.
Import PrimFloat.
#[local] Existing Instance elements_order.

(** The calls that lead to [gifted]. *)
Definition run_42 : list (@call PrimFloat.float) :=
  [Init; StartSession 1000%float 42;
   AddGift 1001%float 42 "Alice" "u1" "g1" "Rose" 3 1.0%float;
   AddGift 1002%float 42 "Bob" "u2" "g2" "Rocket" 1 50.0%float].

End Room42Run.


(** ** Facts about the built-ins *)

Lemma weak_order_on_sub {K : Type} (lt : K → K → bool) (ks ks' : list K) :
  (∀ a, a ∈ ks' → a ∈ ks) → weak_order_on lt ks → weak_order_on lt ks'.
Proof. intros Hsub Hw a b c Ha Hb Hc. apply Hw; auto. Qed.


Lemma tie_Z (a b : Z) : tie Z.ltb a b = true ↔ a = b.
Proof.
  unfold tie. rewrite andb_true_iff, !negb_true_iff, !Z.ltb_ge. lia.
Qed.

(** *** Doubles are ordered, NaN apart *)

Section Doubles.
Import SpecFloat.

Ltac order_cases :=
  repeat match goal with
  | |- context [Pos.compare_cont Eq ?a ?b] =>
      change (Pos.compare_cont Eq a b) with (Pos.compare a b)
  | |- context [Z.compare ?a ?b] => destruct (Z.compare_spec a b)
  | |- context [Pos.compare ?a ?b] => destruct (Pos.compare_spec a b)
  end.

Lemma SFltb_asym (x y : spec_float) : SFltb x y = true → SFltb y x = false.
Proof.
  unfold SFltb.
  destruct x as [[]|[]| |[] mx ex], y as [[]|[]| |[] my ey]; cbn; try done;
    order_cases; cbn; try done; lia.
Qed.

Lemma SFltb_neg_trans (x y z : spec_float) :
  y ≠ S754_nan → SFltb x y = false → SFltb y z = false → SFltb x z = false.
Proof.
  unfold SFltb. intros Hy.
  destruct x as [[]|[]| |[] mx ex], y as [[]|[]| |[] my ey],
           z as [[]|[]| |[] mz ez]; cbn; try done;
    order_cases; cbn; try done; lia.
Qed.

Lemma not_nan_spec (x : PrimFloat.float) :
  PrimFloat.is_nan x = false → FloatOps.Prim2SF x ≠ S754_nan.
Proof.
  unfold PrimFloat.is_nan. rewrite FloatAxioms.eqb_spec. intros Hx Hnan.
  rewrite Hnan in Hx. discriminate.
Qed.

(** On doubles [<] is a strict weak order on every list without NaN. *)
Lemma binary64_weak_order (ks : list PrimFloat.float) :
  (∀ x, x ∈ ks → PrimFloat.is_nan x = false) → weak_order_on f_ltb ks.
Proof.
  intros Hks a b c Ha Hb Hc. cbn [f_ltb binary64].
  rewrite !FloatAxioms.ltb_spec. split.
  - apply SFltb_asym.
  - apply SFltb_neg_trans, not_nan_spec, Hks, Hb.
Qed.

End Doubles.

(** The sign of a difference of doubles. *)
Section SubSign.
Import SpecFloat.
Context (prec emax : Z).

Lemma digits2_pos_bounds (p : positive) :
  (2 ^ (Zpos (digits2_pos p) - 1)) ≤ Zpos p ∧ Zpos p < (2 ^ Zpos (digits2_pos p)).
Proof.
  induction p as [p IH|p IH|]; cbn [digits2_pos]; [| |cbn; lia].
  all: rewrite Pos2Z.inj_succ;
    replace (Z.succ (Zpos (digits2_pos p)) - 1) with (Zpos (digits2_pos p)) by lia;
    rewrite Z.pow_succ_r by lia;
    replace (2 ^ Zpos (digits2_pos p))
      with (2 * 2 ^ (Zpos (digits2_pos p) - 1)) in *
      by (rewrite <- Z.pow_succ_r by lia; f_equal; lia);
    lia.
Qed.

(** A sum rounded with the sign [false] is not below zero. *)
Lemma binary_round_not_below (m : positive) (e : Z) :
  SFltb (binary_round prec emax false m e) (S754_zero false) = false.
Proof.
  unfold binary_round, binary_round_aux.
  destruct (shl_align _ _ _) as [mz ez].
  destruct (shr_fexp _ _ _ _ _) as [mrs e'].
  destruct (shr_fexp _ _ _ _ _) as [mrs' e''].
  destruct (shr_m mrs') as [|p|p]; [done| |done].
  by destruct (_ <=? _).
Qed.

Lemma binary_normalize_not_below (m e : Z) :
  0 ≤ m → SFltb (binary_normalize prec emax m e false) (S754_zero false) = false.
Proof.
  intros Hm. destruct m as [|p|p]; [done|apply binary_round_not_below|lia].
Qed.

Lemma shl_align_value (m : positive) (e e' : Z) :
  e' ≤ e → Zpos (fst (shl_align m e e')) = Zpos m * 2 ^ (e - e').
Proof.
  intros He. unfold shl_align. destruct (e' - e) as [|d|d] eqn:Hd; cbn [fst].
  - replace (e - e') with 0 by lia. lia.
  - lia.
  - replace (e - e') with (Zpos d) by lia.
    change (Pos.iter xO m d) with (shift_pos d m).
    rewrite shift_pos_correct, Zpower_pos_nat, Zpower_nat_Z, positive_nat_Z. lia.
Qed.

Lemma bounded_digits (m : positive) (e : Z) :
  bounded prec emax m e = true →
  emin prec emax ≤ e ∧ Zpos (digits2_pos m) ≤ prec ∧
  (emin prec emax < e → Zpos (digits2_pos m) = prec).
Proof.
  unfold bounded, canonical_mantissa, fexp.
  intros [Hc _]%andb_true_iff. apply Z.eqb_eq in Hc. lia.
Qed.

(** The larger of two valid numbers with the larger exponent. *)
Lemma above_by_exponent (m1 m2 : positive) (e1 e2 : Z) :
  0 < prec →
  bounded prec emax m1 e1 = true → bounded prec emax m2 e2 = true → e2 < e1 →
  (Zpos m2 * 2 ^ (e2 - e2)) ≤ (Zpos m1 * 2 ^ (e1 - e2)).
Proof.
  intros Hprec (Hmin1 & Hd1 & Hn1)%bounded_digits (Hmin2 & Hd2 & _)%bounded_digits
    Hlt.
  rewrite Z.sub_diag, Z.pow_0_r, Z.mul_1_r.
  pose proof (digits2_pos_bounds m1) as [Hlo _].
  pose proof (digits2_pos_bounds m2) as [_ Hhi].
  rewrite Hn1 in Hlo by lia.
  assert (H2 : (2 ^ Zpos (digits2_pos m2)) ≤ (2 ^ prec))
    by (apply Z.pow_le_mono_r; lia).
  assert (H3 : (2 ^ 1) ≤ (2 ^ (e1 - e2))) by (apply Z.pow_le_mono_r; lia).
  assert (H4 : 2 ^ prec = 2 ^ (prec - 1) * 2 ^ 1)
    by (rewrite <- Z.pow_add_r by lia; f_equal; lia).
  assert (H5 : 0 < 2 ^ (prec - 1)) by (apply Z.pow_pos_nonneg; lia).
  nia.
Qed.

Lemma SFsub_not_below (x y : spec_float) :
  0 < prec →
  valid_binary prec emax x = true → valid_binary prec emax y = true →
  SFltb x y = false →
  SFltb (SFsub prec emax x y) (S754_zero false) = false.
Proof.
  intros Hprec Hx Hy.
  destruct x as [sx|sx| |sx mx ex], y as [sy|sy| |sy my ey];
    try done; try (by destruct sx); try (by destruct sy); try (by destruct sx, sy).
  unfold SFltb, SFcompare, SFsub. cbn [valid_binary] in Hx, Hy.
  intros Hcmp. apply binary_normalize_not_below.
  destruct sx, sy; cbn [cond_Zopp]; try done.
  - destruct (Z.compare_spec ex ey) as [->|Hlt|Hgt]; [| |done].
    + rewrite Z.min_id, !shl_align_value by lia.
      rewrite Z.sub_diag, Z.pow_0_r.
      change (Pos.compare_cont Eq mx my) with (Pos.compare mx my) in Hcmp.
      destruct (Pos.compare_spec mx my); try done; lia.
    + rewrite Z.min_l, !shl_align_value by lia.
      pose proof (above_by_exponent my mx ey ex Hprec Hy Hx Hlt). lia.
  - destruct (Z.compare_spec ex ey) as [->|Hlt|Hgt]; [|done|].
    + rewrite Z.min_id, !shl_align_value by lia.
      rewrite Z.sub_diag, Z.pow_0_r.
      change (Pos.compare_cont Eq mx my) with (Pos.compare mx my) in Hcmp.
      destruct (Pos.compare_spec mx my); try done; lia.
    + rewrite Z.min_r, !shl_align_value by lia.
      pose proof (above_by_exponent mx my ex ey Hprec Hx Hy Hgt). lia.
Qed.

End SubSign.

(** On doubles, [a - b] is not below zero when [a] is not below [b]. *)
Lemma binary64_sub_not_below (a b : PrimFloat.float) :
  PrimFloat.ltb a b = false →
  PrimFloat.ltb (PrimFloat.sub a b) PrimFloat.zero = false.
Proof.
  rewrite !FloatAxioms.ltb_spec, FloatAxioms.sub_spec. intros Hab.
  change (FloatOps.Prim2SF PrimFloat.zero) with (SpecFloat.S754_zero false).
  apply SFsub_not_below; [done|apply FloatAxioms.Prim2SF_valid..|done].
Qed.

Section SortedFacts.
Context {A K : Type} (lt : K → K → bool) (key : A → K).

Lemma insert_desc_perm (x : A) (l : list A) : insert_desc lt key x l ≡ₚ x :: l.
Proof.
  induction l as [|y l IH]; simpl; [done|].
  destruct (lt (key x) (key y)); [|done].
  rewrite IH. apply Permutation_swap.
Qed.

Lemma sorted_desc_perm (l : list A) : sorted_desc lt key l ≡ₚ l.
Proof.
  induction l as [|x l IH]; simpl; [done|].
  rewrite insert_desc_perm. by rewrite IH.
Qed.

Lemma sorted_desc_length (l : list A) : length (sorted_desc lt key l) = length l.
Proof. by rewrite sorted_desc_perm. Qed.

Lemma insert_desc_sorted (x : A) (l : list A) :
  weak_order_on lt (key <$> x :: l) →
  StronglySorted (not_below lt key) l → StronglySorted (not_below lt key) (insert_desc lt key x l).
Proof.
  induction l as [|y l IH]; intros Hw Hs; simpl.
  - repeat constructor.
  - apply StronglySorted_inv in Hs as [Hl Hy].
    assert (Hkx : key x ∈ key <$> x :: y :: l) by (rewrite fmap_cons; left).
    assert (Hky : key y ∈ key <$> x :: y :: l)
      by (rewrite !fmap_cons; right; left).
    destruct (lt (key x) (key y)) eqn:Hxy.
    + constructor.
      * apply IH; [|done]. eapply weak_order_on_sub; [|exact Hw].
        intros a. rewrite !fmap_cons, !elem_of_cons. tauto.
      * rewrite insert_desc_perm. constructor; [|done].
        by apply (Hw (key x) (key y) (key x)).
    + constructor; [by constructor|].
      constructor; [done|].
      rewrite Forall_forall in Hy |- *. intros z Hz.
      assert (Hkz : key z ∈ key <$> x :: y :: l).
      { rewrite !fmap_cons. right. right. by apply list_elem_of_fmap_2. }
      apply (Hw (key x) (key y) (key z)); auto. by apply Hy.
Qed.

Lemma sorted_desc_sorted (l : list A) :
  weak_order_on lt (key <$> l) → StronglySorted (not_below lt key) (sorted_desc lt key l).
Proof.
  induction l as [|x l IH]; intros Hw; simpl; [constructor|].
  apply insert_desc_sorted.
  - eapply weak_order_on_sub; [|exact Hw].
    intros a. rewrite !fmap_cons, !elem_of_cons, !list_elem_of_fmap.
    intros [->|(z & -> & Hz)]; [by left|].
    right. exists z. split; [done|]. by rewrite <- (sorted_desc_perm l).
  - apply IH. eapply weak_order_on_sub; [|exact Hw].
    intros a. rewrite !fmap_cons, !elem_of_cons. tauto.
Qed.



End SortedFacts.

Lemma slice_to_nonneg {A : Type} (limit : Z) (l : list A) :
  0 ≤ limit → slice_to limit l = take (Z.to_nat limit) l.
Proof. intros Hl. unfold slice_to. by rewrite (proj2 (Z.leb_le 0 limit) Hl). Qed.

Lemma slice_to_prefix {A : Type} (limit : Z) (l : list A) :
  slice_to limit l `prefix_of` l.
Proof. unfold slice_to. destruct (0 <=? limit); apply prefix_take. Qed.

Lemma slice_to_length {A : Type} (limit : Z) (l : list A) :
  0 ≤ limit → Z.of_nat (length (slice_to limit l)) ≤ limit.
Proof. intros Hl. rewrite slice_to_nonneg, length_take by done. lia. Qed.

Lemma filter_none {A : Type} (P : A → Prop) `{∀ x, Decision (P x)} (l : list A) :
  (∀ x, x ∈ l → ¬ P x) → filter P l = [].
Proof.
  induction l as [|a l IH]; intros Hn; [done|].
  rewrite filter_cons_False by (apply Hn, list_elem_of_here).
  apply IH. intros x Hx. by apply Hn, list_elem_of_further.
Qed.

Section FirstSeen.
Context {K : Type} `{EqDecision K}.

Lemma elem_of_first_seen (k : K) (ks : list K) : k ∈ first_seen ks ↔ k ∈ ks.
Proof.
  induction ks as [|a ks IH]; simpl; [done|].
  rewrite !elem_of_cons, list_elem_of_filter, IH.
  destruct (decide (k = a)); tauto.
Qed.

Lemma NoDup_first_seen (ks : list K) : NoDup (first_seen ks).
Proof.
  induction ks as [|a ks IH]; simpl; constructor.
  - rewrite list_elem_of_filter. intros [Hne _]. by apply Hne.
  - by apply NoDup_filter.
Qed.

Lemma first_seen_snoc (ks : list K) (k : K) :
  first_seen (ks ++ [k])
  = if decide (k ∈ ks) then first_seen ks else first_seen ks ++ [k].
Proof.
  induction ks as [|a ks IH]; simpl.
  - by rewrite filter_nil.
  - rewrite IH. destruct (decide (k ∈ ks)) as [Hin|Hin].
    + by rewrite decide_True by (by apply list_elem_of_further).
    + rewrite filter_app, filter_cons, filter_nil.
      destruct (decide (k = a)) as [->|Hne].
      * rewrite (decide_False (P := a ≠ a)) by naive_solver.
        rewrite decide_True by apply list_elem_of_here.
        by rewrite app_nil_r.
      * rewrite (decide_True (P := k ≠ a)) by done.
        rewrite decide_False by (rewrite elem_of_cons; tauto). done.
Qed.

End FirstSeen.

Section DictFacts.
Context {K V : Type} `{EqDecision K}.

Lemma dict_get_table (f : K → V) (ks : list K) (k : K) (default : V) :
  dict_get ((λ k', (k', f k')) <$> ks) k default
  = if decide (k ∈ ks) then f k else default.
Proof.
  induction ks as [|a ks IH]; cbn [dict_get fmap list_fmap].
  - by rewrite decide_False by apply not_elem_of_nil.
  - destruct (decide (a = k)) as [->|Hne].
    + by rewrite decide_True by apply list_elem_of_here.
    + rewrite IH. destruct (decide (k ∈ ks)).
      * by rewrite decide_True by (by apply list_elem_of_further).
      * rewrite decide_False; [done|]. rewrite elem_of_cons.
        intros [->|Hin]; [by apply Hne|done].
Qed.

Lemma dict_set_table_new (f : K → V) (ks : list K) (k : K) (v : V) :
  k ∉ ks →
  dict_set ((λ k', (k', f k')) <$> ks) k v = ((λ k', (k', f k')) <$> ks) ++ [(k, v)].
Proof.
  induction ks as [|a ks IH]; cbn [dict_set fmap list_fmap app]; [done|].
  rewrite not_elem_of_cons. intros [Hne Hin].
  rewrite decide_False by done. by rewrite IH.
Qed.

Lemma dict_set_table_old (f : K → V) (ks : list K) (k : K) (v : V) :
  k ∈ ks → NoDup ks →
  dict_set ((λ k', (k', f k')) <$> ks) k v
  = (λ k', (k', if decide (k' = k) then v else f k')) <$> ks.
Proof.
  induction ks as [|a ks IH]; cbn [dict_set fmap list_fmap];
    [by intros ?%elem_of_nil|].
  intros Hin Hnd. apply NoDup_cons in Hnd as [Ha Hnd].
  destruct (decide (a = k)) as [->|Hne].
  - f_equal. apply list_fmap_ext. intros i k' Hk'.
    rewrite decide_False; [done|]. intros ->.
    apply Ha. by eapply list_elem_of_lookup_2.
  - f_equal. apply IH; [|done].
    apply elem_of_cons in Hin as [->|Hin]; [by destruct Hne|done].
Qed.

End DictFacts.

Section GroupByFacts.
Context {E K V : Type} `{EqDecision K}.
Context (key : E → K) (add : V → E → V) (zero : V).

Lemma group_total_snoc (k : K) (log : list E) (g : E) :
  group_total key add zero k (log ++ [g])
  = if decide (key g = k) then add (group_total key add zero k log) g
    else group_total key add zero k log.
Proof.
  unfold group_total. rewrite filter_app, filter_cons, filter_nil.
  destruct (decide (key g = k)).
  - by rewrite foldl_app.
  - by rewrite app_nil_r.
Qed.

(** One turn of the aggregation loop takes the groups of [log] to the
    groups of [log ++ [g]]. *)
Lemma group_by_snoc (log : list E) (g : E) :
  group_by key add zero (log ++ [g])
  = dict_set (group_by key add zero log) (key g)
      (add (dict_get (group_by key add zero log) (key g) zero) g).
Proof.
  unfold group_by. rewrite fmap_app. simpl. rewrite first_seen_snoc.
  rewrite dict_get_table.
  destruct (decide (key g ∈ key <$> log)) as [Hin|Hin].
  - rewrite decide_True by (by apply elem_of_first_seen).
    rewrite dict_set_table_old;
      [|by apply elem_of_first_seen|apply NoDup_first_seen].
    apply list_fmap_ext. intros i k Hk. f_equal.
    rewrite group_total_snoc.
    destruct (decide (key g = k)) as [->|Hne].
    + by rewrite decide_True.
    + by rewrite decide_False by done.
  - rewrite decide_False by (by rewrite elem_of_first_seen).
    rewrite dict_set_table_new by (by rewrite elem_of_first_seen).
    rewrite fmap_app. simpl. f_equal.
    + apply list_fmap_ext. intros i k Hk. f_equal.
      rewrite group_total_snoc, decide_False; [done|].
      intros <-. apply Hin. apply elem_of_first_seen.
      by eapply list_elem_of_lookup_2.
    + rewrite group_total_snoc, decide_True by done.
      do 3 f_equal. unfold group_total.
      rewrite filter_none; [done|].
      intros e He Hke. apply Hin.
      rewrite <- Hke. by apply list_elem_of_fmap_2.
Qed.

End GroupByFacts.

Lemma weak_order_onb_sound {K : Type} (lt : K → K → bool) (ks : list K) :
  weak_order_onb lt ks = true → weak_order_on lt ks.
Proof.
  unfold weak_order_onb. rewrite forallb_forall. intros Hall a b c Ha Hb Hc.
  apply list_elem_of_In in Ha, Hb, Hc.
  specialize (Hall a Ha). rewrite forallb_forall in Hall.
  specialize (Hall b Hb). rewrite forallb_forall in Hall.
  specialize (Hall c Hc).
  destruct (lt a b), (lt b a), (lt b c), (lt a c); simpl in Hall;
    split; intros; congruence.
Qed.

(** ** The aggregate and the ranking views *)


(** A ranking is determined by the groups: whatever stable sort ranks
    them returns the list [sorted_desc] returns. *)
Lemma ranked_agree {A K : Type} (lt : K → K → bool) (key : A → K)
    (r1 r2 : list A) :
  weak_order_on lt (key <$> r1) →
  StronglySorted (not_below lt key) r1 → StronglySorted (not_below lt key) r2 →
  r1 ≡ₚ r2 →
  (∀ e, e ∈ r1 → filter (λ y, tie lt (key y) (key e)) r1
                 = filter (λ y, tie lt (key y) (key e)) r2) →
  r1 = r2.
Proof.
  revert r2. induction r1 as [|x r1 IH]; intros r2 Hw Hs1 Hs2 Hperm Hstable.
  - by apply Permutation_nil_l in Hperm.
  - destruct r2 as [|y r2]; [by apply Permutation_nil_r in Hperm|].
    apply StronglySorted_inv in Hs1 as [Hs1 Hx].
    apply StronglySorted_inv in Hs2 as [Hs2 Hy].
    rewrite Forall_forall in Hx, Hy.
    assert (Hkx : key x ∈ key <$> x :: r1) by (rewrite fmap_cons; left).
    assert (Hirr : ∀ a, a ∈ x :: r1 → lt (key a) (key a) = false).
    { intros a Ha. apply (list_elem_of_fmap_2 key) in Ha.
      destruct (Hw (key a) (key a) (key a) Ha Ha Ha) as [Hasym _].
      destruct (lt (key a) (key a)); auto. }
    assert (Hyin : y ∈ x :: r1) by (rewrite Hperm; left).
    assert (Hxin : x ∈ y :: r2) by (rewrite <- Hperm; left).
    assert (Hxy : lt (key x) (key y) = false).
    { apply elem_of_cons in Hyin as [->|Hyin]; [apply Hirr; left|by apply Hx]. }
    assert (Hyx : lt (key y) (key x) = false).
    { apply elem_of_cons in Hxin as [->|Hxin]; [apply Hirr; by left|by apply Hy]. }
    assert (Hhead : filter (λ z, tie lt (key z) (key x)) (x :: r1)
                    = filter (λ z, tie lt (key z) (key x)) (y :: r2))
      by (apply Hstable; left).
    rewrite !filter_cons in Hhead.
    rewrite decide_True in Hhead
      by (unfold tie; rewrite Hirr by left; done).
    rewrite decide_True in Hhead by (unfold tie; by rewrite Hyx, Hxy).
    injection Hhead as -> _.
    f_equal. apply IH; auto.
    + eapply weak_order_on_sub; [|exact Hw].
      intros a. rewrite fmap_cons. by right.
    + by apply Permutation_cons_inv in Hperm.
    + intros e He.
      assert (He' : e ∈ y :: r1) by by right.
      specialize (Hstable e He'). rewrite !filter_cons in Hstable.
      destruct (decide (tie lt (key y) (key e))); [|done].
      by injection Hstable.
Qed.

Lemma ranking_unique {A K : Type} (lt : K → K → bool) (key : A → K)
    (groups r1 r2 : list A) :
  weak_order_on lt (key <$> groups) →
  ranking lt key groups r1 → ranking lt key groups r2 → r1 = r2.
Proof.
  intros Hw (Hp1 & Hs1 & Hst1) (Hp2 & Hs2 & Hst2).
  apply (ranked_agree lt key); auto.
  - eapply weak_order_on_sub; [|exact Hw]. intros a. by rewrite Hp1.
  - by rewrite Hp1, Hp2.
  - intros e He. rewrite Hp1 in He. by rewrite Hst1, Hst2.
Qed.

Lemma sorted_desc_fmap {A B K : Type} (lt : K → K → bool) (key : B → K)
    (f : A → B) (l : list A) :
  f <$> sorted_desc lt (key ∘ f) l = sorted_desc lt key (f <$> l).
Proof.
  induction l as [|x l IH]; [done|].
  cbn [sorted_desc foldr fmap list_fmap]. fold (sorted_desc lt (key ∘ f) l).
  fold (sorted_desc lt key (f <$> l)). rewrite <- IH.
  generalize (sorted_desc lt (key ∘ f) l). intros s.
  induction s as [|y s IHs]; [done|].
  cbn [insert_desc fmap list_fmap]. unfold compose at 1 2.
  destruct (lt (key (f x)) (key (f y))); [|done].
  cbn [fmap list_fmap]. by rewrite IHs.
Qed.

Section Views.
Context {F : Type} `{PyFloat F} `{PyHash}.

Lemma aggregate_group_by {K V : Type} `{EqDecision K}
    (key : GiftEvent F → K) (add : V → GiftEvent F → V) (zero : V)
    (log : list (GiftEvent F)) :
  SessionStats.aggregate key add zero log = group_by key add zero log.
Proof.
  induction log as [|g log IH] using rev_ind; [done|].
  unfold SessionStats.aggregate in *. rewrite foldl_app. cbn [foldl].
  rewrite IH. symmetry. apply group_by_snoc.
Qed.

Lemma foldl_count_sum (l : list (GiftEvent F)) (n : Z) :
  foldl (λ n g, n + gift_count g) n l = n + sum_Z (gift_count <$> l).
Proof.
  revert n. induction l as [|g l IH]; intros n; cbn [foldl fmap list_fmap sum_Z foldr].
  - lia.
  - rewrite IH. unfold sum_Z. lia.
Qed.

Lemma foldl_value_sum (l : list (GiftEvent F)) (x : F) :
  foldl (λ x g, f_add x (SessionStats.event_value g)) x l
  = foldl f_add x (SessionStats.event_value <$> l).
Proof.
  revert x. induction l as [|g l IH]; intros x; [done|].
  cbn [foldl fmap list_fmap]. apply IH.
Qed.

Lemma valued_cons (e : GiftEvent F) (events : list (GiftEvent F)) :
  valued (e :: events)
  = if f_int_ok (gift_count e) then e :: valued events else valued events.
Proof.
  unfold valued. rewrite filter_cons.
  destruct (f_int_ok (gift_count e)); by destruct (decide _).
Qed.

Lemma valued_all (events : list (GiftEvent F)) :
  forallb (λ g, f_int_ok (gift_count g)) events = true → valued events = events.
Proof.
  induction events as [|e events IH]; [done|]. cbn [forallb].
  intros [He Hall]%andb_true_iff. rewrite valued_cons, He. by rewrite IH.
Qed.

Lemma valued_app (l1 l2 : list (GiftEvent F)) :
  valued (l1 ++ l2) = valued l1 ++ valued l2.
Proof. apply filter_app. Qed.

(** The object [add_gift] leaves, field by field. *)
Lemma add_gift_fields (e : GiftEvent F) (s : SessionStats F) :
  let s' := snd (SessionStats.add_gift e s) in
  gifts s' = gifts s ++ [e] ∧
  total_gift_count s' = total_gift_count s + gift_count e ∧
  total_gift_value s'
  = (if f_int_ok (gift_count e)
     then f_add (total_gift_value s) (SessionStats.event_value e)
     else total_gift_value s) ∧
  session_id s' = session_id s ∧ room_id s' = room_id s ∧
  start_time s' = start_time s ∧ gift_user_count s' = gift_user_count s.
Proof.
  unfold SessionStats.add_gift. cbn zeta.
  destruct (f_int_ok (gift_count e)); cbn; done.
Qed.

Lemma add_gift_outcome (e : GiftEvent F) (s : SessionStats F) :
  fst (SessionStats.add_gift e s)
  = if f_int_ok (gift_count e) then Returned tt else Raised OverflowError.
Proof.
  unfold SessionStats.add_gift. cbn zeta. by destruct (f_int_ok (gift_count e)).
Qed.

Lemma add_gifts_snoc (events : list (GiftEvent F)) (e : GiftEvent F)
    (self : SessionStats F) :
  add_gifts (events ++ [e]) self = snd (SessionStats.add_gift e (add_gifts events self)).
Proof. unfold add_gifts. by rewrite foldl_app. Qed.

Lemma add_gifts_from (events : list (GiftEvent F)) (self : SessionStats F) :
  gifts (add_gifts events self) = gifts self ++ events ∧
  total_gift_count (add_gifts events self)
  = total_gift_count self + sum_Z (gift_count <$> events) ∧
  total_gift_value (add_gifts events self)
  = foldl f_add (total_gift_value self) (SessionStats.event_value <$> valued events) ∧
  session_id (add_gifts events self) = session_id self ∧
  room_id (add_gifts events self) = room_id self ∧
  start_time (add_gifts events self) = start_time self ∧
  gift_user_count (add_gifts events self) = gift_user_count self.
Proof.
  revert self. induction events as [|e events IH]; intros self.
  - cbn. rewrite app_nil_r. repeat split; lia.
  - unfold add_gifts in *. cbn [foldl fmap list_fmap].
    destruct (IH (snd (SessionStats.add_gift e self))) as (-> & -> & -> & -> & -> & -> & ->).
    destruct (add_gift_fields e self) as (-> & -> & -> & -> & -> & -> & ->).
    rewrite valued_cons, <- app_assoc.
    destruct (f_int_ok (gift_count e)); cbn; repeat split; unfold sum_Z; lia.
Qed.

Lemma gift_totals_group_by (log : list (GiftEvent F)) :
  (λ kv : string * string * Z, (fst (fst kv), snd (fst kv), snd kv))
  <$> group_by (λ g, (user_name g, gift_name g)) (λ n g, n + gift_count g) 0 log
  = gift_totals log.
Proof.
  unfold group_by, gift_totals. rewrite <- list_fmap_compose.
  apply list_fmap_ext. intros i k Hk. unfold compose, group_total. cbn.
  by rewrite foldl_count_sum.
Qed.

Lemma user_totals_group_by (log : list (GiftEvent F)) :
  group_by user_name (λ x g, f_add x (SessionStats.event_value g)) (f_of_int 0) log
  = user_totals log.
Proof.
  unfold group_by, user_totals.
  apply list_fmap_ext. intros i k Hk. unfold group_total.
  by rewrite foldl_value_sum.
Qed.

(** The views before the cut: the groups, sorted. *)
Lemma get_top_gifts_sorted (limit : Z) (s : SessionStats F) :
  SessionStats.get_top_gifts limit s
  = slice_to limit (sorted_desc Z.ltb snd (gift_totals (gifts s))).
Proof.
  unfold SessionStats.get_top_gifts. cbn zeta.
  rewrite aggregate_group_by, <- gift_totals_group_by, <- sorted_desc_fmap.
  unfold slice_to. rewrite length_fmap.
  destruct (0 <=? limit); by rewrite fmap_take.
Qed.

Lemma get_top_users_sorted (limit : Z) (s : SessionStats F) :
  SessionStats.get_top_users limit s
  = slice_to limit (sorted_desc f_ltb snd (user_totals (gifts s))).
Proof.
  unfold SessionStats.get_top_users. cbn zeta.
  by rewrite aggregate_group_by, user_totals_group_by.
Qed.

End Views.

Section ViewsRanked.
Context {F : Type} `{PyFloat F} `{PyHash}.


End ViewsRanked.

(** ** Running the methods *)

(** One step of evaluation of a method on a state: unfold the monad and
    split on the connection flag, on the next fault flag, on the ranges
    of the arguments and on the result of the [SELECT]. *)
Ltac run_unfold :=
  unfold SessionStore._get_conn, SessionStore.execute, SessionStore.query,
    SessionStore.commit, SessionStore.lastrowid, SessionStore.top_users,
    logger, get_state, modify, raise, ended_as, bind_ints, sqlite_call,
    mbind, M_bind, mret, M_ret in *;
  cbn [fst snd db committed connected active_sessions log io_faults forallb
       with_db with_committed with_connected with_active_sessions with_log
       with_io_faults] in *.

Ltac run_step :=
  run_unfold;
  match goal with
  | H : ?x = _ |- context [match ?x with _ => _ end] => rewrite H
  | H : ?x = _ |- context [if ?x && _ then _ else _] => rewrite H; cbn [andb]
  | |- context [fst (SessionStats.add_gift ?e ?s)] => rewrite (add_gift_outcome e s)
  | |- context [if connected ?s then _ else _] => destruct (connected s) eqn:?
  | |- context [if sql_int_ok ?n && _ then _ else _] =>
      destruct (sql_int_ok n) eqn:?; cbn [andb]
  | |- context [if SessionStats.convertible ?s then _ else _] =>
      destruct (SessionStats.convertible s) eqn:?
  | |- context [if f_int_ok ?n then _ else _] => destruct (f_int_ok n) eqn:?
  | |- context [match ?l with [] => _ | _ :: _ => _ end] =>
      destruct l as [|[] ?] eqn:?
  | |- context [match SessionStore.select_open ?r ?d with _ => _ end] =>
      destruct (SessionStore.select_open r d) eqn:?
  | |- context [match ?m !! ?k with _ => _ end] => destruct (m !! k) eqn:?
  | |- context [match session_id ?s with _ => _ end] =>
      destruct (session_id s) eqn:?
  end.

Ltac run := repeat run_step; run_unfold.

Section Run.
Context {F : Type} `{PyFloat F} `{PyHash}.

(** What [start_session] leaves behind, by its outcome. *)
Lemma start_session_cases (now : F) (room_id : Z) (st : State F) :
  let d1 := stale_closed now room_id (db st) in
  let stats := SessionStats.new (Some (sessions_seq (db st) + 1)) room_id now in
  match SessionStore.start_session now room_id st with
  | (Raised _, st') =>
      active_sessions st' = active_sessions st ∧
      (db st' = db st ∨ db st' = d1 ∨ db st' = SessionStore.insert_session room_id now d1) ∧
      committed st' = committed st
  | (Returned s, st') =>
      s = stats ∧
      active_sessions st' = <[room_id := stats]> (active_sessions st) ∧
      db st' = SessionStore.insert_session room_id now d1 ∧
      committed st' = db st' ∧ sql_int_ok room_id = true
  end.
Proof.
  unfold SessionStore.start_session, stale_closed. run.
  all: auto 10.
Qed.

(** What [add_gift] leaves behind, by its outcome. *)
Lemma add_gift_cases (now : F) (room_id : Z)
    (user_name user_id gift_id gift_name : string)
    (gift_count : Z) (gift_value : F) (st : State F) :
  let event := event_of now user_name user_id gift_id gift_name gift_count gift_value in
  match active_id room_id st,
        SessionStore.add_gift now room_id user_name user_id gift_id gift_name
          gift_count gift_value st with
  | None, (r, st') =>
      r = Returned false ∧ db st' = db st ∧
      active_sessions st' = active_sessions st ∧
      log st' = log st ++ [(WARNING, gift_without_session room_id)] ∧
      committed st' = committed st
  | Some (sid, stats), (r, st') =>
      active_sessions st'
      = <[room_id := snd (SessionStats.add_gift event stats)]> (active_sessions st) ∧
      log st' = log st ∧
      match r with
      | Returned b =>
          b = true ∧ db st' = SessionStore.insert_gift sid event (db st) ∧
          committed st' = db st' ∧
          f_int_ok gift_count = true ∧ sql_int_ok gift_count = true
      | Raised _ =>
          (db st' = db st ∨ db st' = SessionStore.insert_gift sid event (db st)) ∧
          committed st' = committed st
      end
  end.
Proof.
  unfold SessionStore.add_gift, active_id, event_of. run.
  all: auto 10.
Qed.

(** What [end_session] leaves behind, by its outcome. *)
Lemma end_session_cases (now : F) (room_id : Z) (st : State F) :
  match active_id room_id st, SessionStore.end_session now room_id st with
  | None, (r, st') =>
      r = Returned None ∧ db st' = db st ∧
      active_sessions st' = delete room_id (active_sessions st) ∧
      log st' = log st ++ [(WARNING, no_active_session room_id)] ∧
      committed st' = committed st
  | Some (sid, stats), (r, st') =>
      let fin := SessionStore.finished stats in
      let d2 :=
        SessionStore.update_finalize now (f_sub now (start_time stats)) fin
          (json_dumps (SessionStore.summary_of fin)) sid (db st) in
      active_sessions st' = delete room_id (active_sessions st) ∧
      match r with
      | Returned s =>
          s = Some fin ∧ db st' = d2 ∧ committed st' = db st' ∧
          SessionStats.convertible stats = true ∧
          sql_int_ok (total_gift_count stats) = true
      | Raised _ => (db st' = db st ∨ db st' = d2) ∧ committed st' = committed st
      end
  end.
Proof.
  unfold SessionStore.end_session, active_id. run.
  all: auto 10.
Qed.

(** The reads change neither the database nor the registry. *)
Lemma get_session_history_cases (room_id limit : Z) (st : State F) :
  match SessionStore.get_session_history room_id limit st with
  | (r, st') =>
      db st' = db st ∧ active_sessions st' = active_sessions st ∧
      log st' = log st ∧
      (∀ hist, r = Returned hist →
        hist = SessionStore.entry_of_row
               <$> SessionStore.select_history room_id limit (db st)) ∧
      committed st' = committed st
  end.
Proof.
  unfold SessionStore.get_session_history. run.
  all: repeat split; auto; intros ? [= <-]; done.
Qed.

Lemma get_active_session_cases (room_id : Z) (st : State F) :
  SessionStore.get_active_session room_id st
  = (Returned (active_sessions st !! room_id), st).
Proof. done. Qed.

(** A new store sees the committed tables and has nothing registered. *)
Lemma init_cases (st : State F) :
  match SessionStore.__init__ st with
  | (r, st') =>
      db st' = committed st ∧ active_sessions st' = ∅ ∧
      committed st' = committed st
  end.
Proof.
  unfold SessionStore.__init__, SessionStore._init_db. run.
  all: auto.
Qed.

(** [close] returns; it leaves the committed tables to see. *)
Lemma close_cases (st : State F) :
  SessionStore.close st
  = (Returned tt,
     if connected st then with_connected false (with_db (committed st) st) else st).
Proof. unfold SessionStore.close. run; done. Qed.

End Run.

(** ** The invariants hold in every reachable state *)

Section InvariantFacts.
Context {F : Type} `{PyFloat F} `{PyHash}.

Lemma closes_force_close (now : F) : closes (SessionStore.force_close_row now).
Proof. intros r. cbn. done. Qed.

Lemma closes_finalize (now duration : F) (stats : SessionStats F) (j : json F) :
  closes (SessionStore.finalize_row now duration stats j).
Proof. intros r. cbn. done. Qed.

Lemma open_for_spec (room_id : Z) (r : sessions.row F) :
  SessionStore.open_for room_id r ↔
  sessions.room_id r = room_id ∧ sessions.end_time r = None.
Proof.
  unfold SessionStore.open_for. rewrite andb_True, bool_decide_spec.
  destruct (sessions.end_time r); cbn; intuition congruence.
Qed.

Lemma closed_for_spec (room_id : Z) (r : sessions.row F) :
  SessionStore.closed_for room_id r ↔
  sessions.room_id r = room_id ∧ sessions.end_time r ≠ None.
Proof.
  unfold SessionStore.closed_for. rewrite andb_True, bool_decide_spec.
  destruct (sessions.end_time r); cbn; intuition congruence.
Qed.

Lemma elem_of_open_rows (room_id : Z) (d : Database F) (r : sessions.row F) :
  r ∈ open_rows room_id d ↔
  r ∈ sessions_rows d ∧ sessions.room_id r = room_id ∧ sessions.end_time r = None.
Proof. unfold open_rows. rewrite list_elem_of_filter, open_for_spec. tauto. Qed.

Lemma filter_fmap_length {A : Type} (P : A → Prop) `{∀ x, Decision (P x)}
    (g : A → A) (l : list A) :
  (∀ x, P (g x) → P x) →
  (length (filter P (g <$> l)) ≤ length (filter P l))%nat.
Proof.
  intros Hg. induction l as [|x l IH]; [done|].
  rewrite fmap_cons, !filter_cons.
  destruct (decide (P (g x))) as [Hgx|Hgx].
  - rewrite decide_True by auto. cbn. lia.
  - destruct (decide (P x)); cbn; lia.
Qed.

Section UpdateWhereId.
Context (c : sessions.row F → sessions.row F) (Hc : closes c) (id : Z).

Lemma update_row_id (r : sessions.row F) :
  sessions.id (if decide (sessions.id r = id) then c r else r) = sessions.id r.
Proof. case_decide; [apply Hc|done]. Qed.

Lemma update_row_room (r : sessions.row F) :
  sessions.room_id (if decide (sessions.id r = id) then c r else r)
  = sessions.room_id r.
Proof. case_decide; [apply Hc|done]. Qed.

Lemma update_row_open (r : sessions.row F) :
  sessions.end_time (if decide (sessions.id r = id) then c r else r) = None →
  sessions.id r ≠ id ∧ sessions.end_time r = None.
Proof. case_decide; [|done]. intros Hn. by destruct (Hc r) as (_ & _ & []). Qed.

Lemma elem_of_update (d : Database F) (r' : sessions.row F) :
  r' ∈ sessions_rows (update_where_id c id d) ↔
  ∃ r, r ∈ sessions_rows d ∧
       r' = if decide (sessions.id r = id) then c r else r.
Proof.
  cbn. rewrite list_elem_of_fmap. split; intros (r & H1 & H2); eauto.
Qed.

Lemma update_open_rows (room_id : Z) (d : Database F) (r : sessions.row F) :
  r ∈ open_rows room_id (update_where_id c id d) →
  r ∈ open_rows room_id d ∧ sessions.id r ≠ id.
Proof.
  rewrite !elem_of_open_rows, elem_of_update.
  intros ((r0 & Hr0 & ->) & Hroom & Hopen).
  rewrite update_row_room in Hroom.
  apply update_row_open in Hopen as [Hid Hopen].
  by rewrite decide_False by done.
Qed.

Lemma update_one_open (d : Database F) :
  one_open d → one_open (update_where_id c id d).
Proof.
  intros Hd room_id. etrans; [|apply (Hd room_id)].
  unfold open_rows. cbn. apply filter_fmap_length.
  intros r. rewrite !open_for_spec, update_row_room.
  intros [Hroom Hopen]. by apply update_row_open in Hopen as [_ Hopen].
Qed.

Lemma update_ids_ok (d : Database F) :
  ids_ok d → ids_ok (update_where_id c id d).
Proof.
  intros [Hnd Hle]. split.
  - cbn. rewrite <- list_fmap_compose.
    erewrite list_fmap_ext; [exact Hnd|].
    intros i r Hr. cbn. apply update_row_id.
  - intros r'. rewrite elem_of_update. intros (r & Hr & ->).
    rewrite update_row_id. cbn. by apply Hle.
Qed.

Lemma update_open_defaults (d : Database F) :
  open_defaults d → open_defaults (update_where_id c id d).
Proof.
  intros Hd r'. rewrite elem_of_update. intros (r & Hr & ->) Hopen.
  apply update_row_open in Hopen as [Hid Hopen].
  rewrite decide_False by done. by apply Hd.
Qed.

Lemma update_active_ok (d : Database F) (a : gmap Z (SessionStats F)) :
  active_ok d a → active_ok (update_where_id c id d) a.
Proof.
  intros Ha room_id s Hs. destruct (Ha room_id s Hs) as (r & Hr & Hsid & Hroom).
  exists (if decide (sessions.id r = id) then c r else r).
  rewrite elem_of_update, update_row_id, update_row_room. naive_solver.
Qed.

Lemma update_inv (d : Database F) (a : gmap Z (SessionStats F)) :
  inv d a → inv (update_where_id c id d) a.
Proof.
  intros (H1 & H2 & H3 & H4).
  split; [by apply update_one_open|].
  split; [by apply update_ids_ok|].
  split; [by apply update_open_defaults|by apply update_active_ok].
Qed.

End UpdateWhereId.

End InvariantFacts.

Section Preservation.
Context {F : Type} `{PyFloat F} `{PyHash}.

Lemma update_force_close_eq (now : F) (id : Z) (d : Database F) :
  SessionStore.update_force_close now id d
  = update_where_id (SessionStore.force_close_row now) id d.
Proof. done. Qed.

Lemma update_finalize_eq (now duration : F) (stats : SessionStats F)
    (j : json F) (id : Z) (d : Database F) :
  SessionStore.update_finalize now duration stats j id d
  = update_where_id (SessionStore.finalize_row now duration stats j) id d.
Proof. done. Qed.

Lemma select_open_head (room_id : Z) (d : Database F) :
  SessionStore.select_open room_id d = head (open_rows room_id d).
Proof. done. Qed.

(** Once the stale session is closed the room has no open session. *)
Lemma stale_closed_open_rows (now : F) (room_id : Z) (d : Database F) :
  one_open d → open_rows room_id (stale_closed now room_id d) = [].
Proof.
  intros Hd. unfold stale_closed. rewrite select_open_head.
  specialize (Hd room_id).
  destruct (open_rows room_id d) as [|r [|r' l]] eqn:Hopen;
    cbn [head]; cbn [length] in Hd; [done| |lia].
  rewrite update_force_close_eq.
  apply filter_none. intros r' Hr' Hop.
  assert (Hin : r' ∈ open_rows room_id
                  (update_where_id (SessionStore.force_close_row now)
                     (sessions.id r) d))
    by (unfold open_rows; by rewrite list_elem_of_filter).
  apply update_open_rows in Hin as [Hin Hid]; [|apply closes_force_close].
  rewrite Hopen in Hin. apply list_elem_of_singleton in Hin. by subst.
Qed.

Lemma stale_closed_inv (now : F) (room_id : Z) (d : Database F)
    (a : gmap Z (SessionStats F)) :
  inv d a → inv (stale_closed now room_id d) a.
Proof.
  intros Hinv. unfold stale_closed.
  destruct (SessionStore.select_open room_id d); [|done].
  rewrite update_force_close_eq. apply update_inv; [apply closes_force_close|done].
Qed.

Lemma stale_closed_seq (now : F) (room_id : Z) (d : Database F) :
  sessions_seq (stale_closed now room_id d) = sessions_seq d.
Proof. unfold stale_closed. by destruct (SessionStore.select_open room_id d). Qed.

Lemma insert_session_open_rows (room_id room_id' : Z) (now : F) (d : Database F) :
  open_rows room_id' (SessionStore.insert_session room_id now d)
  = open_rows room_id' d ++
    if decide (room_id = room_id')
    then [SessionStore.new_session_row (sessions_seq d + 1) room_id now] else [].
Proof.
  unfold open_rows. cbn. rewrite filter_app, filter_cons, filter_nil.
  f_equal.
  destruct (decide (room_id = room_id')) as [->|Hne].
  - by rewrite decide_True by (by apply open_for_spec).
  - rewrite decide_False; [done|]. rewrite open_for_spec. cbn. tauto.
Qed.

Lemma insert_session_inv (room_id : Z) (now : F) (d : Database F)
    (a : gmap Z (SessionStats F)) :
  open_rows room_id d = [] → inv d a →
  inv (SessionStore.insert_session room_id now d) a.
Proof.
  intros Hnone (H1 & [Hnd Hle] & H3 & H4). repeat split.
  - intros room_id'. rewrite insert_session_open_rows.
    destruct (decide (room_id = room_id')) as [<-|Hne].
    + by rewrite Hnone.
    + rewrite app_nil_r. apply H1.
  - cbn. rewrite fmap_app. cbn. apply NoDup_app. split; [done|].
    split; [|apply NoDup_singleton].
    intros i Hi ->%list_elem_of_singleton.
    apply list_elem_of_fmap in Hi as (r & Hr & Hin).
    specialize (Hle r Hin). lia.
  - intros r. cbn. rewrite elem_of_app, list_elem_of_singleton.
    intros [Hin| ->]; [|cbn; lia]. specialize (Hle r Hin). lia.
  - intros r. cbn. rewrite elem_of_app, list_elem_of_singleton.
    intros [Hin| ->]; [by apply H3|done].
  - intros room_id' s Hs. destruct (H4 room_id' s Hs) as (r & Hr & Hsid & Hroom).
    exists r. cbn. rewrite elem_of_app. auto.
Qed.

Lemma insert_gift_inv (sid : Z) (g : GiftEvent F) (d : Database F)
    (a : gmap Z (SessionStats F)) :
  inv d a → inv (SessionStore.insert_gift sid g d) a.
Proof. done. Qed.

Lemma active_ok_insert (d : Database F) (a : gmap Z (SessionStats F))
    (room_id : Z) (s : SessionStats F) (r : sessions.row F) :
  r ∈ sessions_rows d → session_id s = Some (sessions.id r) →
  sessions.room_id r = room_id →
  active_ok d a → active_ok d (<[room_id := s]> a).
Proof.
  intros Hr Hsid Hroom Ha room_id' s'. rewrite lookup_insert.
  case_decide as Hk; [|apply Ha].
  intros [= <-]. subst room_id'. by exists r.
Qed.

Lemma active_ok_delete (d : Database F) (a : gmap Z (SessionStats F)) (room_id : Z) :
  active_ok d a → active_ok d (delete room_id a).
Proof.
  intros Ha room_id' s'. rewrite lookup_delete.
  case_decide; [done|apply Ha].
Qed.

Lemma inv_active (d : Database F) (a a' : gmap Z (SessionStats F)) :
  active_ok d a' → inv d a → inv d a'.
Proof. intros Ha' (H1 & H2 & H3 & _). by repeat split; try apply H2. Qed.

(** What the registry holds for a room, in terms of [active_id]. *)
Lemma active_id_Some (room_id sid : Z) (stats : SessionStats F) (st : State F) :
  active_id room_id st = Some (sid, stats) →
  active_sessions st !! room_id = Some stats ∧ session_id stats = Some sid.
Proof.
  unfold active_id. destruct (active_sessions st !! room_id) as [s|]; [|done].
  destruct (session_id s) eqn:Hs; [|done]. by intros [= <- <-].
Qed.

(** *** The steps of the registry *)

Lemma registry_step_refl (a : gmap Z (SessionStats F)) : registry_step a a.
Proof. intros room s Hs. eauto. Qed.

Lemma registry_step_empty (a : gmap Z (SessionStats F)) : registry_step a ∅.
Proof. intros room s. by rewrite lookup_empty. Qed.

Lemma registry_step_delete (a : gmap Z (SessionStats F)) (room : Z) :
  registry_step a (delete room a).
Proof.
  intros room' s. rewrite lookup_delete. case_decide; [done|]. eauto.
Qed.

Lemma registry_step_add (a : gmap Z (SessionStats F)) (room : Z)
    (stats : SessionStats F) (e : GiftEvent F) :
  a !! room = Some stats →
  registry_step a (<[room := snd (SessionStats.add_gift e stats)]> a).
Proof.
  intros Hs room' s'. rewrite lookup_insert. case_decide as Hk; [|eauto].
  intros [= <-]. subst room'. eauto.
Qed.

Lemma active_ok_step (d : Database F) (a a' : gmap Z (SessionStats F)) :
  registry_step a a' → active_ok d a → active_ok d a'.
Proof.
  intros Hstep Ha room s' Hs'.
  destruct (Hstep room s' Hs') as (s & Hs & [-> | [e ->]]); [by apply Ha|].
  destruct (Ha room s Hs) as (r & Hr & Hsid & Hroom).
  exists r. destruct (add_gift_fields e s) as (_ & _ & _ & -> & _). done.
Qed.

Lemma inv_step (d : Database F) (a a' : gmap Z (SessionStats F)) :
  registry_step a a' → inv d a → inv d a'.
Proof.
  intros Hstep Hinv. eapply inv_active; [|exact Hinv].
  eapply active_ok_step; [exact Hstep|apply Hinv].
Qed.

(** *** The shapes of a call *)

(** The ways a call can leave the store.  The tables the connection
    sees are as they were, or as committed, with a step of the
    registry; or a session is started, completely or cut short; or a
    gift is recorded; or a session is ended.  A commit that succeeds
    makes the tables seen the committed ones. *)
Lemma after_cases (c : call) (st : State F) :
  let st' := after c st in
  ((db st' = db st ∨ db st' = committed st) ∧ committed st' = committed st ∧
   registry_step (active_sessions st) (active_sessions st')) ∨
  (∃ now room,
     let d1 := stale_closed now room (db st) in
     (active_sessions st' = active_sessions st ∧ committed st' = committed st ∧
      (db st' = d1 ∨ db st' = SessionStore.insert_session room now d1)) ∨
     (active_sessions st'
      = <[room := SessionStats.new (Some (sessions_seq (db st) + 1)) room now]>
          (active_sessions st) ∧
      db st' = SessionStore.insert_session room now d1 ∧
      committed st' = db st')) ∨
  (∃ room sid stats event,
     active_sessions st !! room = Some stats ∧ session_id stats = Some sid ∧
     active_sessions st'
     = <[room := snd (SessionStats.add_gift event stats)]> (active_sessions st) ∧
     db st' = SessionStore.insert_gift sid event (db st) ∧
     (committed st' = committed st ∨ committed st' = db st')) ∨
  (∃ now room sid stats j,
     active_sessions st !! room = Some stats ∧ session_id stats = Some sid ∧
     active_sessions st' = delete room (active_sessions st) ∧
     db st' = SessionStore.update_finalize now (f_sub now (start_time stats))
                (SessionStore.finished stats) j sid (db st) ∧
     (committed st' = committed st ∨ committed st' = db st')).
Proof.
  cbn zeta.
  destruct c as [|now room|now room un uid gid gn gc gv|now room|room|room limit|];
    cbn [after].
  - pose proof (init_cases st) as Hc.
    destruct (SessionStore.__init__ st) as [r st']. cbn [snd].
    destruct Hc as (-> & -> & ->). left.
    split; [auto|]. split; [done|]. apply registry_step_empty.
  - pose proof (start_session_cases now room st) as Hc.
    destruct (SessionStore.start_session now room st) as [[s|e] st'];
      cbn [snd]; cbn zeta in Hc.
    + destruct Hc as (_ & -> & -> & -> & _). right. left. exists now, room. auto.
    + destruct Hc as (-> & [-> | [-> | ->]] & ->).
      * left. split; [auto|]. split; [done|]. apply registry_step_refl.
      * right; left; exists now, room; auto.
      * right; left; exists now, room; auto.
  - pose proof (add_gift_cases now room un uid gid gn gc gv st) as Hc.
    destruct (active_id room st) as [[sid stats]|] eqn:Hact;
      destruct (SessionStore.add_gift _ _ _ _ _ _ _ _ st) as [r st'];
      cbn [snd]; cbn zeta in Hc.
    + apply active_id_Some in Hact as [Hlook Hsid].
      destruct Hc as (-> & _ & Hdb).
      destruct r as [b|e].
      * destruct Hdb as (_ & -> & -> & _). right. right. left.
        eexists room, sid, stats, _. auto 10.
      * destruct Hdb as ([-> | ->] & ->).
        -- left. split; [auto|]. split; [done|]. by apply registry_step_add.
        -- right. right. left. eexists room, sid, stats, _. auto 10.
    + destruct Hc as (_ & -> & -> & _ & ->). left.
      split; [auto|]. split; [done|]. apply registry_step_refl.
  - pose proof (end_session_cases now room st) as Hc.
    destruct (active_id room st) as [[sid stats]|] eqn:Hact;
      destruct (SessionStore.end_session now room st) as [r st'];
      cbn [snd]; cbn zeta in Hc.
    + apply active_id_Some in Hact as [Hlook Hsid].
      destruct Hc as (-> & Hdb).
      destruct r as [s|e].
      * destruct Hdb as (_ & -> & -> & _). right. right. right.
        eexists now, room, sid, stats, _. auto 10.
      * destruct Hdb as ([-> | ->] & ->).
        -- left. split; [auto|]. split; [done|]. apply registry_step_delete.
        -- right. right. right. eexists now, room, sid, stats, _. auto 10.
    + destruct Hc as (_ & -> & -> & _ & ->). left.
      split; [auto|]. split; [done|]. apply registry_step_delete.
  - left. split; [auto|]. split; [done|]. apply registry_step_refl.
  - pose proof (get_session_history_cases room limit st) as Hc.
    destruct (SessionStore.get_session_history room limit st) as [r st'].
    cbn [snd]. destruct Hc as (-> & -> & _ & _ & ->). left.
    split; [auto|]. split; [done|]. apply registry_step_refl.
  - rewrite close_cases. cbn [snd]. left.
    destruct (connected st); cbn; (split; [auto|]); (split; [done|]);
      apply registry_step_refl.
Qed.

(** A property of the tables and the registry that holds of the seen
    and of the committed tables, holds of the committed ones after a
    call when it holds of the seen ones and survives the steps of the
    registry. *)
Lemma committed_after (P : Database F → gmap Z (SessionStats F) → Prop)
    (c : call) (st : State F) :
  (∀ d a a', registry_step a a' → P d a → P d a') →
  P (committed st) (active_sessions st) →
  P (db (after c st)) (active_sessions (after c st)) →
  P (committed (after c st)) (active_sessions (after c st)).
Proof.
  intros Hreg Hcom Hdb.
  destruct (after_cases c st)
    as [(_ & -> & Hstep)
       |[(now & room & [(-> & -> & _) | (_ & _ & ->)])
        |[(room & sid & stats & event & Hlook & Hsid & Ha & _ & [-> | ->])
         |(now & room & sid & stats & j & Hlook & Hsid & Ha & _ & [-> | ->])]]];
    try done.
  - by eapply Hreg.
  - rewrite Ha. eapply Hreg; [|exact Hcom]. by apply registry_step_add.
  - rewrite Ha. eapply Hreg; [|exact Hcom]. apply registry_step_delete.
Qed.

Lemma inv_after (c : call) (st : State F) :
  invariant st → inv (db (after c st)) (active_sessions (after c st)).
Proof.
  intros [Hinv Hcom].
  destruct (after_cases c st)
    as [([-> | ->] & _ & Hstep)
       |[(now & room & Hstart)
        |[(room & sid & stats & event & Hlook & Hsid & -> & -> & _)
         |(now & room & sid & stats & j & Hlook & Hsid & -> & -> & _)]]].
  - by eapply inv_step.
  - by eapply inv_step.
  - cbn zeta in Hstart.
    assert (Hins : inv (SessionStore.insert_session room now
                          (stale_closed now room (db st)))
                       (active_sessions st)).
    { apply insert_session_inv; [|by apply stale_closed_inv].
      apply stale_closed_open_rows, Hinv. }
    destruct Hstart as [(-> & _ & [-> | ->]) | (-> & -> & _)].
    + by apply stale_closed_inv.
    + done.
    + eapply inv_active; [|exact Hins].
      eapply (active_ok_insert _ _ _ _
                (SessionStore.new_session_row (sessions_seq (db st) + 1) room now));
        [| | |apply Hins].
      * cbn. rewrite stale_closed_seq, elem_of_app, list_elem_of_singleton. auto.
      * done.
      * done.
  - apply insert_gift_inv. eapply inv_step; [|exact Hinv].
    by apply registry_step_add.
  - rewrite update_finalize_eq. apply update_inv; [apply closes_finalize|].
    eapply inv_step; [|exact Hinv]. apply registry_step_delete.
Qed.

Lemma invariant_after (c : call) (st : State F) :
  invariant st → invariant (after c st).
Proof.
  intros Hinv. pose proof (inv_after c st Hinv) as Hdb.
  split; [done|].
  apply (committed_after inv); [apply inv_step|apply Hinv|done].
Qed.

Lemma inv_empty : inv (empty_db : Database F) ∅.
Proof.
  repeat split.
  - intros room_id. cbn. lia.
  - cbn. constructor.
  - intros r Hr. by apply elem_of_nil in Hr.
  - intros r Hr. by apply elem_of_nil in Hr.
  - intros room_id s. by rewrite lookup_empty.
Qed.

Lemma invariant_blank (faults : list bool) : invariant (blank faults).
Proof. split; apply inv_empty. Qed.

Lemma reachable_invariant (st : State F) : reachable st → invariant st.
Proof.
  induction 1 as [faults|c st _ IH]; [apply invariant_blank|].
  by apply invariant_after.
Qed.

End Preservation.

(** ** The session life cycle *)

Section Lifecycle.
Context {F : Type} `{PyFloat F} `{PyHash}.

Lemma event_of_fields (e : GiftEvent F) :
  event_of (timestamp e) (user_name e) (user_id e) (gift_id e) (gift_name e)
    (gift_count e) (gift_value e) = e.
Proof. by destruct e. Qed.

(** Whether it returns or raises, an [add_gift] for a room with an
    aggregate leaves the aggregate as [SessionStats.add_gift] leaves it. *)
Lemma gift_call_registry (room : Z) (e : GiftEvent F) (stats : SessionStats F)
    (st : State F) :
  active_sessions st !! room = Some stats → is_Some (session_id stats) →
  active_sessions (after (gift_call room e) st) !! room
  = Some (snd (SessionStats.add_gift e stats)).
Proof.
  intros Hlook [sid Hsid]. unfold gift_call. cbn [after].
  pose proof (add_gift_cases (timestamp e) room (user_name e) (user_id e)
                (gift_id e) (gift_name e) (gift_count e) (gift_value e) st) as Hc.
  unfold active_id in Hc. rewrite Hlook, Hsid in Hc. cbn zeta in Hc.
  destruct (SessionStore.add_gift _ _ _ _ _ _ _ _ st) as [r st']. cbn [snd].
  destruct Hc as (-> & _). by rewrite lookup_insert_eq, event_of_fields.
Qed.

Lemma gift_calls_registry (room : Z) (events : list (GiftEvent F))
    (stats : SessionStats F) (st : State F) :
  active_sessions st !! room = Some stats → is_Some (session_id stats) →
  active_sessions (after_all (gift_call room <$> events) st) !! room
  = Some (add_gifts events stats).
Proof.
  revert stats st. induction events as [|e events IH]; intros stats st Hlook Hsid;
    [done|].
  cbn [fmap list_fmap]. unfold after_all, add_gifts in *. cbn [foldl].
  apply IH; [by apply gift_call_registry|].
  by destruct (add_gift_fields e stats) as (_ & _ & _ & -> & _).
Qed.

(** C1, amended: after any run of [add_gift] calls on the aggregate of
    a new session, each of which returned or raised, the log is the run
    and [total_gift_count] is the sum of the events' [gift_count];
    [total_gift_value] is the sum of [gift_value * gift_count] over the
    events whose count converts to float, added up in the order of the
    run, so over the whole run when every count converts.  A call
    returns when the count of its event converts; otherwise it raises
    [OverflowError] after it has appended the event and added the
    count, and leaves [total_gift_value] as it was.  That aggregate is
    the one the store holds for the room after [start_session] and the
    calls of its [add_gift] for the events, whether they return or
    raise. *)
Theorem add_gift_totals (sid : option Z) (room : Z) (now : F)
    (events : list (GiftEvent F)) :
  let s := add_gifts events (SessionStats.new sid room now) in
  let value := λ e : GiftEvent F, f_mul (gift_value e) (f_of_int (gift_count e)) in
  (gifts s = events ∧
   total_gift_count s = sum_Z (gift_count <$> events) ∧
   total_gift_value s = sum_F (value <$> valued events) ∧
   ((∀ e, e ∈ events → f_int_ok (gift_count e) = true) →
    total_gift_value s = sum_F (value <$> events))) ∧
  (∀ (e : GiftEvent F) (s0 : SessionStats F),
     let s1 := snd (SessionStats.add_gift e s0) in
     gifts s1 = gifts s0 ++ [e] ∧
     total_gift_count s1 = total_gift_count s0 + gift_count e ∧
     (f_int_ok (gift_count e) = true →
      fst (SessionStats.add_gift e s0) = Returned tt ∧
      total_gift_value s1 = f_add (total_gift_value s0) (value e)) ∧
     (f_int_ok (gift_count e) = false →
      fst (SessionStats.add_gift e s0) = Raised OverflowError ∧
      total_gift_value s1 = total_gift_value s0)) ∧
  ∀ (st st1 : State F) (stats : SessionStats F),
    SessionStore.start_session now room st = (Returned stats, st1) →
    ∃ s1, active_sessions (after_all (gift_call room <$> events) st1) !! room
          = Some s1 ∧
      gifts s1 = events ∧
      total_gift_count s1 = sum_Z (gift_count <$> events) ∧
      total_gift_value s1 = sum_F (value <$> valued events).
Proof.
  cbn zeta.
  assert (Hnew : ∀ sid' : option Z,
            gifts (add_gifts events (SessionStats.new sid' room now)) = events ∧
            total_gift_count (add_gifts events (SessionStats.new sid' room now))
            = sum_Z (gift_count <$> events) ∧
            total_gift_value (add_gifts events (SessionStats.new sid' room now))
            = sum_F ((λ e, f_mul (gift_value e) (f_of_int (gift_count e)))
                     <$> valued events)).
  { intros sid'.
    destruct (add_gifts_from events (SessionStats.new sid' room now))
      as (Hg & Hc & Hv & _).
    rewrite Hg, Hc, Hv. cbn. done. }
  split; [|split].
  - destruct (Hnew sid) as (Hg & Hc & Hv). repeat split; try done.
    intros Hall. rewrite Hv, valued_all; [done|].
    apply forallb_forall. intros e He. apply Hall. by apply list_elem_of_In.
  - intros e s0. cbn zeta.
    destruct (add_gift_fields e s0) as (Hg & Hc & Hv & _).
    rewrite add_gift_outcome, Hv.
    destruct (f_int_ok (gift_count e)); repeat split; done.
  - intros st st1 stats Hrun.
    pose proof (start_session_cases now room st) as Hc.
    rewrite Hrun in Hc. cbn zeta in Hc. destruct Hc as (-> & Ha & _).
    eexists. split; [|apply Hnew].
    apply gift_calls_registry; [|by eexists].
    by rewrite Ha, lookup_insert_eq.
Qed.


(** C6: in every state a sequence of calls can reach, at most one row of
    [sessions] per room has [end_time] null. *)
Theorem at_most_one_open_session (st : State F) (room : Z) :
  reachable st →
  (length (filter (λ r, sessions.room_id r = room ∧ sessions.end_time r = None)
             (sessions_rows (db st))) ≤ 1)%nat.
Proof.
  intros Hst. destruct (reachable_invariant st Hst) as [(Hone & _) _].
  specialize (Hone room). unfold open_rows in Hone.
  erewrite list_filter_iff; [exact Hone|].
  intros r. by rewrite open_for_spec.
Qed.

(** C7: after [end_session], whether it returned or raised,
    [get_active_session] for the same room returns [None]. *)
Theorem end_session_then_get_active (st : State F) (now : F) (room : Z) :
  let st' := snd (SessionStore.end_session now room st) in
  fst (SessionStore.get_active_session room st') = Returned None.
Proof.
  cbn zeta. rewrite get_active_session_cases. cbn [fst]. f_equal.
  pose proof (end_session_cases now room st) as Hc.
  destruct (active_id room st) as [[sid stats]|];
    destruct (SessionStore.end_session now room st) as [r st']; cbn [snd].
  - destruct Hc as [-> _]. apply lookup_delete_eq.
  - destruct Hc as (_ & _ & -> & _). apply lookup_delete_eq.
Qed.


End Lifecycle.

(** ** Restarting a session over a stale one *)

Section Restart.
Context {F : Type} `{PyFloat F} `{PyHash}.

Lemma ids_ok_unique (d : Database F) (r1 r2 : sessions.row F) :
  ids_ok d → r1 ∈ sessions_rows d → r2 ∈ sessions_rows d →
  sessions.id r1 = sessions.id r2 → r1 = r2.
Proof.
  intros [Hnd _]. induction (sessions_rows d) as [|r l IH]; [by intros ?%elem_of_nil|].
  rewrite fmap_cons in Hnd. apply NoDup_cons in Hnd as [Hr Hnd].
  rewrite !elem_of_cons. intros [->|H1] [->|H2] Hid; auto.
  - destruct Hr. rewrite Hid. by apply list_elem_of_fmap_2.
  - destruct Hr. rewrite <- Hid. by apply list_elem_of_fmap_2.
Qed.

(** The open session of a room is the one the [SELECT] finds. *)
Lemma select_open_the_one (d : Database F) (room : Z) (old : sessions.row F) :
  one_open d → old ∈ sessions_rows d → sessions.room_id old = room →
  sessions.end_time old = None →
  open_rows room d = [old] ∧ SessionStore.select_open room d = Some old.
Proof.
  intros Hone Hin Hroom Hopen. rewrite select_open_head.
  assert (Hold : old ∈ open_rows room d) by (by apply elem_of_open_rows).
  specialize (Hone room).
  destruct (open_rows room d) as [|r [|r' l]]; cbn [length] in Hone.
  - by apply elem_of_nil in Hold.
  - apply list_elem_of_singleton in Hold. by subst.
  - lia.
Qed.

Lemma update_keeps_row (c : sessions.row F → sessions.row F) (id : Z)
    (d : Database F) (r0 : sessions.row F) :
  r0 ∈ sessions_rows d → sessions.id r0 ≠ id →
  r0 ∈ sessions_rows (update_where_id c id d).
Proof.
  intros Hin Hid. cbn. apply list_elem_of_fmap. exists r0.
  by rewrite decide_False by done.
Qed.

Lemma stale_closed_keeps_row (now : F) (room : Z) (d : Database F)
    (r0 : sessions.row F) :
  ids_ok d → r0 ∈ sessions_rows d → sessions.end_time r0 ≠ None →
  r0 ∈ sessions_rows (stale_closed now room d).
Proof.
  intros Hids Hin Hclosed. unfold stale_closed. rewrite select_open_head.
  destruct (open_rows room d) as [|r l] eqn:Hopen; cbn [head]; [done|].
  rewrite update_force_close_eq. apply update_keeps_row; [done|].
  assert (Hr : r ∈ open_rows room d) by (rewrite Hopen; left).
  apply elem_of_open_rows in Hr as (Hr & _ & Hnone).
  intros Hid. assert (r0 = r) by by eapply ids_ok_unique. by subst.
Qed.

Lemma free_step (a a' : gmap Z (SessionStats F)) (id : Z) :
  registry_step a a' →
  (∀ room s, a !! room = Some s → session_id s ≠ Some id) →
  ∀ room s, a' !! room = Some s → session_id s ≠ Some id.
Proof.
  intros Hstep Hfree room s' Hs'.
  destruct (Hstep room s' Hs') as (s & Hs & [-> | [e ->]]); [by eapply Hfree|].
  destruct (add_gift_fields e s) as (_ & _ & _ & -> & _). by eapply Hfree.
Qed.

Lemma settled_after (c : call) (r0 : sessions.row F) (st : State F) :
  invariant st → settled r0 st → settled r0 (after c st).
Proof.
  intros [(Hone & Hids & Hdef & Hact) _] (Hin & Hcom & Hclosed & Hfree).
  assert (Hseq : sessions.id r0 ≤ sessions_seq (db st)) by by apply Hids.
  unfold settled.
  destruct (after_cases c st)
    as [(Hdb & -> & Hstep)
       |[(now & room & Hstart)
        |[(room & sid & stats & event & Hlook & Hsid & -> & -> & Hcm)
         |(now & room & sid & stats & j & Hlook & Hsid & -> & Hdb & Hcm)]]].
  - split; [by destruct Hdb as [-> | ->]|]. split; [done|]. split; [done|].
    by eapply free_step.
  - cbn zeta in Hstart.
    assert (Hst : r0 ∈ sessions_rows (stale_closed now room (db st)))
      by by apply stale_closed_keeps_row.
    assert (Hins : r0 ∈ sessions_rows
              (SessionStore.insert_session room now (stale_closed now room (db st)))).
    { cbn. rewrite elem_of_app. by left. }
    destruct Hstart as [(-> & -> & [-> | ->]) | (-> & -> & ->)]; auto.
    split; [done|]. split; [done|]. split; [done|].
    intros room' s'. rewrite lookup_insert. case_decide; [|apply Hfree].
    intros [= <-]. cbn. intros [= Heq]. lia.
  - assert (Hfree' : ∀ room' s,
              <[room := snd (SessionStats.add_gift event stats)]>
                (active_sessions st) !! room' = Some s →
              session_id s ≠ Some (sessions.id r0)).
    { eapply free_step; [|exact Hfree]. by apply registry_step_add. }
    destruct Hcm as [-> | ->]; auto.
  - assert (Hne : sessions.id r0 ≠ sid).
    { intros <-. by eapply Hfree. }
    assert (Hrow : r0 ∈ sessions_rows (db (after c st))).
    { rewrite Hdb, update_finalize_eq. by apply update_keeps_row. }
    assert (Hfree' : ∀ room' s,
              delete room (active_sessions st) !! room' = Some s →
              session_id s ≠ Some (sessions.id r0)).
    { eapply free_step; [|exact Hfree]. apply registry_step_delete. }
    destruct Hcm as [-> | ->]; auto.
Qed.

Lemma reachable_after_all (calls : list call) (st : State F) :
  reachable st → reachable (after_all calls st).
Proof.
  revert st. induction calls as [|c calls IH]; intros st Hst; [done|].
  apply IH. by constructor.
Qed.

Lemma settled_after_all (calls : list call) (r0 : sessions.row F) (st : State F) :
  reachable st → settled r0 st → settled r0 (after_all calls st).
Proof.
  revert st. induction calls as [|c calls IH]; intros st Hst Hset; [done|].
  apply IH; [by constructor|].
  apply settled_after; [by apply reachable_invariant|done].
Qed.

(** A [start_session] that returns, in a room with an open session. *)
Lemma start_session_over_stale (st st' : State F) (now : F) (room : Z)
    (old : sessions.row F) (stats : SessionStats F) :
  reachable st →
  old ∈ sessions_rows (db st) → sessions.room_id old = room →
  sessions.end_time old = None →
  SessionStore.start_session now room st = (Returned stats, st') →
  let closed := SessionStore.force_close_row now old in
  let new_id := sessions_seq (db st) + 1 in
  stats = SessionStats.new (Some new_id) room now ∧
  db st' = SessionStore.insert_session room now
             (SessionStore.update_force_close now (sessions.id old) (db st)) ∧
  open_rows room (SessionStore.update_force_close now (sessions.id old) (db st)) = [] ∧
  open_rows room (db st') = [SessionStore.new_session_row new_id room now] ∧
  sessions.id old ≠ new_id ∧
  settled closed st'.
Proof.
  intros Hst Hin Hroom Hopen Hrun. cbn zeta.
  pose proof (reachable_invariant st Hst) as [(Hone & Hids & Hdef & Hact) _].
  destruct (select_open_the_one (db st) room old) as [Hrows Hsel]; auto.
  pose proof (start_session_cases now room st) as Hc.
  rewrite Hrun in Hc. cbn zeta in Hc. destruct Hc as (-> & Ha & Hdb & Hcm & _).
  assert (Hstale : stale_closed now room (db st)
                   = SessionStore.update_force_close now (sessions.id old) (db st))
    by (unfold stale_closed; by rewrite Hsel).
  rewrite Hstale in Hdb.
  assert (Hnone : open_rows room
            (SessionStore.update_force_close now (sessions.id old) (db st)) = []).
  { rewrite <- Hstale. by apply stale_closed_open_rows. }
  assert (Hseq : sessions.id old ≤ sessions_seq (db st)) by by apply Hids.
  split; [done|]. split; [done|]. split; [done|].
  split; [|split; [lia|]].
  - rewrite Hdb, insert_session_open_rows, Hnone, decide_True by done. done.
  - assert (Hrow : SessionStore.force_close_row now old ∈ sessions_rows (db st')).
    { rewrite Hdb. cbn. rewrite elem_of_app. left.
      apply list_elem_of_fmap. exists old. by rewrite decide_True by done. }
    split; [done|]. split; [by rewrite Hcm|]. split; [done|].
    intros room' s. rewrite Ha, lookup_insert. case_decide as Hk.
      * intros [= <-]. cbn. intros [= Heq]. lia.
      * intros Hs. destruct (Hact room' s Hs) as (r & Hr & Hsid & Hr').
        rewrite Hsid. intros [= Heq]. apply Hk.
        assert (r = old) by by eapply ids_ok_unique. by subst.
Qed.

(** C5, amended: when the room already has an open session, a
    [start_session] that returns has closed it, with [end_time] the
    clock reading and [duration = end_time - start_time], before it
    inserted the new row; the new session is the room's one open
    session and its id is not the old one's.  The duration is not
    negative when the clock reading is not before the start of the old
    session, float subtraction keeping the sign of such a difference as
    it does on doubles ([binary64_sub_not_below]).  A clock that was
    set back in between gives a negative duration. *)
Theorem start_session_closes_stale (st st' : State F) (now : F) (room : Z)
    (old : sessions.row F) (stats : SessionStats F) :
  reachable st →
  old ∈ sessions_rows (db st) → sessions.room_id old = room →
  sessions.end_time old = None →
  SessionStore.start_session now room st = (Returned stats, st') →
  (∃ closed, closed ∈ sessions_rows (db st') ∧
     (∀ r, r ∈ sessions_rows (db st') → sessions.id r = sessions.id old → r = closed) ∧
     sessions.id closed = sessions.id old ∧
     sessions.room_id closed = room ∧
     sessions.start_time closed = sessions.start_time old ∧
     sessions.end_time closed = Some now ∧
     sessions.duration closed = f_sub now (sessions.start_time closed) ∧
     (f_ltb now (sessions.start_time old) = false →
      (∀ a b : F, f_ltb a b = false → f_ltb (f_sub a b) (f_of_int 0) = false) →
      f_ltb (sessions.duration closed) (f_of_int 0) = false)) ∧
  (∃ d1, db st' = SessionStore.insert_session room now d1 ∧
     filter (λ r, sessions.room_id r = room ∧ sessions.end_time r = None)
       (sessions_rows d1) = []) ∧
  (∃ new_id, session_id stats = Some new_id ∧ new_id ≠ sessions.id old ∧
     filter (λ r, sessions.room_id r = room ∧ sessions.end_time r = None)
       (sessions_rows (db st'))
     = [SessionStore.new_session_row new_id room now]).
Proof.
  intros Hst Hin Hroom Hopen Hrun.
  destruct (start_session_over_stale st st' now room old stats)
    as (-> & Hdb & Hnone & Hnew & Hid & (Hcl & _ & _)); auto.
  assert (Hst' : reachable st').
  { replace st' with (after (StartSession now room) st); [by constructor|].
    cbn. by rewrite Hrun. }
  pose proof (reachable_invariant st' Hst') as [(_ & Hids' & _) _].
  assert (Hfilter : ∀ d : Database F,
            filter (λ r, sessions.room_id r = room ∧ sessions.end_time r = None)
              (sessions_rows d) = open_rows room d).
  { intros d. apply list_filter_iff. intros r. by rewrite open_for_spec. }
  split; [|split].
  - exists (SessionStore.force_close_row now old). split; [done|].
    split; [|cbn; repeat split; auto].
    intros r Hr Hrid. by eapply ids_ok_unique.
  - eexists. split; [exact Hdb|]. by rewrite Hfilter.
  - eexists. split; [done|]. split; [done|]. by rewrite Hfilter.
Qed.

(** C10, amended: when [start_session] finds an open session for the
    room, its force-close changes only [end_time] and [duration] of
    that row: [total_gift_count], [total_gift_value] and
    [gift_user_count] stay 0 and [summary_json] stays null, as they
    were.  Once [start_session] has returned, no later call changes the
    row, so the gifts of the stale session never reach it.  (When
    [start_session] raises after the [UPDATE], the aggregate of the
    stale session stays registered, and an [end_session] can still
    write its totals to the row.) *)
Theorem force_close_keeps_aggregates (st : State F) (now : F) (room : Z)
    (old : sessions.row F) :
  reachable st →
  old ∈ sessions_rows (db st) → sessions.room_id old = room →
  sessions.end_time old = None →
  let closed :=
    {| sessions.id := sessions.id old;
       sessions.room_id := sessions.room_id old;
       sessions.start_time := sessions.start_time old;
       sessions.end_time := Some now;
       sessions.duration := f_sub now (sessions.start_time old);
       sessions.total_gift_count := 0;
       sessions.total_gift_value := Some (f_of_int 0);
       sessions.gift_user_count := 0;
       sessions.summary_json := None |} in
  (sessions.total_gift_count old = 0 ∧
   sessions.total_gift_value old = Some (f_of_int 0) ∧
   sessions.gift_user_count old = 0 ∧
   sessions.summary_json old = None) ∧
  (∀ r, r ∈ sessions_rows (db (snd (SessionStore.start_session now room st))) →
        sessions.id r = sessions.id old → r = old ∨ r = closed) ∧
  (∀ stats st' calls,
     SessionStore.start_session now room st = (Returned stats, st') →
     closed ∈ sessions_rows (db (after_all calls st')) ∧
     ∀ r, r ∈ sessions_rows (db (after_all calls st')) →
          sessions.id r = sessions.id old → r = closed).
Proof.
  intros Hst Hin Hroom Hopen. cbn zeta.
  pose proof (reachable_invariant st Hst) as [(Hone & Hids & Hdef & _) _].
  pose proof (Hdef old Hin Hopen) as Hold.
  assert (Hclosed : SessionStore.force_close_row now old
                    = {| sessions.id := sessions.id old;
                         sessions.room_id := sessions.room_id old;
                         sessions.start_time := sessions.start_time old;
                         sessions.end_time := Some now;
                         sessions.duration := f_sub now (sessions.start_time old);
                         sessions.total_gift_count := 0;
                         sessions.total_gift_value := Some (f_of_int 0);
                         sessions.gift_user_count := 0;
                         sessions.summary_json := None |}).
  { rewrite Hold at 1. done. }
  rewrite <- Hclosed.
  split; [by rewrite Hold|]. split.
  - destruct (select_open_the_one (db st) room old) as [_ Hsel]; auto.
    assert (Hstale : stale_closed now room (db st)
                     = SessionStore.update_force_close now (sessions.id old) (db st))
      by (unfold stale_closed; by rewrite Hsel).
    assert (Hupd : ∀ r, r ∈ sessions_rows (stale_closed now room (db st)) →
              sessions.id r = sessions.id old →
              r = SessionStore.force_close_row now old).
    { intros r. rewrite Hstale, update_force_close_eq, elem_of_update.
      intros (r0 & Hr0 & ->) Hrid.
      rewrite update_row_id in Hrid by apply closes_force_close.
      assert (r0 = old) by by eapply ids_ok_unique. subst r0.
      by rewrite decide_True by done. }
    pose proof (start_session_cases now room st) as Hc.
    destruct (SessionStore.start_session now room st) as [[s|e] st'];
      cbn [snd]; cbn zeta in Hc; intros r Hr Hrid.
    + destruct Hc as (_ & _ & Hdb & _). rewrite Hdb in Hr. cbn in Hr.
      apply elem_of_app in Hr as [Hr|Hr]; [right; by apply Hupd|].
      apply list_elem_of_singleton in Hr. subst r. cbn in Hrid.
      rewrite stale_closed_seq in Hrid.
      assert (sessions.id old ≤ sessions_seq (db st)) by by apply Hids. lia.
    + destruct Hc as (_ & [Hdb | [Hdb | Hdb]] & _); rewrite Hdb in Hr.
      * left. by eapply ids_ok_unique.
      * right. by apply Hupd.
      * cbn in Hr. apply elem_of_app in Hr as [Hr|Hr]; [right; by apply Hupd|].
        apply list_elem_of_singleton in Hr. subst r. cbn in Hrid.
        rewrite stale_closed_seq in Hrid.
        assert (sessions.id old ≤ sessions_seq (db st)) by by apply Hids. lia.
  - intros stats st' calls Hrun.
    destruct (start_session_over_stale st st' now room old stats)
      as (_ & _ & _ & _ & _ & Hset); auto.
    assert (Hst' : reachable st').
    { replace st' with (after (StartSession now room) st); [by constructor|].
      cbn. by rewrite Hrun. }
    pose proof (settled_after_all calls _ st' Hst' Hset) as (Hrow & _ & _).
    pose proof (reachable_invariant _ (reachable_after_all calls st' Hst'))
      as [(_ & Hids' & _) _].
    split; [done|]. intros r Hr Hrid. by eapply ids_ok_unique.
Qed.

End Restart.

(** ** The history and the summary *)

Section History.
Context {F : Type} `{PyFloat F} `{PyHash}.

(** What is written with [json.dumps] reads back with [json.loads] as
    the same value with lists in place of tuples. *)
Lemma json_roundtrip (v : pyval F) :
  json_loads (json_dumps v) = tuples_to_lists v.
Proof.
  revert v. fix IH 1. intros [ | n | x | s | items | items | items ];
    cbn [json_dumps json_loads tuples_to_lists]; try done.
  - f_equal. rewrite <- list_fmap_compose.
    induction items as [|v items IHitems]; [done|].
    cbn. f_equal; [apply IH|apply IHitems].
  - f_equal. rewrite <- list_fmap_compose.
    induction items as [|v items IHitems]; [done|].
    cbn. f_equal; [apply IH|apply IHitems].
  - f_equal. rewrite <- list_fmap_compose.
    induction items as [|[k v] items IHitems]; [done|].
    cbn. f_equal; [f_equal; apply IH|apply IHitems].
Qed.

Lemma sql_limit_prefix {A : Type} (limit : Z) (l : list A) :
  SessionStore.sql_limit limit l `prefix_of` l.
Proof.
  unfold SessionStore.sql_limit. destruct (limit <? 0); [done|].
  apply prefix_take.
Qed.

Lemma sql_limit_subseteq {A : Type} (limit : Z) (l : list A) :
  SessionStore.sql_limit limit l ⊆ l.
Proof.
  unfold SessionStore.sql_limit. destruct (limit <? 0); [done|].
  apply subseteq_take.
Qed.

Lemma elem_of_select_history (room limit : Z) (d : Database F)
    (r : sessions.row F) :
  r ∈ SessionStore.select_history room limit d →
  r ∈ sessions_rows d ∧ sessions.room_id r = room ∧ sessions.end_time r ≠ None.
Proof.
  unfold SessionStore.select_history. intros Hr.
  apply sql_limit_subseteq in Hr. rewrite sorted_desc_perm in Hr.
  apply list_elem_of_filter in Hr as [Hc Hr].
  apply closed_for_spec in Hc. tauto.
Qed.

(** C8, amended: a [get_session_history] that returns lists sessions of
    the room with a non-null [end_time] only, the latest [start_time]
    first (the start times being comparable floats), and at most [limit]
    of them when [limit] is not negative.  For a session that
    [end_session] has closed, in any state a run of calls reaches from
    there, the entry holds the [end_time], the [total_gift_count] and
    the [gift_user_count] written and the [total_gift_value] written,
    or [None] if that was NaN; its summary is the summary written, with
    lists in place of its tuples, the unique users in the order they
    were written in (the ranking of the users being the one written
    when their sums are comparable); the session is in the list when
    the limit leaves room for all. *)
Theorem session_history_closed_sorted (st : State F) (room limit : Z)
    (hist : list (history.entry F)) :
  fst (SessionStore.get_session_history room limit st) = Returned hist →
  (∀ e, e ∈ hist → history.room_id e = room ∧ history.end_time e ≠ None) ∧
  (weak_order_on f_ltb (sessions.start_time <$> sessions_rows (db st)) →
   StronglySorted
     (λ a b, f_ltb (history.start_time a) (history.start_time b) = false) hist) ∧
  (0 ≤ limit → Z.of_nat (length hist) ≤ limit) ∧
  (∀ (st0 st1 : State F) (now : F) (stats : SessionStats F) (calls : list call),
     reachable st0 →
     SessionStore.end_session now room st0 = (Returned (Some stats), st1) →
     st = after_all calls st1 →
     (∀ e, e ∈ hist → Some (history.id e) = session_id stats →
        (weak_order_on f_ltb (snd <$> user_totals (gifts stats)) →
         history.summary e
         = Some (tuples_to_lists (SessionStore.summary_of stats))) ∧
        history.end_time e = Some now ∧
        history.total_gift_count e = total_gift_count stats ∧
        history.total_gift_value e
        = (if f_is_nan (total_gift_value stats) then None
           else Some (total_gift_value stats)) ∧
        history.gift_user_count e = gift_user_count stats) ∧
     (limit < 0 ∨
      Z.of_nat (length (filter (λ r, sessions.room_id r = room ∧
                                     sessions.end_time r ≠ None)
                          (sessions_rows (db st)))) ≤ limit →
      ∃ e, e ∈ hist ∧ Some (history.id e) = session_id stats)).
Proof.
  intros Hrun.
  pose proof (get_session_history_cases room limit st) as Hc.
  destruct (SessionStore.get_session_history room limit st) as [r st2].
  cbn [fst] in Hrun. subst r. destruct Hc as (_ & _ & _ & Hhist & _).
  specialize (Hhist hist eq_refl). subst hist.
  split; [|split; [|split]].
  - intros e. rewrite list_elem_of_fmap. intros (r & -> & Hr).
    apply elem_of_select_history in Hr. cbn. tauto.
  - intros Hw.
    apply StronglySorted_fmap with (R1 := not_below f_ltb sessions.start_time);
      [done|].
    unfold SessionStore.select_history.
    destruct (sql_limit_prefix limit
                (sorted_desc f_ltb sessions.start_time
                   (filter (λ r, SessionStore.closed_for room r)
                      (sessions_rows (db st))))) as [rest Hrest].
    eapply StronglySorted_app_1_l. rewrite <- Hrest.
    apply sorted_desc_sorted. eapply weak_order_on_sub; [|exact Hw].
    intros a. rewrite !list_elem_of_fmap. intros (r & -> & Hr).
    apply list_elem_of_filter in Hr as [_ Hr]. eauto.
  - intros Hlimit. rewrite length_fmap.
    unfold SessionStore.select_history, SessionStore.sql_limit.
    rewrite (proj2 (Z.ltb_ge limit 0)) by done. rewrite length_take. lia.
  - intros st0 st1 now stats calls Hst0 Hend ->.
    pose proof (end_session_cases now room st0) as Hc. rewrite Hend in Hc.
    destruct (active_id room st0) as [[sid stats0]|] eqn:Hid;
      [|by destruct Hc as ([=] & _)].
    cbn zeta in Hc. destruct Hc as (Ha & [= ->] & Hdb & Hcm & _).
    apply active_id_Some in Hid as [Hlook Hsid].
    rewrite update_finalize_eq in Hdb.
    destruct (reachable_invariant st0 Hst0) as [(_ & Hids0 & _ & Hact) _].
    destruct (Hact room stats0 Hlook) as (r0 & Hr0 & Hsid0 & Hroom0).
    assert (Hsid' : sid = sessions.id r0) by congruence.
    set (r := SessionStore.finalize_row now (f_sub now (start_time stats0))
                (SessionStore.finished stats0)
                (json_dumps (SessionStore.summary_of (SessionStore.finished stats0)))
                r0).
    assert (Hr1 : r ∈ sessions_rows (db st1)).
    { rewrite Hdb, elem_of_update. exists r0. split; [done|].
      by rewrite decide_True by done. }
    assert (Hst1 : reachable st1).
    { replace st1 with (after (EndSession now room) st0); [by constructor|].
      cbn. by rewrite Hend. }
    assert (Hset : settled r st1).
    { split; [done|]. split; [by rewrite Hcm|]. split; [done|].
      intros room' s. rewrite Ha, lookup_delete. case_decide as Hne; [done|].
      intros Hs Hsome. destruct (Hact room' s Hs) as (r' & Hr' & Hsr' & Hroom').
      apply Hne. assert (r' = r0); [|by subst].
      eapply ids_ok_unique; [exact Hids0|done|done|]. cbn in Hsome. congruence. }
    pose proof (settled_after_all calls r st1 Hst1 Hset) as (Hr & _).
    pose proof (reachable_invariant _ (reachable_after_all calls st1 Hst1))
      as [(_ & Hids & _) _].
    split.
    + intros e. rewrite list_elem_of_fmap. intros (r' & -> & Hr').
      apply elem_of_select_history in Hr' as (Hr' & _).
      cbn [SessionStore.entry_of_row history.id SessionStore.finished session_id].
      rewrite Hsid. intros [= Hrid].
      assert (r' = r) by (eapply ids_ok_unique; [exact Hids|done|done|];
                          cbn; congruence).
      subst r'. unfold r, SessionStore.entry_of_row, SessionStore.finalize_row, sql_real.
      cbn [history.summary history.total_gift_count history.total_gift_value
           history.gift_user_count history.end_time sessions.summary_json
           sessions.total_gift_count sessions.total_gift_value
           sessions.gift_user_count sessions.end_time
           fmap option_fmap option_map].
      by rewrite json_roundtrip.
    + intros Hroom.
      assert (Hrf : r ∈ filter (λ r, SessionStore.closed_for room r)
                          (sessions_rows (db (after_all calls st1)))).
      { apply list_elem_of_filter. split; [by apply closed_for_spec|done]. }
      exists (SessionStore.entry_of_row r). split.
      * apply list_elem_of_fmap_2.
        unfold SessionStore.select_history, SessionStore.sql_limit.
        destruct (limit <? 0) eqn:Hneg; [by rewrite sorted_desc_perm|].
        apply Z.ltb_ge in Hneg. destruct Hroom as [Hlt|Hroom]; [lia|].
        rewrite take_ge; [by rewrite sorted_desc_perm|].
        rewrite sorted_desc_length.
        erewrite (list_filter_iff _ (λ r, sessions.room_id r = room ∧
                                          sessions.end_time r ≠ None)); [lia|].
        intros x. by rewrite closed_for_spec.
      * cbn. by rewrite Hsid, Hsid'.
Qed.

End History.

(** ** The theorems at work on the run *)

(** The run of room 42, whatever the order of the sets. *)
Section Scenario.
Import PrimFloat.
Context `{PyHash}.

(** C3: on a new store, [start_session(42)] gives session 1; after the
    gifts of Alice (3 at 1.0) and Bob (1 at 50.0), [end_session(42)]
    returns an aggregate with [total_gift_count = 4],
    [total_gift_value = 53.0], [gift_user_count = 2] and
    [get_top_users(5) = [("Bob", 50.0), ("Alice", 3.0)]], whatever the
    clock readings. *)
Theorem scenario_room_42 (t0 t1 t2 t3 : PrimFloat.float) :
  let st0 := snd (SessionStore.__init__ (blank [])) in
  let r1 := SessionStore.start_session t0 42 st0 in
  let r2 := SessionStore.add_gift t1 42 "Alice" "u1" "g1" "Rose" 3 1.0%float (snd r1) in
  let r3 := SessionStore.add_gift t2 42 "Bob" "u2" "g2" "Rocket" 1 50.0%float (snd r2) in
  let r4 := SessionStore.end_session t3 42 (snd r3) in
  (∃ s, fst r1 = Returned s ∧ session_id s = Some 1) ∧
  fst r2 = Returned true ∧
  fst r3 = Returned true ∧
  ∃ stats, fst r4 = Returned (Some stats) ∧
    total_gift_count stats = 4 ∧
    total_gift_value stats = 53.0%float ∧
    gift_user_count stats = 2 ∧
    SessionStats.get_top_users 5 stats = [("Bob", 50.0%float); ("Alice", 3.0%float)].
Proof.
  cbn zeta. split; [|split; [|split]].
  - eexists. split; vm_compute; reflexivity.
  - vm_compute. reflexivity.
  - vm_compute. reflexivity.
  - eexists. split; [vm_compute; reflexivity|].
    repeat split; vm_compute; reflexivity.
Qed.

End Scenario.

Section Room42Checks.
Import PrimFloat.
#[local] Existing Instance elements_order.


Lemma reachable_live : reachable live.
Proof. unfold live, booted. repeat constructor. Qed.

Lemma reachable_gifted : reachable gifted.
Proof. unfold gifted. do 2 constructor. apply reachable_live. Qed.

Lemma at_most_one_open_session_witness :
  reachable live ∧
  (length (filter (λ r, sessions.room_id r = 42%Z ∧ sessions.end_time r = None)
             (sessions_rows (db live))) ≤ 1)%nat.
Proof.
  split; [apply reachable_live|].
  exact (at_most_one_open_session live 42 reachable_live).
Defined.




Lemma force_close_keeps_aggregates_witness :
  let old := SessionStore.new_session_row 1 42 1000%float in
  let stats := SessionStats.new (Some 2) 42 3000%float in
  let calls :=
    [AddGift 3001%float 42 "Carol" "u3" "g1" "Rose" 2 1.0%float;
     EndSession 4000%float 42] in
  let closed :=
    {| sessions.id := 1; sessions.room_id := 42;
       sessions.start_time := 1000%float; sessions.end_time := Some 3000%float;
       sessions.duration := f_sub 3000%float 1000%float;
       sessions.total_gift_count := 0;
       sessions.total_gift_value := Some (f_of_int 0);
       sessions.gift_user_count := 0; sessions.summary_json := None |} in
  reachable gifted ∧
  old ∈ sessions_rows (db gifted) ∧
  sessions.room_id old = 42 ∧
  sessions.end_time old = None ∧
  SessionStore.start_session 3000%float 42 gifted = (Returned stats, restarted) ∧
  total_gift_count <$> (active_sessions gifted !! 42) = Some 4 ∧
  closed ∈ sessions_rows (db (after_all calls restarted)) ∧
  ∀ r, r ∈ sessions_rows (db (after_all calls restarted)) →
       sessions.id r = 1 → r = closed.
Proof.
  cbn zeta.
  assert (Hin : SessionStore.new_session_row 1 42 1000%float
                ∈ sessions_rows (db gifted))
    by (vm_compute; apply list_elem_of_here).
  assert (Hroom : sessions.room_id (SessionStore.new_session_row 1 42 1000%float) = 42)
    by reflexivity.
  assert (Hopen : sessions.end_time (SessionStore.new_session_row 1 42 1000%float) = None)
    by reflexivity.
  assert (Hrun : SessionStore.start_session 3000%float 42 gifted
                 = (Returned (SessionStats.new (Some 2) 42 3000%float), restarted))
    by (vm_compute; reflexivity).
  destruct (force_close_keeps_aggregates gifted 3000%float 42
              (SessionStore.new_session_row 1 42 1000%float)
              reachable_gifted Hin Hroom Hopen) as (_ & _ & Hnever).
  destruct (Hnever (SessionStats.new (Some 2) 42 3000%float) restarted
              [AddGift 3001%float 42 "Carol" "u3" "g1" "Rose" 2 1.0%float;
               EndSession 4000%float 42] Hrun) as (Hrow & Honly).
  split; [exact reachable_gifted|]. split; [exact Hin|].
  split; [exact Hroom|]. split; [exact Hopen|]. split; [exact Hrun|].
  split; [vm_compute; reflexivity|]. split; [exact Hrow|exact Honly].
Defined.

Lemma session_history_closed_sorted_witness :
  let stats := SessionStore.finished two_gifts in
  let calls := [GetActiveSession 42; Close] in
  let st := after_all calls ended in
  fst (SessionStore.get_session_history 42 10 st) = Returned history_42 ∧
  weak_order_on f_ltb (sessions.start_time <$> sessions_rows (db st)) ∧
  reachable gifted ∧
  SessionStore.end_session 2000%float 42 gifted = (Returned (Some stats), ended) ∧
  weak_order_on f_ltb (snd <$> user_totals (gifts stats)) ∧
  (∀ e, e ∈ history_42 → history.room_id e = 42 ∧ history.end_time e ≠ None) ∧
  StronglySorted
    (λ a b, f_ltb (history.start_time a) (history.start_time b) = false)
    history_42 ∧
  Z.of_nat (length history_42) ≤ 10 ∧
  (∀ e, e ∈ history_42 → Some (history.id e) = session_id stats →
     history.summary e = Some (tuples_to_lists (SessionStore.summary_of stats)) ∧
     history.end_time e = Some 2000%float ∧
     history.total_gift_count e = 4 ∧
     history.total_gift_value e = Some 53.0%float ∧
     history.gift_user_count e = 2) ∧
  ∃ e, e ∈ history_42 ∧ Some (history.id e) = session_id stats.
Proof.
  cbn zeta.
  assert (Hrun : fst (SessionStore.get_session_history 42 10
                        (after_all [GetActiveSession 42; Close] ended))
                 = Returned history_42) by (vm_compute; reflexivity).
  assert (Hlimit : 0 ≤ 10) by lia.
  assert (Hw : weak_order_on f_ltb
                 (sessions.start_time
                  <$> sessions_rows (db (after_all [GetActiveSession 42; Close] ended))))
    by (apply weak_order_onb_sound; vm_compute; reflexivity).
  assert (Hwu : weak_order_on f_ltb
                  (snd <$> user_totals (gifts (SessionStore.finished two_gifts))))
    by (apply weak_order_onb_sound; vm_compute; reflexivity).
  assert (Hend : SessionStore.end_session 2000%float 42 gifted
                 = (Returned (Some (SessionStore.finished two_gifts)), ended))
    by (vm_compute; reflexivity).
  destruct (session_history_closed_sorted
              (after_all [GetActiveSession 42; Close] ended) 42 10 history_42 Hrun)
    as (Hclosed & Hsorted & Hlen & Hsum).
  destruct (Hsum gifted ended 2000%float (SessionStore.finished two_gifts)
              [GetActiveSession 42; Close] reachable_gifted Hend eq_refl)
    as (Hback & Hin).
  split; [exact Hrun|]. split; [exact Hw|]. split; [exact reachable_gifted|].
  split; [exact Hend|]. split; [exact Hwu|].
  split; [exact Hclosed|]. split; [exact (Hsorted Hw)|].
  split; [exact (Hlen Hlimit)|].
  split.
  - intros e He Hid. destruct (Hback e He Hid) as (Hs & Ht & Hc & Hv & Hu).
    split; [exact (Hs Hwu)|]. split; [exact Ht|]. split; [exact Hc|].
    split; [exact Hv|exact Hu].
  - apply Hin. right. vm_compute. discriminate.
Defined.

(** A negative limit puts no bound on the list, and the summary read
    back holds lists where the summary written holds tuples. *)
Lemma history_limit_and_tuples :
  let stats := SessionStore.finished two_gifts in
  (∃ hist, fst (SessionStore.get_session_history 42 (-1) ended) = Returned hist ∧
     ¬ (Z.of_nat (length hist) ≤ -1)) ∧
  SessionStore.end_session 2000%float 42 gifted = (Returned (Some stats), ended) ∧
  fst (SessionStore.get_session_history 42 10 ended) = Returned history_42 ∧
  ∃ e, e ∈ history_42 ∧ Some (history.id e) = session_id stats ∧
    history.summary e ≠ Some (SessionStore.summary_of stats).
Proof.
  cbn zeta. split; [|split; [|split]].
  - eexists. split; [vm_compute; reflexivity|]. cbn. lia.
  - vm_compute. reflexivity.
  - vm_compute. reflexivity.
  - exists (SessionStore.entry_of_row
              (SessionStore.finalize_row 2000%float (f_sub 2000%float 1000%float)
                 (SessionStore.finished two_gifts)
                 (json_dumps (SessionStore.summary_of (SessionStore.finished two_gifts)))
                 (SessionStore.new_session_row 1 42 1000%float))).
    split; [vm_compute; apply list_elem_of_here|].
    split; [vm_compute; reflexivity|].
    vm_compute. discriminate.
Qed.

(** A restart on IEEE doubles: the law of the subtraction holds of them. *)
Lemma start_session_closes_stale_witness :
  let old := SessionStore.new_session_row 1 42 1000%float in
  let stats := SessionStats.new (Some 2) 42 3000%float in
  reachable gifted ∧
  old ∈ sessions_rows (db gifted) ∧
  sessions.room_id old = 42 ∧
  sessions.end_time old = None ∧
  SessionStore.start_session 3000%float 42 gifted = (Returned stats, restarted) ∧
  f_ltb 3000%float (sessions.start_time old) = false ∧
  (∀ a b : PrimFloat.float,
     f_ltb a b = false → f_ltb (f_sub a b) (f_of_int 0) = false) ∧
  (∃ closed, closed ∈ sessions_rows (db restarted) ∧
     (∀ r, r ∈ sessions_rows (db restarted) →
           sessions.id r = sessions.id old → r = closed) ∧
     sessions.id closed = sessions.id old ∧
     sessions.room_id closed = 42 ∧
     sessions.start_time closed = sessions.start_time old ∧
     sessions.end_time closed = Some 3000%float ∧
     sessions.duration closed = f_sub 3000%float (sessions.start_time closed) ∧
     f_ltb (sessions.duration closed) (f_of_int 0) = false) ∧
  (∃ d1, db restarted = SessionStore.insert_session 42 3000%float d1 ∧
     filter (λ r, sessions.room_id r = 42 ∧ sessions.end_time r = None)
       (sessions_rows d1) = []) ∧
  (∃ new_id, session_id stats = Some new_id ∧ new_id ≠ sessions.id old ∧
     filter (λ r, sessions.room_id r = 42 ∧ sessions.end_time r = None)
       (sessions_rows (db restarted))
     = [SessionStore.new_session_row new_id 42 3000%float]).
Proof.
  cbn zeta.
  assert (Hin : SessionStore.new_session_row 1 42 1000%float
                ∈ sessions_rows (db gifted))
    by (vm_compute; apply list_elem_of_here).
  assert (Hroom : sessions.room_id (SessionStore.new_session_row 1 42 1000%float) = 42)
    by reflexivity.
  assert (Hopen : sessions.end_time (SessionStore.new_session_row 1 42 1000%float) = None)
    by reflexivity.
  assert (Hrun : SessionStore.start_session 3000%float 42 gifted
                 = (Returned (SessionStats.new (Some 2) 42 3000%float), restarted))
    by (vm_compute; reflexivity).
  assert (Hclock : f_ltb 3000%float
                     (sessions.start_time
                        (SessionStore.new_session_row 1 42 1000%float)) = false)
    by (vm_compute; reflexivity).
  assert (Hsub : ∀ a b : PrimFloat.float,
            f_ltb a b = false → f_ltb (f_sub a b) (f_of_int 0) = false)
    by exact binary64_sub_not_below.
  destruct (start_session_closes_stale gifted restarted 3000%float 42
              (SessionStore.new_session_row 1 42 1000%float)
              (SessionStats.new (Some 2) 42 3000%float)
              reachable_gifted Hin Hroom Hopen Hrun)
    as ((closed & H1 & H2 & H3 & H4 & H5 & H6 & H7 & H8) & Hbefore & Hnew).
  split; [exact reachable_gifted|]. split; [exact Hin|]. split; [exact Hroom|].
  split; [exact Hopen|]. split; [exact Hrun|]. split; [exact Hclock|].
  split; [exact Hsub|].
  split; [exists closed; repeat split;
          [exact H1|exact H2|exact H3|exact H4|exact H5|exact H6|exact H7|
           exact (H8 Hclock Hsub)]|].
  split; [exact Hbefore|exact Hnew].
Defined.

(** The clock can step back between two readings: the session that
    started at 1000.0 is closed at 999.5 with a duration below zero. *)
Lemma clock_steps_back :
  let old := SessionStore.new_session_row 1 42 1000%float in
  let r := SessionStore.start_session 999.5%float 42 live in
  reachable live ∧
  old ∈ sessions_rows (db live) ∧ sessions.end_time old = None ∧
  fst r = Returned (SessionStats.new (Some 2) 42 999.5%float) ∧
  ∃ closed, closed ∈ sessions_rows (db (snd r)) ∧
    sessions.id closed = 1 ∧
    sessions.start_time closed = 1000%float ∧
    sessions.end_time closed = Some 999.5%float ∧
    sessions.duration closed = (-0.5)%float ∧
    f_ltb (sessions.duration closed) (f_of_int 0) = true.
Proof.
  cbn zeta. split; [apply reachable_live|].
  split; [vm_compute; apply list_elem_of_here|]. split; [reflexivity|].
  split; [vm_compute; reflexivity|].
  exists (SessionStore.force_close_row 999.5%float
            (SessionStore.new_session_row 1 42 1000%float)).
  split; [vm_compute; apply list_elem_of_here|].
  repeat split; vm_compute; reflexivity.
Qed.

(** A count beyond the double range: [add_gift] raises after it has
    appended the event and added the count, and the value total misses
    the event; so does the store's [add_gift], which leaves the
    aggregate registered that way and inserts no row. *)
Lemma add_gift_count_overflow :
  let s0 := SessionStats.new (Some 1) 42 1000%float in
  let r := SessionStats.add_gift huge_gift s0 in
  let r' := SessionStore.add_gift 1003%float 42 "Carol" "u3" "g3" "Star" (2 ^ 1024)
              1.0%float live in
  fst r = Raised OverflowError ∧
  gifts (snd r) = [huge_gift] ∧
  total_gift_count (snd r) = 2 ^ 1024 ∧
  total_gift_value (snd r) = f_of_int 0 ∧
  snd r = add_gifts [huge_gift] s0 ∧
  reachable live ∧
  fst r' = Raised OverflowError ∧
  active_sessions (snd r') !! 42 = Some (snd r) ∧
  db (snd r') = db live.
Proof.
  cbn zeta. split; [vm_compute; reflexivity|].
  split; [vm_compute; reflexivity|]. split; [vm_compute; reflexivity|].
  split; [vm_compute; reflexivity|]. split; [reflexivity|].
  split; [apply reachable_live|].
  split; [vm_compute; reflexivity|].
  split; vm_compute; reflexivity.
Qed.

Lemma reachable_gifted_then_failing : reachable gifted_then_failing.
Proof. unfold gifted_then_failing. repeat constructor. Qed.

(** When the [INSERT] of [start_session] fails after the force-close,
    the aggregate of the stale session stays registered, and
    [end_session] then writes its totals and a summary to the row that
    was force-closed. *)
Lemma stale_aggregate_finalised :
  let old := SessionStore.new_session_row 1 42 1000%float in
  let r := SessionStore.start_session 3000%float 42 gifted_then_failing in
  let r' := SessionStore.end_session 4000%float 42 (snd r) in
  reachable gifted_then_failing ∧
  old ∈ sessions_rows (db gifted_then_failing) ∧
  sessions.room_id old = 42 ∧ sessions.end_time old = None ∧
  fst r = Raised sqlite3_Error ∧
  SessionStore.force_close_row 3000%float old ∈ sessions_rows (db (snd r)) ∧
  active_sessions (snd r) !! 42 = Some two_gifts ∧
  fst r' = Returned (Some (SessionStore.finished two_gifts)) ∧
  ∃ row, sessions_rows (db (snd r')) = [row] ∧
    sessions.id row = 1 ∧
    sessions.end_time row = Some 4000%float ∧
    sessions.total_gift_count row = 4 ∧
    sessions.total_gift_value row = Some 53.0%float ∧
    sessions.gift_user_count row = 2 ∧
    sessions.summary_json row
    = Some (json_dumps (SessionStore.summary_of (SessionStore.finished two_gifts))).
Proof.
  cbn zeta. split; [apply reachable_gifted_then_failing|].
  split; [vm_compute; apply list_elem_of_here|].
  split; [reflexivity|]. split; [reflexivity|].
  split; [vm_compute; reflexivity|].
  split; [vm_compute; apply list_elem_of_here|].
  split; [vm_compute; reflexivity|].
  split; [vm_compute; reflexivity|].
  eexists. split; [vm_compute; reflexivity|].
  repeat split; vm_compute; reflexivity.
Qed.

End Room42Checks.


(** ** [GiftEvent] as a dictionary: the round trip *)

Section GiftEventDict.
Context {F : Type} `{PyFloat F} `{PyHash}.

Lemma dict_get_set_ne {V : Type} (d : list (string * V)) (k k' : string)
    (v default : V) :
  k ≠ k' → dict_get (dict_set d k v) k' default = dict_get d k' default.
Proof.
  intros Hne. induction d as [|[k0 v0] d IH]; cbn [dict_set dict_get].
  - by rewrite decide_False by done.
  - destruct (decide (k0 = k)) as [->|Hk0]; cbn [dict_get].
    + by rewrite !decide_False by done.
    + by rewrite IH.
Qed.


End GiftEventDict.

Section GiftEventDefaults.
Context {F : Type} `{PyFloat F} `{PyHash}.

(** X2: [from_dict] takes from the dictionary what it holds for the
    seven field names and nothing else.  Each field is the value under
    its name, or its default when the name is missing ([0.0] for
    [timestamp] and [gift_value], [0] for [gift_count], the empty string
    for the others); a key that is not a field name changes nothing. *)
Theorem gift_event_from_dict_defaults (d : list (string * pyval F)) :
  GiftEvent.from_dict ([] : list (string * pyval F))
  = {| raw.timestamp := PyFloatV (f_of_int 0); raw.user_name := PyStr "";
       raw.user_id := PyStr ""; raw.gift_id := PyStr "";
       raw.gift_name := PyStr ""; raw.gift_count := PyInt 0;
       raw.gift_value := PyFloatV (f_of_int 0) |} ∧
  (∀ k x, k ∈ GiftEvent.field_names →
     dict_get (GiftEvent.to_dict (GiftEvent.from_dict d)) k x
     = dict_get d k (dict_get (GiftEvent.to_dict (GiftEvent.from_dict [])) k x)) ∧
  (∀ k v, k ∉ GiftEvent.field_names →
     GiftEvent.from_dict (dict_set d k v) = GiftEvent.from_dict d).
Proof.
  split; [done|]. split.
  - intros k x Hk. unfold GiftEvent.field_names in Hk.
    repeat (apply elem_of_cons in Hk as [->|Hk]; [reflexivity|]).
    by apply elem_of_nil in Hk.
  - intros k v Hk. unfold GiftEvent.field_names in Hk.
    rewrite !not_elem_of_cons in Hk.
    unfold GiftEvent.from_dict. rewrite !dict_get_set_ne by tauto. done.
Qed.

End GiftEventDefaults.

(** ** The views: how much they list *)

Lemma sum_Z_app (l1 l2 : list Z) : sum_Z (l1 ++ l2) = sum_Z l1 + sum_Z l2.
Proof. unfold sum_Z. induction l1 as [|x l1 IH]; cbn; [done|]. rewrite IH. lia. Qed.

Lemma sum_Z_perm (l1 l2 : list Z) : l1 ≡ₚ l2 → sum_Z l1 = sum_Z l2.
Proof. unfold sum_Z. induction 1; cbn; lia. Qed.

Lemma sum_Z_prefix (l1 l2 : list Z) :
  Forall (λ x, 0 ≤ x) l2 → l1 `prefix_of` l2 → sum_Z l1 ≤ sum_Z l2.
Proof.
  intros Hpos [rest ->]. rewrite sum_Z_app.
  apply Forall_app in Hpos as [_ Hrest].
  assert (0 ≤ sum_Z rest); [|lia].
  unfold sum_Z. induction Hrest; cbn; lia.
Qed.

Lemma slice_to_all {A : Type} (limit : Z) (l : list A) :
  Z.of_nat (length l) ≤ limit → slice_to limit l = l.
Proof.
  intros Hl. rewrite slice_to_nonneg by lia. apply take_ge. lia.
Qed.


Lemma dict_set_sum {K : Type} `{EqDecision K} (d : list (K * Z)) (k : K) (c : Z) :
  sum_Z ((dict_set d k (dict_get d k 0 + c)).*2) = sum_Z (d.*2) + c.
Proof.
  unfold sum_Z. induction d as [|[k' v] d IH]; cbn [dict_set dict_get]; [cbn; lia|].
  destruct (decide (k' = k)); cbn [fmap list_fmap foldr snd] in *; [lia|].
  rewrite IH. lia.
Qed.

Lemma size_first_seen `{Countable K} (ks : list K) :
  length (first_seen ks) = size (list_to_set ks : gset K).
Proof.
  rewrite <- (size_list_to_set (C := gset K) (first_seen ks)) by apply NoDup_first_seen.
  f_equal. apply set_eq. intros k. by rewrite !elem_of_list_to_set, elem_of_first_seen.
Qed.

Section ViewsSize.
Context {F : Type} `{PyFloat F} `{PyHash}.


Lemma aggregate_count_sum {K : Type} `{EqDecision K}
    (key : GiftEvent F → K) (log : list (GiftEvent F)) :
  sum_Z ((SessionStats.aggregate key (λ n g, n + gift_count g) 0 log).*2)
  = sum_Z (gift_count <$> log).
Proof.
  induction log as [|g log IH] using rev_ind; [done|].
  unfold SessionStats.aggregate in *. rewrite foldl_app. cbn [foldl].
  rewrite dict_set_sum, IH, fmap_app, sum_Z_app. cbn. lia.
Qed.

End ViewsSize.

Section ViewsCover.
Context {F : Type} `{PyFloat F} `{PyHash}.






Lemma gift_totals_counts (log : list (GiftEvent F)) :
  (gift_totals log).*2
  = (SessionStats.aggregate (λ g, (user_name g, gift_name g))
       (λ n g, n + gift_count g) 0 log).*2.
Proof.
  rewrite aggregate_group_by, <- gift_totals_group_by, <- list_fmap_compose.
  apply list_fmap_ext. by intros i [[u g] n] _.
Qed.

(** X5: on an aggregate built by [add_gift], the counts [get_top_gifts]
    lists add up to [total_gift_count] when the limit leaves out no
    group, and to no more than [total_gift_count] for every limit when
    no event has a negative count. *)
Theorem top_gifts_counts_add_up (limit : Z) (sid : option Z) (room : Z) (now : F)
    (events : list (GiftEvent F)) :
  let s := add_gifts events (SessionStats.new sid room now) in
  (Z.of_nat (size (gift_groups events)) ≤ limit →
   sum_Z ((SessionStats.get_top_gifts limit s).*2) = total_gift_count s) ∧
  ((∀ g, g ∈ events → 0 ≤ gift_count g) →
   sum_Z ((SessionStats.get_top_gifts limit s).*2) ≤ total_gift_count s).
Proof.
  cbn zeta.
  destruct (add_gifts_from events (SessionStats.new sid room now))
    as (Hg & Hc & _).
  cbn in Hg, Hc. rewrite Hc, get_top_gifts_sorted, Hg.
  assert (Hsum : sum_Z (sorted_desc Z.ltb snd (gift_totals events)).*2
                 = sum_Z (gift_count <$> events)).
  { rewrite (sum_Z_perm _ ((gift_totals events).*2))
      by (by rewrite sorted_desc_perm).
    by rewrite gift_totals_counts, aggregate_count_sum. }
  split.
  - intros Hlimit. rewrite slice_to_all; [done|].
    rewrite sorted_desc_length. unfold gift_totals, gift_groups in *.
    by rewrite length_fmap, size_first_seen.
  - intros Hpos. rewrite <- Hsum.
    destruct (slice_to_prefix limit (sorted_desc Z.ltb snd (gift_totals events)))
      as [rest Hrest].
    apply sum_Z_prefix; [|rewrite Hrest at 2; rewrite fmap_app; by eexists].
    rewrite sorted_desc_perm. unfold gift_totals. rewrite <- list_fmap_compose.
    apply Forall_fmap, Forall_forall. intros k _. cbn.
    assert (Hall : Forall (λ x, 0 ≤ x)
              (gift_count <$> filter (λ g, (user_name g, gift_name g) = k) events)).
    { apply Forall_fmap, Forall_forall. intros g Hg'.
      apply list_elem_of_filter in Hg' as [_ Hg']. cbn. by apply Hpos. }
    unfold sum_Z. induction Hall; cbn; lia.
Qed.

(** X6: the summary [end_session] writes is a dictionary with the keys
    [top_gifts], [top_users] and [unique_users], in this order, each
    with a list: at most five top gifts, at most five top users, and
    the users of the log, each of them once, as many as the
    [gift_user_count] that [end_session] returns and writes. *)
Theorem summary_shape (stats : SessionStats F) :
  ∃ (top_gifts top_users : list (pyval F)) (unique_users : list string),
    SessionStore.summary_of (SessionStore.finished stats)
    = PyDict [("top_gifts", PyList top_gifts); ("top_users", PyList top_users);
              ("unique_users", PyList (PyStr <$> unique_users))] ∧
    (length top_gifts ≤ 5)%nat ∧ (length top_users ≤ 5)%nat ∧
    NoDup unique_users ∧
    (∀ u, u ∈ unique_users ↔ u ∈ user_name <$> gifts stats) ∧
    gift_user_count (SessionStore.finished stats) = Z.of_nat (length unique_users).
Proof.
  eexists _, _, _. split; [reflexivity|].
  rewrite !length_fmap, get_top_gifts_sorted, get_top_users_sorted.
  cbn [SessionStore.finished gifts].
  pose proof (slice_to_length 5 (sorted_desc Z.ltb snd (gift_totals (gifts stats)))).
  pose proof (slice_to_length 5 (sorted_desc f_ltb snd (user_totals (gifts stats)))).
  split; [lia|]. split; [lia|].
  split; [apply list_of_set_NoDup|]. split; [apply list_of_set_elem|].
  cbn [SessionStore.finished gift_user_count]. unfold SessionStats.get_unique_users.
  rewrite <- (size_list_to_set (C := gset string)
                (list_of_set (user_name <$> gifts stats)))
    by apply list_of_set_NoDup.
  do 2 f_equal. apply set_eq. intros u.
  by rewrite !elem_of_list_to_set, list_of_set_elem.
Qed.

End ViewsCover.

(** ** The database only grows *)

Section Grows.
Context {F : Type} `{PyFloat F} `{PyHash}.

Lemma same_session_refl (r : sessions.row F) : same_session r r.
Proof. by repeat split. Qed.

Lemma same_session_trans (r1 r2 r3 : sessions.row F) :
  same_session r1 r2 → same_session r2 r3 → same_session r1 r3.
Proof.
  intros (? & ? & ? & ?) (? & ? & ? & ?). repeat split; try congruence. auto.
Qed.

Lemma grows_refl (d : Database F) : grows d d.
Proof.
  split; [|split; [done|lia]]. intros i r Hr. exists r. split; [done|apply same_session_refl].
Qed.

Lemma grows_trans (d1 d2 d3 : Database F) : grows d1 d2 → grows d2 d3 → grows d1 d3.
Proof.
  intros (Hs1 & Hg1 & ? & ?) (Hs2 & Hg2 & ? & ?).
  split; [|split; [by etrans|lia]].
  intros i r Hr. destruct (Hs1 i r Hr) as (r' & Hr' & Hsame).
  destruct (Hs2 i r' Hr') as (r'' & Hr'' & Hsame').
  exists r''. split; [done|]. by eapply same_session_trans.
Qed.

Lemma grows_update (c : sessions.row F → sessions.row F) (id : Z) (d : Database F) :
  (∀ r, same_session r (c r)) → grows d (update_where_id c id d).
Proof.
  intros Hc. split; [|split; [done|cbn; lia]].
  intros i r Hr. cbn. rewrite list_lookup_fmap, Hr. cbn.
  eexists. split; [done|]. case_decide; [apply Hc|apply same_session_refl].
Qed.

Lemma same_session_force_close (now : F) (r : sessions.row F) :
  same_session r (SessionStore.force_close_row now r).
Proof. by repeat split. Qed.

Lemma same_session_finalize (now duration : F) (stats : SessionStats F) (j : json F)
    (r : sessions.row F) :
  same_session r (SessionStore.finalize_row now duration stats j r).
Proof. by repeat split. Qed.

Lemma grows_stale_closed (now : F) (room : Z) (d : Database F) :
  grows d (stale_closed now room d).
Proof.
  unfold stale_closed. destruct (SessionStore.select_open room d); [|apply grows_refl].
  rewrite update_force_close_eq. apply grows_update, same_session_force_close.
Qed.

Lemma grows_insert_session (room : Z) (now : F) (d : Database F) :
  grows d (SessionStore.insert_session room now d).
Proof.
  split; [|split; [done|cbn; lia]].
  intros i r Hr. exists r. split; [|apply same_session_refl].
  cbn. by apply lookup_app_l_Some.
Qed.

Lemma grows_insert_gift (sid : Z) (g : GiftEvent F) (d : Database F) :
  grows d (SessionStore.insert_gift sid g d).
Proof.
  split; [|split; [by eexists|cbn; lia]].
  intros i r Hr. exists r. split; [done|apply same_session_refl].
Qed.

Lemma grows_finalize (now duration : F) (stats : SessionStats F) (j : json F)
    (id : Z) (d : Database F) :
  grows d (SessionStore.update_finalize now duration stats j id d).
Proof. rewrite update_finalize_eq. apply grows_update, same_session_finalize. Qed.


(** The committed tables grow with every call, and the tables seen
    extend them. *)
Lemma pending_after (c : call) (st : State F) :
  grows (committed st) (db st) →
  grows (committed st) (committed (after c st)) ∧
  grows (committed (after c st)) (db (after c st)).
Proof.
  intros Hpend.
  destruct (after_cases c st)
    as [(Hdb & -> & _)
       |[(now & room & Hstart)
        |[(room & sid & stats & event & _ & _ & _ & Hdb & Hcm)
         |(now & room & sid & stats & j & _ & _ & _ & Hdb & Hcm)]]].
  - split; [apply grows_refl|]. destruct Hdb as [-> | ->]; [done|apply grows_refl].
  - cbn zeta in Hstart.
    assert (Hd1 : grows (committed st) (stale_closed now room (db st)))
      by (eapply grows_trans; [exact Hpend|apply grows_stale_closed]).
    assert (Hins : grows (committed st)
              (SessionStore.insert_session room now (stale_closed now room (db st))))
      by (eapply grows_trans; [exact Hd1|apply grows_insert_session]).
    destruct Hstart as [(_ & -> & [-> | ->]) | (_ & Hdb & ->)].
    + split; [apply grows_refl|done].
    + split; [apply grows_refl|done].
    + rewrite Hdb. split; [done|apply grows_refl].
  - assert (Hins : grows (committed st) (db (after c st)))
      by (rewrite Hdb; eapply grows_trans; [exact Hpend|apply grows_insert_gift]).
    destruct Hcm as [-> | ->]; split;
      [apply grows_refl|done|done|apply grows_refl].
  - assert (Hfin : grows (committed st) (db (after c st)))
      by (rewrite Hdb; eapply grows_trans; [exact Hpend|apply grows_finalize]).
    destruct Hcm as [-> | ->]; split;
      [apply grows_refl|done|done|apply grows_refl].
Qed.




End Grows.


(** ** The ledger: aggregates, gift rows and sessions agree *)

Section LedgerFacts.
Context {F : Type} `{PyFloat F} `{PyHash}.

Lemma elem_of_grows (d d' : Database F) (r : sessions.row F) :
  grows d d' → r ∈ sessions_rows d →
  ∃ r', r' ∈ sessions_rows d' ∧ same_session r r'.
Proof.
  intros (Hs & _) Hr. apply list_elem_of_lookup in Hr as [i Hi].
  destruct (Hs i r Hi) as (r' & Hr' & Hsame).
  exists r'. split; [|done]. apply list_elem_of_lookup. eauto.
Qed.

Lemma aggregate_ok_grows (d d' : Database F) (room : Z) (s : SessionStats F) :
  grows d d' → gifts_rows d' = gifts_rows d →
  aggregate_ok d room s → aggregate_ok d' room s.
Proof.
  intros Hgrow Hgifts (r & Hr & Hroom & Hs & Hrec).
  destruct (elem_of_grows d d' r Hgrow Hr) as (r' & Hr' & Hid & Hroom' & Hstart & _).
  exists r'. rewrite Hid, Hroom', Hstart. unfold recorded in *. by rewrite Hgifts.
Qed.

Lemma gifts_ok_grows (d d' : Database F) :
  grows d d' → gifts_rows d' = gifts_rows d → gifts_seq d' = gifts_seq d →
  gifts_ok d → gifts_ok d'.
Proof.
  intros Hgrow Hgifts Hseq (Hnd & Hle & Href). unfold gifts_ok.
  rewrite Hgifts, Hseq. split; [done|]. split; [done|].
  intros g Hg. destruct (Href g Hg) as (r & Hr & Hid).
  destruct (elem_of_grows d d' r Hgrow Hr) as (r' & Hr' & Hid' & _).
  exists r'. split; [done|]. congruence.
Qed.

Lemma event_of_row_inserted (sid id : Z) (g : GiftEvent F) :
  event_of_row
    {| gifts_table.id := id; gifts_table.session_id := sid;
       gifts_table.timestamp := timestamp g; gifts_table.user_name := user_name g;
       gifts_table.user_id := user_id g; gifts_table.gift_id := gift_id g;
       gifts_table.gift_name := gift_name g; gifts_table.gift_count := gift_count g;
       gifts_table.gift_value := gift_value g |} = g.
Proof. by destruct g. Qed.

Lemma recorded_insert_gift (sid sid' : Z) (g : GiftEvent F) (d : Database F) :
  recorded sid' (SessionStore.insert_gift sid g d)
  = recorded sid' d ++ if decide (sid = sid') then [g] else [].
Proof.
  unfold recorded. cbn [SessionStore.insert_gift gifts_rows].
  rewrite filter_app, fmap_app. f_equal.
  rewrite filter_cons, filter_nil. cbn [gifts_table.session_id].
  destruct (decide (sid = sid')); [|done].
  cbn [fmap list_fmap]. by rewrite event_of_row_inserted.
Qed.

Lemma aggregate_session_id (d : Database F) (room sid : Z) (s : SessionStats F)
    (r : sessions.row F) :
  s = add_gifts (gifts s)
        (SessionStats.new (Some (sessions.id r)) room (sessions.start_time r)) →
  session_id s = Some sid → sessions.id r = sid.
Proof.
  intros Hs Hsid. rewrite Hs in Hsid.
  destruct (add_gifts_from (gifts s)
              (SessionStats.new (Some (sessions.id r)) room (sessions.start_time r)))
    as (_ & _ & _ & Hid & _).
  rewrite Hid in Hsid. cbn in Hsid. congruence.
Qed.

Lemma gifts_ok_insert_gift (sid : Z) (g : GiftEvent F) (d : Database F)
    (r : sessions.row F) :
  r ∈ sessions_rows d → sessions.id r = sid →
  gifts_ok d → gifts_ok (SessionStore.insert_gift sid g d).
Proof.
  intros Hr Hid (Hnd & Hle & Href). split; [|split].
  - cbn. rewrite fmap_app. cbn. apply NoDup_app. split; [done|].
    split; [|apply NoDup_singleton].
    intros i Hi ->%list_elem_of_singleton.
    apply list_elem_of_fmap in Hi as (g' & Hg' & Hin).
    specialize (Hle g' Hin). lia.
  - intros g'. cbn. rewrite elem_of_app, list_elem_of_singleton.
    intros [Hin| ->]; [|cbn; lia]. specialize (Hle g' Hin). lia.
  - intros g'. cbn. rewrite elem_of_app, list_elem_of_singleton.
    intros [Hin| ->]; [by apply Href|]. by exists r.
Qed.

Lemma unsummarised_zero_update (c : sessions.row F → sessions.row F) (id : Z)
    (d : Database F) :
  (∀ r, sessions.summary_json (c r) = None →
        sessions.summary_json r = None ∧
        sessions.total_gift_count (c r) = sessions.total_gift_count r ∧
        sessions.total_gift_value (c r) = sessions.total_gift_value r ∧
        sessions.gift_user_count (c r) = sessions.gift_user_count r) →
  unsummarised_zero d → unsummarised_zero (update_where_id c id d).
Proof.
  intros Hc Hd r'. rewrite elem_of_update. intros (r & Hr & ->).
  case_decide; [|by apply Hd].
  intros Hnone. destruct (Hc r Hnone) as (Hs & -> & -> & ->). by apply Hd.
Qed.

Lemma unsummarised_zero_stale_closed (now : F) (room : Z) (d : Database F) :
  unsummarised_zero d → unsummarised_zero (stale_closed now room d).
Proof.
  intros Hd. unfold stale_closed. destruct (SessionStore.select_open room d); [|done].
  rewrite update_force_close_eq. by apply unsummarised_zero_update.
Qed.

Lemma unsummarised_zero_insert_session (room : Z) (now : F) (d : Database F) :
  unsummarised_zero d → unsummarised_zero (SessionStore.insert_session room now d).
Proof.
  intros Hd r. cbn. rewrite elem_of_app, list_elem_of_singleton.
  intros [Hin| ->]; [by apply Hd|done].
Qed.

Lemma stale_closed_gifts (now : F) (room : Z) (d : Database F) :
  gifts_rows (stale_closed now room d) = gifts_rows d ∧
  gifts_seq (stale_closed now room d) = gifts_seq d.
Proof. unfold stale_closed. by destruct (SessionStore.select_open room d). Qed.

(** No gift is recorded for an id not handed out yet. *)
Lemma recorded_fresh (d : Database F) (sid : Z) :
  ids_ok d → gifts_ok d → sessions_seq d < sid → recorded sid d = [].
Proof.
  intros [_ Hle] (_ & _ & Href) Hsid. unfold recorded.
  rewrite filter_none; [done|].
  intros g Hg Heq. destruct (Href g Hg) as (r & Hr & Hid).
  specialize (Hle r Hr). lia.
Qed.

Lemma aggregate_ok_add (d : Database F) (room : Z) (s : SessionStats F)
    (e : GiftEvent F) :
  aggregate_ok d room s → aggregate_ok d room (snd (SessionStats.add_gift e s)).
Proof.
  intros (r & Hr & Hroom & Hs & Hrec). exists r.
  destruct (add_gift_fields e s) as (Hg & _).
  split; [done|]. split; [done|]. rewrite Hg. split.
  - by rewrite add_gifts_snoc, <- Hs.
  - by apply sublist_inserts_r.
Qed.

Lemma books_of_step (d : Database F) (a a' : gmap Z (SessionStats F)) :
  registry_step a a' → books_of d a → books_of d a'.
Proof.
  intros Hstep (Hled & Hgifts & Hzero). split; [|done].
  intros room s' Hs'.
  destruct (Hstep room s' Hs') as (s & Hs & [-> | [e ->]]); [by apply Hled|].
  by apply aggregate_ok_add, Hled.
Qed.

Lemma books_of_after (c : call) (st : State F) :
  invariant st → books st →
  books_of (db (after c st)) (active_sessions (after c st)).
Proof.
  intros [(Hone & Hids & Hdef & Hact) _] ((Hled & Hgifts & Hzero) & Hcom & _).
  destruct (after_cases c st) as
    [([-> | ->] & _ & Hstep)
    |[(now & room & Hstart)
     |[(room & sid & stats & event & Hlook & Hsid & Ha & Hdb & _)
      |(now & room & sid & stats & j & Hlook & Hsid & Ha & Hdb & _)]]].
  - by eapply books_of_step.
  - by eapply books_of_step.
  - cbn zeta in Hstart.
    pose proof (grows_stale_closed now room (db st)) as Hg1.
    pose proof (stale_closed_gifts now room (db st)) as [Hg2 Hg3].
    assert (Hg4 : grows (db st)
              (SessionStore.insert_session room now (stale_closed now room (db st)))).
    { eapply grows_trans; [exact Hg1|apply grows_insert_session]. }
    assert (Hb1 : books_of (stale_closed now room (db st)) (active_sessions st)).
    { split; [|split].
      - intros room' s Hs. eapply aggregate_ok_grows; eauto.
      - by eapply gifts_ok_grows.
      - by apply unsummarised_zero_stale_closed. }
    assert (Hb2 : books_of (SessionStore.insert_session room now
                              (stale_closed now room (db st)))
                           (active_sessions st)).
    { split; [|split].
      - intros room' s Hs. eapply aggregate_ok_grows; eauto.
      - by eapply gifts_ok_grows.
      - by apply unsummarised_zero_insert_session, unsummarised_zero_stale_closed. }
    destruct Hstart as [(-> & _ & [-> | ->])|(-> & -> & _)]; [done|done|].
    destruct Hb2 as (Hb2 & Hb3 & Hb4). split; [|done].
    intros room' s. rewrite lookup_insert. case_decide as Hk; [|apply Hb2].
    intros [= <-]. subst room'.
    exists (SessionStore.new_session_row (sessions_seq (db st) + 1) room now).
    split; [|split; [done|split; [done|]]].
    + cbn. rewrite stale_closed_seq, elem_of_app, list_elem_of_singleton. auto.
    + cbn [SessionStore.new_session_row sessions.id SessionStats.new gifts].
      apply sublist_nil_r.
      unfold recorded. cbn [SessionStore.insert_session gifts_rows]. rewrite Hg2.
      apply (recorded_fresh (db st)); [done|done|lia].
  - destruct (Hled room stats Hlook) as (r & Hr & Hroom & Hs & Hrec).
    pose proof (aggregate_session_id (db st) room sid stats r Hs Hsid) as Hrid.
    rewrite Ha, Hdb. split; [|split].
    + intros room' s'. rewrite lookup_insert. case_decide as Hk.
      * intros [= <-]. subst room'.
        destruct (add_gift_fields event stats) as (Hg & _).
        exists r. split; [done|]. split; [done|]. rewrite Hg. split.
        -- by rewrite add_gifts_snoc, <- Hs.
        -- rewrite recorded_insert_gift, decide_True by done.
           by apply sublist_app.
      * intros Hs'. destruct (Hled room' s' Hs') as (r' & Hr' & Hroom' & Hs'' & Hrec').
        exists r'. split; [done|]. split; [done|]. split; [done|].
        rewrite recorded_insert_gift, decide_False; [by rewrite app_nil_r|].
        intros Heq. apply Hk. rewrite <- Hroom, <- Hroom'. f_equal.
        eapply ids_ok_unique; eauto. congruence.
    + by eapply gifts_ok_insert_gift.
    + done.
  - assert (Hgrow : grows (db st) (db (after c st)))
      by (rewrite Hdb; apply grows_finalize).
    rewrite Ha. rewrite Hdb in *. split; [|split].
    + intros room' s'. rewrite lookup_delete. case_decide; [done|].
      intros Hs'. eapply aggregate_ok_grows; eauto.
    + by eapply gifts_ok_grows.
    + rewrite update_finalize_eq. by apply unsummarised_zero_update.
Qed.

Lemma books_after (c : call) (st : State F) :
  invariant st → books st → books (after c st).
Proof.
  intros Hinv Hbooks. pose proof (books_of_after c st Hinv Hbooks) as Hdb.
  split; [done|]. split.
  - apply (committed_after books_of); [apply books_of_step|apply Hbooks|done].
  - apply pending_after, Hbooks.
Qed.

Lemma books_of_empty : books_of (empty_db : Database F) ∅.
Proof.
  split; [|split].
  - intros room s. by rewrite lookup_empty.
  - split; [constructor|]. split; intros g Hg; by apply elem_of_nil in Hg.
  - intros r Hr. by apply elem_of_nil in Hr.
Qed.

Lemma books_blank (faults : list bool) : books (blank faults : State F).
Proof. split; [apply books_of_empty|]. split; [apply books_of_empty|apply grows_refl]. Qed.

Lemma reachable_books (st : State F) : reachable st → books st.
Proof.
  induction 1 as [faults|c st Hst IH]; [apply books_blank|].
  apply books_after; [by apply reachable_invariant|done].
Qed.

End LedgerFacts.

(** ** Without failures *)

Section NoFault.
Context {F : Type} `{PyFloat F} `{PyHash}.

(** What a call does to a steady store: no call into SQLite fails and
    nothing is left uncommitted, before and after.  The call raises
    exactly when one of its [int]s is out of range, and the tables are
    then as they were. *)
Lemma after_no_fault (c : call) (st : State F) :
  steady st →
  steady (after c st) ∧
  log st `prefix_of` log (after c st) ∧
  match c with
  | Init =>
      raises c st = false ∧
      db (after c st) = db st ∧ active_sessions (after c st) = ∅
  | StartSession now room =>
      if sql_int_ok room
      then raises c st = false ∧
           active_sessions (after c st)
           = <[room := SessionStats.new (Some (sessions_seq (db st) + 1)) room now]>
               (active_sessions st) ∧
           db (after c st)
           = SessionStore.insert_session room now (stale_closed now room (db st))
      else raises c st = true ∧
           active_sessions (after c st) = active_sessions st ∧
           db (after c st) = db st
  | AddGift now room un uid gid gn gc gv =>
      match active_id room st with
      | None =>
          raises c st = false ∧
          active_sessions (after c st) = active_sessions st ∧ db (after c st) = db st
      | Some (sid, stats) =>
          active_sessions (after c st)
          = <[room := snd (SessionStats.add_gift (event_of now un uid gid gn gc gv)
                             stats)]>
              (active_sessions st) ∧
          if f_int_ok gc && sql_int_ok gc
          then raises c st = false ∧
               db (after c st)
               = SessionStore.insert_gift sid (event_of now un uid gid gn gc gv) (db st)
          else raises c st = true ∧ db (after c st) = db st
      end
  | EndSession now room =>
      active_sessions (after c st) = delete room (active_sessions st) ∧
      match active_id room st with
      | None => raises c st = false ∧ db (after c st) = db st
      | Some (sid, stats) =>
          if SessionStats.convertible stats && sql_int_ok (total_gift_count stats)
          then raises c st = false ∧
               db (after c st)
               = SessionStore.update_finalize now (f_sub now (start_time stats))
                   (SessionStore.finished stats)
                   (json_dumps (SessionStore.summary_of (SessionStore.finished stats)))
                   sid (db st)
          else raises c st = true ∧ db (after c st) = db st
      end
  | GetActiveSession _ | Close =>
      raises c st = false ∧
      active_sessions (after c st) = active_sessions st ∧ db (after c st) = db st
  | GetSessionHistory room limit =>
      raises c st = negb (sql_int_ok room && sql_int_ok limit) ∧
      active_sessions (after c st) = active_sessions st ∧ db (after c st) = db st
  end.
Proof.
  intros [Hio Hcm]. unfold steady.
  destruct c as [|now room|now room un uid gid gn gc gv|now room|room|room limit|];
    cbn [after raises].
  - unfold SessionStore.__init__, SessionStore._init_db. run.
    all: rewrite ?Hcm; repeat split; try done; by eexists.
  - unfold SessionStore.start_session, stale_closed. run.
    all: repeat split; try done; rewrite <- ?app_assoc; by eexists.
  - unfold SessionStore.add_gift, active_id, event_of. run.
    all: cbn [gift_count] in *;
      repeat match goal with
             | Hx : ?x = _ |- context [if ?x && _ then _ else _] => rewrite Hx
             | Hx : ?x = _ |- context [if ?x then _ else _] => rewrite Hx
             end; cbn [andb].
    all: repeat split; try done; rewrite <- ?app_assoc; by eexists.
  - unfold SessionStore.end_session, active_id. run.
    all: change (SessionStats.convertible (SessionStore.finished ?s))
           with (SessionStats.convertible s) in *;
      change (total_gift_count (SessionStore.finished ?s))
        with (total_gift_count s) in *;
      repeat match goal with
             | Hx : ?x = _ |- context [if ?x && _ then _ else _] => rewrite Hx
             | Hx : ?x = _ |- context [if ?x then _ else _] => rewrite Hx
             end; cbn [andb].
    all: repeat split; try done; rewrite <- ?app_assoc; by eexists.
  - done.
  - unfold SessionStore.get_session_history. run.
    all: repeat match goal with
             | Hx : ?x = _ |- context [?x] => rewrite Hx
             end; cbn [andb negb].
    all: repeat split; try done.
  - rewrite close_cases. destruct (connected st); cbn; by rewrite ?Hcm.
Qed.

End NoFault.

Section LedgerTheorems.
Context {F : Type} `{PyFloat F} `{PyHash}.






(** X8: in every state a run of calls can reach, the aggregate
    [get_active_session] returns for a room is consistent: it is of that
    room, its [total_gift_count] is the sum over its log, its
    [total_gift_value] is the sum over the events of its log whose
    count converts to float (the whole log when every count converts:
    an [add_gift] that raised [OverflowError] has left its event in the
    log), its [gift_user_count] is still 0 (only [end_session] sets
    it), and its [session_id] and [start_time] are those of a row of
    the room in [sessions]. *)
Theorem registered_aggregate_consistent (st : State F) (room : Z)
    (s : SessionStats F) :
  reachable st →
  fst (SessionStore.get_active_session room st) = Returned (Some s) →
  let value := λ e : GiftEvent F, f_mul (gift_value e) (f_of_int (gift_count e)) in
  room_id s = room ∧
  gift_user_count s = 0 ∧
  total_gift_count s = sum_Z (gift_count <$> gifts s) ∧
  total_gift_value s = sum_F (value <$> valued (gifts s)) ∧
  (SessionStats.convertible s = true →
   total_gift_value s = sum_F (value <$> gifts s)) ∧
  ∃ r, r ∈ sessions_rows (db st) ∧ session_id s = Some (sessions.id r) ∧
       sessions.room_id r = room ∧ sessions.start_time r = start_time s.
Proof.
  intros Hst Hget. cbn zeta. rewrite get_active_session_cases in Hget.
  cbn [fst] in Hget. injection Hget as Hlook.
  destruct (reachable_books st Hst) as ((Hled & _) & _).
  destruct (Hled room s Hlook) as (r & Hr & Hroom & Hs & _).
  destruct (add_gifts_from (gifts s)
              (SessionStats.new (Some (sessions.id r)) room (sessions.start_time r)))
    as (_ & Hc & Hv & Hid & Hrm & Hstart & Hguc).
  rewrite <- Hs in Hc, Hv, Hid, Hrm, Hstart, Hguc.
  split; [done|]. split; [done|]. split; [by rewrite Hc|]. split; [by rewrite Hv|].
  split; [intros Hconv; by rewrite Hv, valued_all|].
  exists r. by rewrite Hid, Hstart.
Qed.



(** X11: in every reachable state the gift rows have distinct ids and
    each carries the id of a row of [sessions]. *)
Theorem gift_rows_name_sessions (st : State F) :
  reachable st →
  NoDup (gifts_table.id <$> gifts_rows (db st)) ∧
  ∀ g, g ∈ gifts_rows (db st) →
    ∃ r, r ∈ sessions_rows (db st) ∧ sessions.id r = gifts_table.session_id g.
Proof.
  intros Hst. destruct (reachable_books st Hst) as ((_ & (Hnd & _ & Href) & _) & _).
  done.
Qed.

(** X12: in every reachable state, an entry of the history without a
    summary has [total_gift_count], [total_gift_value] and
    [gift_user_count] 0, whatever was recorded for its session. *)
Theorem history_without_summary_is_zero (st : State F) (room limit : Z)
    (hist : list (history.entry F)) (e : history.entry F) :
  reachable st →
  fst (SessionStore.get_session_history room limit st) = Returned hist →
  e ∈ hist → history.summary e = None →
  history.total_gift_count e = 0 ∧
  history.total_gift_value e = Some (f_of_int 0) ∧
  history.gift_user_count e = 0.
Proof.
  intros Hst Hrun He Hnone.
  pose proof (get_session_history_cases room limit st) as Hc.
  destruct (SessionStore.get_session_history room limit st) as [r st1].
  cbn [fst] in Hrun. subst r. destruct Hc as (_ & _ & _ & Hhist & _).
  specialize (Hhist hist eq_refl). subst hist.
  apply list_elem_of_fmap in He as (r & -> & Hr).
  apply elem_of_select_history in Hr as (Hr & _).
  destruct (reachable_books st Hst) as ((_ & _ & Hzero) & _).
  apply (Hzero r Hr). cbn in Hnone. by destruct (sessions.summary_json r).
Qed.

Lemma durations_ok_update (c : sessions.row F → sessions.row F) (id : Z)
    (d : Database F) :
  (∀ r t, r ∈ sessions_rows d → sessions.id r = id →
     sessions.end_time (c r) = Some t →
     sessions.duration (c r) = f_sub t (sessions.start_time (c r))) →
  durations_ok d → durations_ok (update_where_id c id d).
Proof.
  intros Hc Hd r' t. rewrite elem_of_update. intros (r & Hr & ->).
  case_decide; [by apply Hc|by apply Hd].
Qed.

Lemma durations_ok_stale_closed (now : F) (room : Z) (d : Database F) :
  durations_ok d → durations_ok (stale_closed now room d).
Proof.
  intros Hd. unfold stale_closed.
  destruct (SessionStore.select_open room d) as [r0|]; [|done].
  rewrite update_force_close_eq. apply durations_ok_update; [|done].
  intros r t _ _. cbn. by intros [= <-].
Qed.

Lemma durations_ok_insert_session (room : Z) (now : F) (d : Database F) :
  durations_ok d → durations_ok (SessionStore.insert_session room now d).
Proof.
  intros Hd r t. cbn. rewrite elem_of_app, list_elem_of_singleton.
  intros [Hin| ->]; [by apply Hd|done].
Qed.

Lemma durations_after (c : call) (st : State F) :
  invariant st → books st →
  durations_ok (db st) → durations_ok (committed st) →
  durations_ok (db (after c st)) ∧ durations_ok (committed (after c st)).
Proof.
  intros [(Hone & Hids & Hdef & Hact) _] ((Hled & _) & _) Hd Hcm.
  assert (Hdb' : durations_ok (db (after c st))).
  { destruct (after_cases c st) as
      [([-> | ->] & _)
      |[(now & room & Hstart)
       |[(room & sid & stats & event & _ & _ & _ & -> & _)
        |(now & room & sid & stats & j & Hlook & Hsid & _ & Hdb & _)]]];
      [done|done| |done|].
    - cbn zeta in Hstart.
      destruct Hstart as [(_ & _ & [-> | ->])|(_ & -> & _)];
        try apply durations_ok_insert_session; by apply durations_ok_stale_closed.
    - rewrite Hdb, update_finalize_eq. apply durations_ok_update; [|done].
      intros r t Hr Hrid. cbn. intros [= <-]. f_equal.
      destruct (Hled room stats Hlook) as (r0 & Hr0 & Hroom0 & Hs & _).
      pose proof (aggregate_session_id (db st) room sid stats r0 Hs Hsid) as Hid0.
      assert (r = r0) by (eapply ids_ok_unique; eauto; congruence). subst r.
      destruct (add_gifts_from (gifts stats)
                  (SessionStats.new (Some (sessions.id r0)) room
                     (sessions.start_time r0)))
        as (_ & _ & _ & _ & _ & Hstart & _).
      rewrite <- Hs in Hstart. by rewrite Hstart. }
  split; [done|].
  by apply (committed_after (λ d _, durations_ok d)).
Qed.

Lemma reachable_durations (st : State F) :
  reachable st → durations_ok (db st) ∧ durations_ok (committed st).
Proof.
  induction 1 as [faults|c st Hst [IH1 IH2]].
  - split; intros r t Hr; by apply elem_of_nil in Hr.
  - apply durations_after;
      [by apply reachable_invariant|by apply reachable_books|done|done].
Qed.

(** X13: in every reachable state, every entry of the history has an
    end and lasted from its start to its end: [duration] is [end_time]
    less [start_time], whether [end_session] closed the session or a
    later [start_session] did. *)
Theorem history_durations (st : State F) (room limit : Z)
    (hist : list (history.entry F)) (e : history.entry F) :
  reachable st →
  fst (SessionStore.get_session_history room limit st) = Returned hist →
  e ∈ hist →
  ∃ t, history.end_time e = Some t ∧
       history.duration e = f_sub t (history.start_time e).
Proof.
  intros Hst Hrun He.
  pose proof (get_session_history_cases room limit st) as Hc.
  destruct (SessionStore.get_session_history room limit st) as [r st1].
  cbn [fst] in Hrun. subst r. destruct Hc as (_ & _ & _ & Hhist & _).
  specialize (Hhist hist eq_refl). subst hist.
  apply list_elem_of_fmap in He as (r & -> & Hr).
  apply elem_of_select_history in Hr as (Hr & _ & Hclosed).
  destruct (sessions.end_time r) as [t|] eqn:Hend; [|done].
  exists t. split; [done|]. by apply (proj1 (reachable_durations st Hst)).
Qed.

End LedgerTheorems.

(** ** Ends, failures and restarts *)

Section Ends.
Context {F : Type} `{PyFloat F} `{PyHash}.









End Ends.

Section Reads.
Context {F : Type} `{PyFloat F} `{PyHash}.


(** X20: the histories of one room nest.  With a limit that is not
    negative, the list is the first [limit] entries of the list for any
    larger limit and of the list for a negative limit; with a negative
    limit the list has every closed session of the room, once. *)
Theorem history_limits_nest (st : State F) (room l1 l2 : Z)
    (h1 h2 : list (history.entry F)) :
  fst (SessionStore.get_session_history room l1 st) = Returned h1 →
  fst (SessionStore.get_session_history room l2 st) = Returned h2 →
  (0 ≤ l1 → l1 ≤ l2 ∨ l2 < 0 → h1 = take (Z.to_nat l1) h2) ∧
  (l2 < 0 →
   h2 ≡ₚ SessionStore.entry_of_row
         <$> filter (λ r, sessions.room_id r = room ∧ sessions.end_time r ≠ None)
               (sessions_rows (db st))).
Proof.
  intros Hh1 Hh2.
  pose proof (get_session_history_cases room l1 st) as Hc1.
  pose proof (get_session_history_cases room l2 st) as Hc2.
  destruct (SessionStore.get_session_history room l1 st) as [r1 st1].
  destruct (SessionStore.get_session_history room l2 st) as [r2 st2].
  cbn [fst] in Hh1, Hh2. subst r1 r2.
  destruct Hc1 as (_ & _ & _ & Hc1 & _). destruct Hc2 as (_ & _ & _ & Hc2 & _).
  rewrite (Hc1 h1 eq_refl), (Hc2 h2 eq_refl).
  unfold SessionStore.select_history, SessionStore.sql_limit. split.
  - intros Hl1 Hl2. rewrite (proj2 (Z.ltb_ge l1 0)) by done.
    rewrite <- fmap_take. f_equal.
    destruct (l2 <? 0) eqn:Hneg; [done|]. apply Z.ltb_ge in Hneg.
    rewrite take_take. f_equal. lia.
  - intros Hneg. rewrite (proj2 (Z.ltb_lt l2 0)) by done.
    rewrite sorted_desc_perm. f_equiv.
    erewrite list_filter_iff; [done|]. intros r. by rewrite closed_for_spec.
Qed.

(** X21: [close] gives up the connection and, with it, what was not
    committed: it returns, the tables to be seen are the committed
    ones, the registry and the log are as before, no session is ended,
    and a second [close] changes nothing.  On a steady store, where no
    call into SQLite fails and nothing is left uncommitted, the
    database is as before and the store stays usable: a read connects
    again, and the next call ends as it would have ended without the
    [close], with the same database and registry. *)
Theorem close_keeps_sessions (st : State F) (c : call) (room0 limit0 : Z) :
  let st' := snd (SessionStore.close st) in
  fst (SessionStore.close st) = Returned tt ∧
  connected st' = false ∧
  db st' = (if connected st then committed st else db st) ∧
  committed st' = committed st ∧
  active_sessions st' = active_sessions st ∧ log st' = log st ∧
  SessionStore.close st' = (Returned tt, st') ∧
  (steady st →
   db st' = db st ∧
   connected (snd (SessionStore.get_session_history room0 limit0 st')) = true ∧
   raises c st' = raises c st ∧
   db (after c st') = db (after c st) ∧
   active_sessions (after c st') = active_sessions (after c st)).
Proof.
  cbn zeta. rewrite close_cases. cbn [fst snd].
  assert (Hclosed : connected (if connected st
                               then with_connected false (with_db (committed st) st)
                               else st) = false)
    by (by destruct (connected st) eqn:Hconn).
  split; [done|]. split; [done|].
  split; [by destruct (connected st)|]. split; [by destruct (connected st)|].
  split; [by destruct (connected st)|]. split; [by destruct (connected st)|].
  split; [by rewrite close_cases, Hclosed|].
  intros [Hio Hcm].
  set (st' := if connected st
              then with_connected false (with_db (committed st) st) else st) in *.
  assert (Hdb : db st' = db st) by (unfold st'; destruct (connected st); by cbn).
  assert (Ha : active_sessions st' = active_sessions st)
    by (unfold st'; by destruct (connected st)).
  assert (Hsteady' : steady st').
  { unfold st'. destruct (connected st); by split. }
  split; [done|].
  split.
  { destruct Hsteady' as [Hio' _]. clearbody st'.
    unfold SessionStore.get_session_history. by run. }
  destruct (after_no_fault c st (conj Hio Hcm)) as (_ & _ & Hc).
  destruct (after_no_fault c st' Hsteady') as (_ & _ & Hc').
  assert (Hid : ∀ room, active_id room st' = active_id room st)
    by (intros room; unfold active_id; by rewrite Ha).
  clearbody st'.
  destruct c as [|now room|now room un uid gid gn gc gv|now room|room|room limit|];
    try rewrite Hid in Hc'; rewrite ?Hdb, ?Ha in Hc'.
  - destruct Hc as (-> & -> & ->), Hc' as (-> & -> & ->). done.
  - destruct (sql_int_ok room);
      destruct Hc as (-> & -> & ->), Hc' as (-> & -> & ->); done.
  - destruct (active_id room st) as [[sid stats]|].
    + destruct Hc as (-> & Hc), Hc' as (-> & Hc').
      destruct (_ && _); destruct Hc as (-> & ->), Hc' as (-> & ->); done.
    + destruct Hc as (-> & -> & ->), Hc' as (-> & -> & ->). done.
  - destruct Hc as (-> & Hc), Hc' as (-> & Hc').
    destruct (active_id room st) as [[sid stats]|]; [destruct (_ && _)|];
      destruct Hc as (-> & ->), Hc' as (-> & ->); done.
  - destruct Hc as (-> & -> & ->), Hc' as (-> & -> & ->). done.
  - destruct Hc as (-> & -> & ->), Hc' as (-> & -> & ->). done.
  - destruct Hc as (-> & -> & ->), Hc' as (-> & -> & ->). done.
Qed.

End Reads.

Section StartAndEnd.
Context {F : Type} `{PyFloat F} `{PyHash}.

(** X22: in every reachable state, a [start_session] that returns
    gives a new aggregate with an empty log and totals 0, whose id is
    above every id of [sessions] and is carried by no gift row.  The new
    row is the one open session of the room, [get_active_session]
    returns the aggregate for the room, and the aggregates of the other
    rooms are as before. *)
Theorem start_session_registers_fresh (st st' : State F) (now : F) (room : Z)
    (stats : SessionStats F) :
  reachable st →
  SessionStore.start_session now room st = (Returned stats, st') →
  ∃ new_id,
    stats = {| session_id := Some new_id; room_id := room; start_time := now;
               gifts := []; total_gift_count := 0;
               total_gift_value := f_of_int 0; gift_user_count := 0 |} ∧
    (∀ r, r ∈ sessions_rows (db st) → sessions.id r < new_id) ∧
    (∀ g, g ∈ gifts_rows (db st') → gifts_table.session_id g ≠ new_id) ∧
    filter (λ r, sessions.room_id r = room ∧ sessions.end_time r = None)
      (sessions_rows (db st'))
    = [SessionStore.new_session_row new_id room now] ∧
    SessionStore.get_active_session room st' = (Returned (Some stats), st') ∧
    ∀ room', room' ≠ room →
      active_sessions st' !! room' = active_sessions st !! room'.
Proof.
  intros Hst Hrun.
  pose proof (reachable_invariant st Hst) as [(Hone & Hids & Hdef & Hact) _].
  destruct (reachable_books st Hst) as ((_ & Hgifts & _) & _).
  pose proof (start_session_cases now room st) as Hc.
  rewrite Hrun in Hc. cbn zeta in Hc. destruct Hc as (-> & Ha & Hdb & _).
  exists (sessions_seq (db st) + 1).
  split; [done|]. split; [|split; [|split; [|split]]].
  - intros r Hr. destruct Hids as [_ Hle]. specialize (Hle r Hr). lia.
  - intros g Hg Heq. rewrite Hdb in Hg. cbn in Hg.
    rewrite (proj1 (stale_closed_gifts now room (db st))) in Hg.
    destruct Hgifts as (_ & _ & Href). destruct (Href g Hg) as (r & Hr & Hid).
    destruct Hids as [_ Hle]. specialize (Hle r Hr). lia.
  - assert (Hfilter : ∀ d : Database F,
              filter (λ r, sessions.room_id r = room ∧ sessions.end_time r = None)
                (sessions_rows d) = open_rows room d).
    { intros d. apply list_filter_iff. intros r. by rewrite open_for_spec. }
    rewrite Hfilter, Hdb, insert_session_open_rows, stale_closed_open_rows by done.
    by rewrite decide_True, stale_closed_seq.
  - by rewrite get_active_session_cases, Ha, lookup_insert_eq.
  - intros room' Hne. by rewrite Ha, lookup_insert_ne.
Qed.

(** X23: in every reachable state, an [end_session] that returns for a
    room with an aggregate returns it with [gift_user_count] set to the
    number of its users, and leaves the row of its session closed at the
    clock reading, with [duration] the reading less the start, the
    totals of the log ([NULL] for a [total_gift_value] that is NaN),
    that user count and a summary: the summary of the aggregate, with
    the users in the order of the set, when the sums of the users are
    comparable.  Every count of the log converts to float then, and the
    count total fits an SQLite integer.  Every other row of [sessions]
    and every row of [gifts] is as before, the room has no aggregate
    any more, and all of this is committed. *)
Theorem end_session_finalises_row (st st' : State F) (now : F) (room : Z)
    (stats : SessionStats F) (res : option (SessionStats F)) :
  reachable st →
  active_sessions st !! room = Some stats →
  SessionStore.end_session now room st = (Returned res, st') →
  ∃ sid summary,
    session_id stats = Some sid ∧
    let users := Z.of_nat (size (SessionStats.get_unique_users stats)) in
    let total :=
      sum_F ((λ e, f_mul (gift_value e) (f_of_int (gift_count e))) <$> gifts stats) in
    let fin :=
      {| session_id := Some sid; room_id := room; start_time := start_time stats;
         gifts := gifts stats; total_gift_count := total_gift_count stats;
         total_gift_value := total;
         gift_user_count := users |} in
    let closed :=
      {| sessions.id := sid; sessions.room_id := room;
         sessions.start_time := start_time stats;
         sessions.end_time := Some now;
         sessions.duration := f_sub now (start_time stats);
         sessions.total_gift_count := sum_Z (gift_count <$> gifts stats);
         sessions.total_gift_value := if f_is_nan total then None else Some total;
         sessions.gift_user_count := users;
         sessions.summary_json := Some summary |} in
    res = Some fin ∧
    (∀ g, g ∈ gifts stats → f_int_ok (gift_count g) = true) ∧
    sql_int_ok (sum_Z (gift_count <$> gifts stats)) = true ∧
    (weak_order_on f_ltb (snd <$> user_totals (gifts stats)) →
     summary = json_dumps (SessionStore.summary_of fin)) ∧
    closed ∈ sessions_rows (db st') ∧
    sessions_rows (db st')
    = (λ r, if decide (sessions.id r = sid) then closed else r)
      <$> sessions_rows (db st) ∧
    gifts_rows (db st') = gifts_rows (db st) ∧
    active_sessions st' = delete room (active_sessions st) ∧
    committed st' = db st'.
Proof.
  intros Hst Hlook Hrun.
  pose proof (reachable_invariant st Hst) as [(Hone & Hids & Hdef & Hact) _].
  destruct (reachable_books st Hst) as ((Hled & _) & _).
  destruct (Hled room stats Hlook) as (r0 & Hr0 & Hroom0 & Hs & _).
  destruct (add_gifts_from (gifts stats)
              (SessionStats.new (Some (sessions.id r0)) room (sessions.start_time r0)))
    as (_ & Hc & Hv & Hid & Hrm & Hstart & Hguc).
  rewrite <- Hs in Hc, Hv, Hid, Hrm, Hstart, Hguc. cbn in Hc, Hv, Hid, Hrm, Hstart.
  exists (sessions.id r0),
    (json_dumps (SessionStore.summary_of (SessionStore.finished stats))).
  split; [done|]. cbn zeta.
  pose proof (end_session_cases now room st) as Hcases.
  unfold active_id in Hcases. rewrite Hlook, Hid, Hrun in Hcases. cbn zeta in Hcases.
  destruct Hcases as (Ha & -> & Hdb & Hcm & Hconv & Hfit).
  rewrite valued_all in Hv by done.
  assert (Htotal : total_gift_value stats
                   = sum_F ((λ e, f_mul (gift_value e) (f_of_int (gift_count e)))
                            <$> gifts stats)) by done.
  assert (Hfin : SessionStore.finished stats
                 = {| session_id := Some (sessions.id r0); room_id := room;
                      start_time := start_time stats; gifts := gifts stats;
                      total_gift_count := total_gift_count stats;
                      total_gift_value
                      := sum_F ((λ e, f_mul (gift_value e) (f_of_int (gift_count e)))
                                <$> gifts stats);
                      gift_user_count
                      := Z.of_nat (size (SessionStats.get_unique_users stats)) |}).
  { unfold SessionStore.finished. by rewrite Hid, Hrm, Htotal. }
  rewrite <- Hfin.
  assert (Hrows : sessions_rows (db st')
            = (λ r, if decide (sessions.id r = sessions.id r0)
                    then {| sessions.id := sessions.id r0; sessions.room_id := room;
                            sessions.start_time := start_time stats;
                            sessions.end_time := Some now;
                            sessions.duration := f_sub now (start_time stats);
                            sessions.total_gift_count := sum_Z (gift_count <$> gifts stats);
                            sessions.total_gift_value
                            := if f_is_nan
                                    (sum_F ((λ e, f_mul (gift_value e)
                                                    (f_of_int (gift_count e)))
                                            <$> gifts stats))
                               then None
                               else Some (sum_F ((λ e, f_mul (gift_value e)
                                                         (f_of_int (gift_count e)))
                                                 <$> gifts stats));
                            sessions.gift_user_count
                            := Z.of_nat (size (SessionStats.get_unique_users stats));
                            sessions.summary_json
                            := Some (json_dumps
                                       (SessionStore.summary_of (SessionStore.finished stats))) |}
                    else r) <$> sessions_rows (db st)).
  { rewrite Hdb. cbn [SessionStore.update_finalize sessions_rows].
    apply list_fmap_ext. intros i r Hr. case_decide as Hrid; [|done].
    assert (r = r0).
    { eapply ids_ok_unique; eauto. by eapply list_elem_of_lookup_2. }
    subst r. unfold SessionStore.finalize_row, sql_real.
    cbn [SessionStore.finished total_gift_count total_gift_value gift_user_count].
    by rewrite Hroom0, Hstart, Hc, Htotal. }
  split; [done|].
  split.
  { intros g Hg. unfold SessionStats.convertible in Hconv.
    rewrite forallb_forall in Hconv. apply Hconv. by apply list_elem_of_In. }
  split.
  { replace (sum_Z (gift_count <$> gifts stats)) with (total_gift_count stats)
      by (rewrite Hc; lia).
    done. }
  split; [done|].
  split; [|split; [done|split; [by rewrite Hdb|done]]].
  rewrite Hrows. apply list_elem_of_fmap. exists r0.
  by rewrite decide_True by done.
Qed.

End StartAndEnd.

(** ** Rooms are independent *)

Section Rooms.
Context {F : Type} `{PyFloat F} `{PyHash}.



Lemma select_open_Some (room : Z) (d : Database F) (r : sessions.row F) :
  SessionStore.select_open room d = Some r →
  r ∈ sessions_rows d ∧ sessions.room_id r = room.
Proof.
  rewrite select_open_head. intros Hhead.
  assert (Hr : r ∈ open_rows room d).
  { destruct (open_rows room d); [done|]. injection Hhead as ->. left. }
  apply elem_of_open_rows in Hr. tauto.
Qed.




End Rooms.

(** ** What the results tell *)

Section Results.
Context {F : Type} `{PyFloat F} `{PyHash}.

(** X25: in every reachable state a registered aggregate has a session
    id, so the results tell whether the room had a live session: an
    [add_gift] that returns gives [True] exactly when an aggregate was
    registered for the room, and an [end_session] that returns gives an
    aggregate exactly then. *)
Theorem results_tell_whether_live (st : State F) (now : F) (room : Z)
    (un uid gid gn : string) (gc : Z) (gv : F) :
  reachable st →
  (∀ s, active_sessions st !! room = Some s → is_Some (session_id s)) ∧
  (∀ b, fst (SessionStore.add_gift now room un uid gid gn gc gv st) = Returned b →
        (b = true ↔ is_Some (active_sessions st !! room))) ∧
  (∀ o, fst (SessionStore.end_session now room st) = Returned o →
        (is_Some o ↔ is_Some (active_sessions st !! room))).
Proof.
  intros Hst. destruct (reachable_invariant st Hst) as [(_ & _ & _ & Hact) _].
  assert (Hid : ∀ s, active_sessions st !! room = Some s → is_Some (session_id s)).
  { intros s Hs. destruct (Hact room s Hs) as (r & _ & -> & _). by eexists. }
  split; [done|]. split.
  - intros b Hb.
    pose proof (add_gift_cases now room un uid gid gn gc gv st) as Hc.
    unfold active_id in Hc.
    destruct (active_sessions st !! room) as [s|] eqn:Hlook.
    + destruct (Hid s eq_refl) as [sid Hsid]. rewrite Hsid in Hc.
      destruct (SessionStore.add_gift _ _ _ _ _ _ _ _ st) as [r st'].
      cbn [fst] in Hb. subst r. cbn zeta in Hc. destruct Hc as (_ & _ & -> & _).
      split; [by eexists|done].
    + destruct (SessionStore.add_gift _ _ _ _ _ _ _ _ st) as [r st'].
      cbn [fst] in Hb. subst r. destruct Hc as ([= ->] & _).
      split; [done|]. by intros [? ?].
  - intros o Ho.
    pose proof (end_session_cases now room st) as Hc.
    unfold active_id in Hc.
    destruct (active_sessions st !! room) as [s|] eqn:Hlook.
    + destruct (Hid s eq_refl) as [sid Hsid]. rewrite Hsid in Hc.
      destruct (SessionStore.end_session now room st) as [r st'].
      cbn [fst] in Ho. subst r. cbn zeta in Hc. destruct Hc as (_ & -> & _).
      split; by eexists.
    + destruct (SessionStore.end_session now room st) as [r st'].
      cbn [fst] in Ho. subst r. destruct Hc as ([= ->] & _).
      split; by intros [? ?].
Qed.

End Results.

(** ** The life cycle without failures *)

Section NoFaultLifecycle.
Context {F : Type} `{PyFloat F} `{PyHash}.

Lemma stale_closed_keeps_other (now : F) (room : Z) (d : Database F)
    (r0 : sessions.row F) :
  ids_ok d → r0 ∈ sessions_rows d → sessions.room_id r0 ≠ room →
  r0 ∈ sessions_rows (stale_closed now room d).
Proof.
  intros Hids Hin Hne. unfold stale_closed.
  destruct (SessionStore.select_open room d) as [r|] eqn:Hsel; [|done].
  apply select_open_Some in Hsel as [Hr Hroom].
  rewrite update_force_close_eq. apply update_keeps_row; [done|].
  intros Hid. assert (r0 = r) by by eapply ids_ok_unique. by subst.
Qed.

Lemma live_open_after (c : call) (st : State F) :
  invariant st → live_open st → live_open (after c st).
Proof.
  intros [(Hone & Hids & Hdef & Hact) _] [Hsteady Hlive].
  destruct (after_no_fault c st Hsteady) as (Hsteady' & _ & Hc).
  split; [done|].
  destruct c as [|now room|now room un uid gid gn gc gv|now room|room|room limit|].
  - destruct Hc as (_ & _ & ->). intros room s. by rewrite lookup_empty.
  - destruct (sql_int_ok room); [|by destruct Hc as (_ & -> & ->)].
    destruct Hc as (_ & -> & ->). intros room' s. rewrite lookup_insert.
    case_decide as Hk.
    + intros [= <-]. subst room'.
      exists (SessionStore.new_session_row (sessions_seq (db st) + 1) room now).
      split; [|done]. cbn.
      rewrite stale_closed_seq, elem_of_app, list_elem_of_singleton. auto.
    + intros Hs. destruct (Hlive room' s Hs) as (r & Hr & Hsid & Hroom & Hopen).
      exists r. split; [|done]. cbn. rewrite elem_of_app. left.
      apply stale_closed_keeps_other; [done|done|congruence].
  - destruct (active_id room st) as [[sid stats]|] eqn:Hid.
    + apply active_id_Some in Hid as [Hlook Hsid]. destruct Hc as (-> & Hc).
      assert (Hrows : sessions_rows (db (after (AddGift now room un uid gid gn gc gv) st))
                      = sessions_rows (db st))
        by (destruct (_ && _); by destruct Hc as (_ & ->)).
      intros room' s. rewrite Hrows, lookup_insert.
      case_decide as Hk; [|apply Hlive].
      intros [= <-]. subst room'.
      destruct (add_gift_fields (event_of now un uid gid gn gc gv) stats)
        as (_ & _ & _ & -> & _).
      apply (Hlive room stats Hlook).
    + destruct Hc as (_ & -> & ->). done.
  - destruct Hc as [-> Hdb]. intros room' s. rewrite lookup_delete.
    case_decide as Hk; [done|]. intros Hs.
    destruct (Hlive room' s Hs) as (r & Hr & Hsid & Hroom & Hopen).
    exists r. split; [|done].
    destruct (active_id room st) as [[sid stats]|] eqn:Hid;
      [destruct (_ && _)|]; destruct Hdb as [_ ->]; [|done|done].
    apply active_id_Some in Hid as [Hlook Hsid'].
    destruct (Hact room stats Hlook) as (r0 & Hr0 & Hsid0 & Hroom0).
    rewrite update_finalize_eq. apply update_keeps_row; [done|].
    intros Hid. apply Hk. rewrite <- Hroom, <- Hroom0. f_equal.
    eapply ids_ok_unique; eauto. congruence.
  - destruct Hc as (_ & -> & ->). done.
  - destruct Hc as (_ & -> & ->). done.
  - destruct Hc as (_ & -> & ->). done.
Qed.

Lemma live_open_after_all (calls : list call) (st : State F) :
  reachable st → live_open st → live_open (after_all calls st).
Proof.
  revert st. induction calls as [|c calls IH]; intros st Hst Hlive; [done|].
  unfold after_all in *. cbn [foldl]. apply IH; [by constructor|].
  apply live_open_after; [by apply reachable_invariant|done].
Qed.

Lemma live_open_blank : live_open (blank [] : State F).
Proof. split; [done|]. intros room s. cbn. by rewrite lookup_empty. Qed.

(** One row changes from outside [P] to inside: the filter gains one. *)
Lemma filter_update_length (P : sessions.row F → Prop) `{∀ r, Decision (P r)}
    (c : sessions.row F → sessions.row F) (x : sessions.row F)
    (l : list (sessions.row F)) :
  NoDup (sessions.id <$> l) → x ∈ l → ¬ P x → P (c x) →
  length (filter P ((λ r, if decide (sessions.id r = sessions.id x) then c r else r)
                    <$> l))
  = S (length (filter P l)).
Proof.
  intros Hnd Hx Hout Hin. induction l as [|a l IH]; [by apply elem_of_nil in Hx|].
  rewrite fmap_cons in Hnd. apply NoDup_cons in Hnd as [Ha Hnd].
  rewrite fmap_cons, !filter_cons.
  destruct (decide (sessions.id a = sessions.id x)) as [Hid|Hid].
  - assert (a = x).
    { apply elem_of_cons in Hx as [->|Hx]; [done|].
      destruct Ha. rewrite Hid. by apply list_elem_of_fmap_2. }
    subst a. rewrite decide_True by done. rewrite decide_False by done. cbn.
    do 2 f_equal. f_equal. rewrite <- (list_fmap_id l) at 2.
    apply list_fmap_ext. intros i r Hr. cbn. rewrite decide_False; [done|].
    intros Hrid. apply Ha. rewrite <- Hrid. apply list_elem_of_fmap_2.
    by eapply list_elem_of_lookup_2.
  - apply elem_of_cons in Hx as [->|Hx]; [done|].
    destruct (decide (P a)); cbn; rewrite IH by done; done.
Qed.


(** X27: while no call into SQLite fails, an [end_session] that returns
    for a live session adds one entry to the room's history: the
    unbounded history read after it has one entry more than the one
    read before. *)
Theorem end_session_adds_one_to_history (calls : list call) (room : Z)
    (s : SessionStats F) (now : F) (before later : list (history.entry F)) :
  let st := after_all calls (blank []) in
  let st' := snd (SessionStore.end_session now room st) in
  fst (SessionStore.get_active_session room st) = Returned (Some s) →
  is_raised (fst (SessionStore.end_session now room st)) = false →
  fst (SessionStore.get_session_history room (-1) st) = Returned before →
  fst (SessionStore.get_session_history room (-1) st') = Returned later →
  length later = S (length before).
Proof.
  cbn zeta. intros Hget Hreturns Hbefore Hlater.
  rewrite get_active_session_cases in Hget.
  cbn [fst] in Hget. injection Hget as Hlook.
  set (st := after_all calls (blank [] : State F)) in *.
  assert (Hst : reachable st) by (apply reachable_after_all; constructor).
  pose proof (reachable_invariant st Hst) as [(Hone & Hids & Hdef & Hact) _].
  destruct (live_open_after_all calls (blank []) (reachable_blank []) live_open_blank)
    as [Hsteady Hlive].
  fold st in Hsteady, Hlive.
  destruct (Hlive room s Hlook) as (r & Hr & Hrid & Hroom & Hopen).
  destruct (after_no_fault (EndSession now room) st Hsteady) as (_ & _ & Hc).
  cbn [after raises] in Hc. destruct Hc as [_ Hdb].
  unfold active_id in Hdb. rewrite Hlook, Hrid in Hdb.
  destruct (_ && _); destruct Hdb as [Hr' Hdb]; [|congruence].
  pose proof (get_session_history_cases room (-1) st) as Hc1.
  pose proof (get_session_history_cases room (-1)
                (snd (SessionStore.end_session now room st))) as Hc2.
  destruct (SessionStore.get_session_history room (-1) st) as [r1 st1].
  destruct (SessionStore.get_session_history room (-1)
              (snd (SessionStore.end_session now room st))) as [r2 st2].
  cbn [fst] in Hbefore, Hlater. subst r1 r2.
  destruct Hc1 as (_ & _ & _ & Hc1 & _). destruct Hc2 as (_ & _ & _ & Hc2 & _).
  rewrite (Hc1 before eq_refl), (Hc2 later eq_refl), !length_fmap.
  unfold SessionStore.select_history, SessionStore.sql_limit. cbn [Z.ltb Z.compare].
  rewrite !sorted_desc_length, Hdb.
  cbn [SessionStore.update_finalize sessions_rows].
  apply (filter_update_length (λ r, SessionStore.closed_for room r)).
  - apply Hids.
  - done.
  - rewrite closed_for_spec. intros [_ Hclosed]. done.
  - rewrite closed_for_spec. done.
Qed.

End NoFaultLifecycle.

(** ** The run of room 42, once more *)

Section Room42More.
Import PrimFloat.
#[local] Existing Instance elements_order.

Lemma gift_event_from_dict_defaults_witness :
  let d := GiftEvent.to_dict (GiftEvent.object alice_rose) in
  "gift_count" ∈ GiftEvent.field_names ∧
  ("note" ∉ GiftEvent.field_names) ∧
  dict_get (GiftEvent.to_dict (GiftEvent.from_dict d)) "gift_count" PyNone
  = dict_get d "gift_count"
      (dict_get (GiftEvent.to_dict (GiftEvent.from_dict [])) "gift_count" PyNone) ∧
  GiftEvent.from_dict (dict_set d "note" (PyStr "hello")) = GiftEvent.from_dict d.
Proof.
  cbn zeta.
  assert (Hin : "gift_count" ∈ GiftEvent.field_names)
    by (unfold GiftEvent.field_names; do 5 right; left).
  assert (Hout : "note" ∉ GiftEvent.field_names)
    by (unfold GiftEvent.field_names; rewrite !not_elem_of_cons;
        repeat split; try discriminate; apply not_elem_of_nil).
  destruct (gift_event_from_dict_defaults
              (GiftEvent.to_dict (GiftEvent.object alice_rose))) as (_ & Hget & Hset).
  split; [exact Hin|]. split; [exact Hout|].
  split; [exact (Hget "gift_count" PyNone Hin)|exact (Hset "note" (PyStr "hello") Hout)].
Defined.


Lemma top_gifts_counts_add_up_witness :
  let s := add_gifts [alice_rose; bob_rocket] (SessionStats.new (Some 1) 42 1000%float) in
  Z.of_nat (size (gift_groups [alice_rose; bob_rocket])) ≤ 5 ∧
  (∀ g, g ∈ [alice_rose; bob_rocket] → 0 ≤ gift_count g) ∧
  sum_Z ((SessionStats.get_top_gifts 5 s).*2) = total_gift_count s ∧
  sum_Z ((SessionStats.get_top_gifts 1 s).*2) ≤ total_gift_count s.
Proof.
  cbn zeta.
  assert (Hg : Z.of_nat (size (gift_groups [alice_rose; bob_rocket])) ≤ 5)
    by (vm_compute; discriminate).
  assert (Hpos : ∀ g, g ∈ [alice_rose; bob_rocket] → 0 ≤ gift_count g).
  { intros g Hin. apply elem_of_cons in Hin as [->|Hin]; [vm_compute; discriminate|].
    apply list_elem_of_singleton in Hin as ->. vm_compute. discriminate. }
  split; [exact Hg|]. split; [exact Hpos|].
  split.
  - exact (proj1 (top_gifts_counts_add_up 5 (Some 1) 42 1000%float
                    [alice_rose; bob_rocket]) Hg).
  - exact (proj2 (top_gifts_counts_add_up 1 (Some 1) 42 1000%float
                    [alice_rose; bob_rocket]) Hpos).
Defined.


Lemma registered_aggregate_consistent_witness :
  let value := λ e : GiftEvent PrimFloat.float,
    f_mul (gift_value e) (f_of_int (gift_count e)) in
  reachable gifted ∧
  fst (SessionStore.get_active_session 42 gifted) = Returned (Some two_gifts) ∧
  SessionStats.convertible two_gifts = true ∧
  room_id two_gifts = 42 ∧
  gift_user_count two_gifts = 0 ∧
  total_gift_count two_gifts = sum_Z (gift_count <$> gifts two_gifts) ∧
  total_gift_value two_gifts = sum_F (value <$> valued (gifts two_gifts)) ∧
  total_gift_value two_gifts = sum_F (value <$> gifts two_gifts) ∧
  ∃ r, r ∈ sessions_rows (db gifted) ∧ session_id two_gifts = Some (sessions.id r) ∧
       sessions.room_id r = 42 ∧ sessions.start_time r = start_time two_gifts.
Proof.
  cbn zeta.
  assert (Hget : fst (SessionStore.get_active_session 42 gifted)
                 = Returned (Some two_gifts)) by (vm_compute; reflexivity).
  assert (Hconv : SessionStats.convertible two_gifts = true)
    by (vm_compute; reflexivity).
  pose proof (registered_aggregate_consistent gifted 42 two_gifts reachable_gifted Hget)
    as Hthm.
  cbn zeta in Hthm. destruct Hthm as (Hroom & Huc & Hcount & Hval & Hall & Hrow).
  split; [exact reachable_gifted|]. split; [exact Hget|]. split; [exact Hconv|].
  split; [exact Hroom|]. split; [exact Huc|]. split; [exact Hcount|].
  split; [exact Hval|]. split; [exact (Hall Hconv)|exact Hrow].
Defined.



Lemma gift_rows_name_sessions_witness :
  reachable gifted ∧
  NoDup (gifts_table.id <$> gifts_rows (db gifted)) ∧
  ∀ g, g ∈ gifts_rows (db gifted) →
    ∃ r, r ∈ sessions_rows (db gifted) ∧ sessions.id r = gifts_table.session_id g.
Proof.
  split; [exact reachable_gifted|].
  exact (gift_rows_name_sessions gifted reachable_gifted).
Defined.

Lemma history_without_summary_is_zero_witness :
  let e := SessionStore.entry_of_row
             (SessionStore.force_close_row 3000%float
                (SessionStore.new_session_row 1 42 1000%float)) in
  reachable restarted ∧
  fst (SessionStore.get_session_history 42 10 restarted) = Returned [e] ∧
  e ∈ [e] ∧ history.summary e = None ∧
  total_gift_count <$> (active_sessions gifted !! 42) = Some 4 ∧
  history.total_gift_count e = 0 ∧
  history.total_gift_value e = Some (f_of_int 0) ∧
  history.gift_user_count e = 0.
Proof.
  cbn zeta.
  assert (Hst : reachable restarted)
    by (unfold restarted; constructor; exact reachable_gifted).
  assert (Hrun : fst (SessionStore.get_session_history 42 10 restarted)
                 = Returned [SessionStore.entry_of_row
                               (SessionStore.force_close_row 3000%float
                                  (SessionStore.new_session_row 1 42 1000%float))])
    by (vm_compute; reflexivity).
  split; [exact Hst|]. split; [exact Hrun|].
  split; [apply list_elem_of_here|]. split; [reflexivity|].
  split; [vm_compute; reflexivity|].
  exact (history_without_summary_is_zero restarted 42 10 _ _ Hst Hrun
           (list_elem_of_here _ _) eq_refl).
Defined.

Lemma history_durations_witness :
  let e := SessionStore.entry_of_row
             (SessionStore.force_close_row 3000%float
                (SessionStore.new_session_row 1 42 1000%float)) in
  reachable restarted ∧
  fst (SessionStore.get_session_history 42 10 restarted) = Returned [e] ∧
  e ∈ [e] ∧
  ∃ t, history.end_time e = Some t ∧
       history.duration e = f_sub t (history.start_time e).
Proof.
  cbn zeta.
  assert (Hst : reachable restarted)
    by (unfold restarted; constructor; exact reachable_gifted).
  assert (Hrun : fst (SessionStore.get_session_history 42 10 restarted)
                 = Returned [SessionStore.entry_of_row
                               (SessionStore.force_close_row 3000%float
                                  (SessionStore.new_session_row 1 42 1000%float))])
    by (vm_compute; reflexivity).
  split; [exact Hst|]. split; [exact Hrun|]. split; [apply list_elem_of_here|].
  exact (history_durations restarted 42 10 _ _ Hst Hrun (list_elem_of_here _ _)).
Defined.




Lemma history_limits_nest_witness :
  fst (SessionStore.get_session_history 42 1 ended) = Returned history_42 ∧
  fst (SessionStore.get_session_history 42 (-1) ended) = Returned history_42 ∧
  0 ≤ 1 ∧ (1 ≤ -1 ∨ -1 < 0) ∧
  history_42 = take (Z.to_nat 1) history_42 ∧
  history_42 ≡ₚ SessionStore.entry_of_row
                <$> filter (λ r, sessions.room_id r = 42 ∧ sessions.end_time r ≠ None)
                      (sessions_rows (db ended)).
Proof.
  assert (H1 : fst (SessionStore.get_session_history 42 1 ended) = Returned history_42)
    by (vm_compute; reflexivity).
  assert (H2 : fst (SessionStore.get_session_history 42 (-1) ended)
               = Returned history_42) by (vm_compute; reflexivity).
  assert (Hl1 : 0 ≤ 1) by lia.
  assert (Hneg : -1 < 0) by lia.
  destruct (history_limits_nest ended 42 1 (-1) history_42 history_42 H1 H2)
    as [Hprefix Hall].
  split; [exact H1|]. split; [exact H2|]. split; [exact Hl1|].
  split; [right; exact Hneg|].
  split; [exact (Hprefix Hl1 (or_intror Hneg))|exact (Hall Hneg)].
Defined.

Lemma close_keeps_sessions_witness :
  let st' := snd (SessionStore.close gifted) in
  let c := EndSession 2000%float 42 in
  (io_faults gifted = [] ∧ committed gifted = db gifted) ∧
  connected st' = false ∧
  db st' = db gifted ∧
  connected (snd (SessionStore.get_session_history 42 10 st')) = true ∧
  raises c st' = raises c gifted ∧
  db (after c st') = db (after c gifted) ∧
  active_sessions (after c st') = active_sessions (after c gifted).
Proof.
  cbn zeta.
  assert (Hsteady : steady gifted) by (split; vm_compute; reflexivity).
  destruct (close_keeps_sessions gifted (EndSession 2000%float 42) 42 10)
    as (_ & Hconn & _ & _ & _ & _ & _ & Hafter).
  split; [exact Hsteady|]. split; [exact Hconn|]. exact (Hafter Hsteady).
Defined.

Lemma start_session_registers_fresh_witness :
  let stats := SessionStats.new (Some 1) 42 1000%float in
  reachable booted ∧
  SessionStore.start_session 1000%float 42 booted = (Returned stats, live) ∧
  ∃ new_id,
    stats = {| session_id := Some new_id; room_id := 42; start_time := 1000%float;
               gifts := []; total_gift_count := 0;
               total_gift_value := f_of_int 0; gift_user_count := 0 |} ∧
    (∀ r, r ∈ sessions_rows (db booted) → sessions.id r < new_id) ∧
    (∀ g, g ∈ gifts_rows (db live) → gifts_table.session_id g ≠ new_id) ∧
    filter (λ r, sessions.room_id r = 42 ∧ sessions.end_time r = None)
      (sessions_rows (db live))
    = [SessionStore.new_session_row new_id 42 1000%float] ∧
    SessionStore.get_active_session 42 live = (Returned (Some stats), live) ∧
    ∀ room', room' ≠ 42 →
      active_sessions live !! room' = active_sessions booted !! room'.
Proof.
  cbn zeta.
  assert (Hst : reachable booted) by (unfold booted; repeat constructor).
  assert (Hrun : SessionStore.start_session 1000%float 42 booted
                 = (Returned (SessionStats.new (Some 1) 42 1000%float), live))
    by (vm_compute; reflexivity).
  split; [exact Hst|]. split; [exact Hrun|].
  exact (start_session_registers_fresh booted live 1000%float 42 _ Hst Hrun).
Defined.

Lemma end_session_finalises_row_witness :
  let fin := SessionStore.finished two_gifts in
  let closed :=
    {| sessions.id := 1; sessions.room_id := 42;
       sessions.start_time := 1000%float;
       sessions.end_time := Some 2000%float;
       sessions.duration := 1000%float;
       sessions.total_gift_count := 4;
       sessions.total_gift_value := Some 53.0%float;
       sessions.gift_user_count := 2;
       sessions.summary_json := Some (json_dumps (SessionStore.summary_of fin)) |} in
  reachable gifted ∧
  active_sessions gifted !! 42 = Some two_gifts ∧
  SessionStore.end_session 2000%float 42 gifted = (Returned (Some fin), ended) ∧
  weak_order_on f_ltb (snd <$> user_totals (gifts two_gifts)) ∧
  sessions_rows (db ended) = [closed] ∧
  gifts_rows (db ended) = gifts_rows (db gifted) ∧
  active_sessions ended = delete 42 (active_sessions gifted) ∧
  committed ended = db ended.
Proof.
  cbn zeta.
  assert (Hlook : active_sessions gifted !! 42 = Some two_gifts)
    by (vm_compute; reflexivity).
  assert (Hrun : SessionStore.end_session 2000%float 42 gifted
                 = (Returned (Some (SessionStore.finished two_gifts)), ended))
    by (vm_compute; reflexivity).
  assert (Hw : weak_order_on f_ltb (snd <$> user_totals (gifts two_gifts)))
    by (apply weak_order_onb_sound; vm_compute; reflexivity).
  destruct (end_session_finalises_row gifted ended 2000%float 42 two_gifts _
              reachable_gifted Hlook Hrun)
    as (sid & summary & Hsid & Hthm).
  cbn zeta in Hthm.
  destruct Hthm as (_ & _ & _ & Hsum & _ & Hrows & Hgifts & Ha & Hcm).
  injection Hsid as <-. rewrite (Hsum Hw) in Hrows.
  split; [exact reachable_gifted|]. split; [exact Hlook|].
  split; [exact Hrun|]. split; [exact Hw|].
  split; [rewrite Hrows; vm_compute; reflexivity|].
  split; [exact Hgifts|]. split; [exact Ha|exact Hcm].
Defined.


Lemma results_tell_whether_live_witness :
  reachable gifted ∧
  is_Some (active_sessions gifted !! 42) ∧
  fst (SessionStore.add_gift 1003%float 42 "Carol" "u3" "g1" "Rose" 2 1.0%float gifted)
  = Returned true ∧
  (∀ s, active_sessions gifted !! 42 = Some s → is_Some (session_id s)) ∧
  (true = true ↔ is_Some (active_sessions gifted !! 42)).
Proof.
  assert (Hrun : fst (SessionStore.add_gift 1003%float 42 "Carol" "u3" "g1" "Rose" 2
                        1.0%float gifted) = Returned true)
    by (vm_compute; reflexivity).
  destruct (results_tell_whether_live gifted 1003%float 42 "Carol" "u3" "g1" "Rose" 2
              1.0%float reachable_gifted) as (Hid & Hadd & _).
  split; [exact reachable_gifted|].
  split; [exact (proj1 (Hadd true Hrun) eq_refl)|].
  split; [exact Hrun|]. split; [exact Hid|exact (Hadd true Hrun)].
Defined.


Lemma end_session_adds_one_to_history_witness :
  let st := after_all run_42 (blank []) in
  let st' := snd (SessionStore.end_session 2000%float 42 st) in
  fst (SessionStore.get_active_session 42 st) = Returned (Some two_gifts) ∧
  is_raised (fst (SessionStore.end_session 2000%float 42 st)) = false ∧
  fst (SessionStore.get_session_history 42 (-1) st) = Returned [] ∧
  fst (SessionStore.get_session_history 42 (-1) st') = Returned history_42 ∧
  length history_42 = S (length ([] : list (history.entry PrimFloat.float))).
Proof.
  cbn zeta.
  assert (Hget : fst (SessionStore.get_active_session 42 (after_all run_42 (blank [])))
                 = Returned (Some two_gifts)) by (vm_compute; reflexivity).
  assert (Hret : is_raised (fst (SessionStore.end_session 2000%float 42
                                   (after_all run_42 (blank [])))) = false)
    by (vm_compute; reflexivity).
  assert (Hbefore : fst (SessionStore.get_session_history 42 (-1)
                           (after_all run_42 (blank []))) = Returned [])
    by (vm_compute; reflexivity).
  assert (Hlater : fst (SessionStore.get_session_history 42 (-1)
                          (snd (SessionStore.end_session 2000%float 42
                                  (after_all run_42 (blank [])))))
                   = Returned history_42) by (vm_compute; reflexivity).
  split; [exact Hget|]. split; [exact Hret|]. split; [exact Hbefore|].
  split; [exact Hlater|].
  exact (end_session_adds_one_to_history run_42 42 two_gifts 2000%float [] history_42
           Hget Hret Hbefore Hlater).
Defined.

End Room42More.
